(** * Token-accounting pipeline of the tealeaf accuracy benchmark

    A shallow embedding of the three accounting scripts
    [accuracy-benchmark/scripts/validate_tokens.py],
    [accuracy-benchmark/scripts/count_tokens.py] and
    [accuracy-benchmark/scripts/generate_charts.py], and the properties of
    their prompt extraction, common-affix splitting, table parsing,
    aggregation and verdict code.

    Conventions of the embedding:
    - a Python [str] is a list of characters ([list ascii]); the character
      classes and the case mapping are the ones of ASCII text, code points
      above 127 are outside the model;
    - a Python [int] is a [Z]; a Python [float] is the rational it denotes
      ([Q]), every arithmetic step being exact (binary64 rounding is not
      modelled; the range of binary64 is, where two [int]s read from a
      document are divided, see [int_truediv]);
    - code that can raise returns a [result], whose [Raise] carries the
      exception class; code that cannot raise is a plain function;
    - a Python [dict] is a [gmap]. *)

From Stdlib Require Import ZArith QArith Qabs Lqa Ascii String List Lia.
From stdpp Require Import base option list strings gmap sorting.

Local Open Scope Z_scope.

(** ** Python built-ins used by the scripts *)

Module py.

Definition str := list ascii.

(** A string literal of the source, as a [str]. *)
Definition lit (s : string) : str := list_ascii_of_string s.

Definition LF : ascii := ascii_of_nat 10.
Definition DQUOTE : ascii := ascii_of_nat 34.

(** [len(x)] *)
Definition len {A} (x : list A) : Z := Z.of_nat (length x).

Inductive exn :=
  ValueError | IndexError | KeyError | ZeroDivisionError | OverflowError.

Inductive result (A : Type) :=
  | Ok (a : A)
  | Raise (e : exn).
Arguments Ok {A} a.
Arguments Raise {A} e.

#[global] Instance result_ret : MRet result := fun A a => Ok a.
#[global] Instance result_bind : MBind result := fun A B f m =>
  match m with Ok a => f a | Raise e => Raise e end.

(** An index of a slice, adjusted as CPython's [PySlice_AdjustIndices] does
    for step 1: a negative index counts from the end, and the outcome is
    clipped to [0, length]. *)
Definition adjust_index (length i : Z) : Z :=
  if i <? 0 then Z.max 0 (i + length) else Z.min i length.

(** [s[start:stop]]; [None] is an omitted bound.  Slicing never raises: when
    the adjusted bounds cross, the slice is empty. *)
Definition slice {A} (s : list A) (start stop : option Z) : list A :=
  let n := len s in
  let lo := from_option (adjust_index n) 0 start in
  let hi := from_option (adjust_index n) n stop in
  take (Z.to_nat (hi - lo)) (drop (Z.to_nat lo) s).

(** [s[i]] of a list: a negative index counts from the end, an index out of
    range raises [IndexError]. *)
Definition getitem {A} (s : list A) (i : Z) : result A :=
  let j := if i <? 0 then i + len s else i in
  if j <? 0 then Raise IndexError
  else match s !! Z.to_nat j with
       | Some x => Ok x
       | None => Raise IndexError
       end.

(** [s.startswith(prefix)] *)
Fixpoint startswith (s prefix : str) {struct prefix} : bool :=
  match prefix, s with
  | [], _ => true
  | p :: prefix', c :: s' => bool_decide (c = p) && startswith s' prefix'
  | _ :: _, [] => false
  end.

(** [s.endswith(suffix)] *)
Definition endswith (s suffix : str) : bool :=
  startswith (reverse s) (reverse suffix).

(** [s.find(sub)]: the lowest index at which [sub] occurs in [s], or [-1]. *)
Fixpoint find_from (s sub : str) (i : Z) : Z :=
  if startswith s sub then i
  else match s with
       | [] => -1
       | _ :: s' => find_from s' sub (i + 1)
       end.

Definition find (s sub : str) : Z := find_from s sub 0.

(** [s.lstrip(chars)]: the leading characters that are in [chars] removed. *)
Fixpoint lstrip (s chars : str) : str :=
  match s with
  | c :: s' => if bool_decide (c ∈ chars) then lstrip s' chars else s
  | [] => []
  end.

(** [s.removesuffix(suffix)] *)
Definition removesuffix (s suffix : str) : str :=
  if endswith s suffix && negb (bool_decide (suffix = []))
  then slice s None (Some (- len suffix))
  else s.

Definition in_range (lo hi : nat) (c : ascii) : bool :=
  (lo <=? nat_of_ascii c)%nat && (nat_of_ascii c <=? hi)%nat.

Definition is_upper (c : ascii) : bool := in_range 65 90 c.
Definition is_lower (c : ascii) : bool := in_range 97 122 c.
Definition is_digit (c : ascii) : bool := in_range 48 57 c.

Definition upper_char (c : ascii) : ascii :=
  if is_lower c then ascii_of_nat (nat_of_ascii c - 32) else c.
Definition lower_char (c : ascii) : ascii :=
  if is_upper c then ascii_of_nat (nat_of_ascii c + 32) else c.

(** [s.upper()] and [s.lower()] *)
Definition upper (s : str) : str := upper_char <$> s.
Definition lower (s : str) : str := lower_char <$> s.

(** The classes of the [re] module on ASCII text: [\d], [\w] and [\s]. *)
Definition is_word (c : ascii) : bool :=
  is_upper c || is_lower c || is_digit c || bool_decide (c = ascii_of_nat 95).
Definition is_space (c : ascii) : bool :=
  in_range 9 13 c || in_range 28 32 c.

Definition digit_value (c : ascii) : Z := Z.of_nat (nat_of_ascii c) - 48.

(** The number a run of decimal digits denotes. *)
Definition decimal (s : str) : Z :=
  fold_left (fun n c => 10 * n + digit_value c) s 0.

(** [int(s)] for the arguments the scripts pass, non-empty runs of decimal
    digits.  Every other argument is modelled as [ValueError] (the signs,
    blanks and underscores [int] accepts besides are not modelled, nor is
    CPython's configurable cap on the number of digits). *)
Definition int (s : str) : result Z :=
  if negb (bool_decide (s = [])) && forallb is_digit s
  then Ok (decimal s)
  else Raise ValueError.

(** [a / b] on numbers: true division, which raises on a zero divisor. *)
Definition truediv (a b : Q) : result Q :=
  if Qeq_bool b 0 then Raise ZeroDivisionError else Ok (a / b)%Q.

(** The least magnitude that rounds out of the range of a [float]: halfway
    between the largest finite binary64 number, [2^1024 - 2^971], and
    [2^1024]. *)
Definition FLOAT_OVERFLOW : Z := 2 ^ 1024 - 2 ^ 970.

(** [a / b] on two [int]s of any size: true division, which raises on a
    zero divisor and raises [OverflowError] when the correctly rounded
    quotient is too large for a [float]. *)
Definition int_truediv (a b : Z) : result Q :=
  if b =? 0 then Raise ZeroDivisionError
  else if FLOAT_OVERFLOW * Z.abs b <=? Z.abs a then Raise OverflowError
  else Ok (inject_Z a / inject_Z b)%Q.

#[global] Instance Qle_decision (x y : Q) : Decision (x <= y)%Q :=
  match Qlt_le_dec y x with
  | left H => right (Qlt_not_le _ _ H)
  | right H => left H
  end.

(** [sorted(xs)] on numbers. *)
Definition sorted (xs : list Q) : list Q := merge_sort Qle xs.

(** [s.rsplit(sep, 1)[0]] for a one-character [sep]: the text before the
    last [sep], or all of [s] when [sep] does not occur in it. *)
Fixpoint after_first (sep : ascii) (s : str) : option str :=
  match s with
  | c :: s' => if bool_decide (c = sep) then Some s' else after_first sep s'
  | [] => None
  end.

Definition rsplit1_head (s : str) (sep : ascii) : str :=
  match after_first sep (reverse s) with
  | Some r => reverse r
  | None => s
  end.

(** [d[k]] of a dict. *)
Definition dict_getitem `{Countable K} {V} (d : gmap K V) (k : K) : result V :=
  match d !! k with
  | Some v => Ok v
  | None => Raise KeyError
  end.

(** [d.get(k)] of a dict kept as the list of its items, in insertion
    order. *)
Fixpoint items_get {V} (d : list (str * V)) (k : str) : option V :=
  match d with
  | (k', v) :: d' => if bool_decide (k' = k) then Some v else items_get d' k
  | [] => None
  end.

Definition CR : ascii := ascii_of_nat 13.
Definition DOT : ascii := ascii_of_nat 46.

(** [s.replace(old, new)] for a one-character [old]. *)
Fixpoint replace_char (s : str) (old : ascii) (new : str) : str :=
  match s with
  | c :: s' =>
      (if bool_decide (c = old) then new else [c]) ++ replace_char s' old new
  | [] => []
  end.

(** [min(xs)] on integers, which raises on an empty sequence. *)
Definition min_of (xs : list Z) : result Z :=
  match xs with
  | x :: xs' => Ok (foldl Z.min x xs')
  | [] => Raise ValueError
  end.

(** [sum(xs)] on numbers. *)
Definition sum_of (xs : list Q) : Q := foldl Qplus 0%Q xs.

(** [float(s)] for the arguments the scripts pass, non-empty runs of digits
    and dots: a literal has at most one dot and at least one digit, and
    denotes the decimal fraction it writes.  Every other argument is
    modelled as [ValueError] (signs, exponents, blanks and the names of
    infinities that [float] accepts besides are not modelled). *)
Definition float (s : str) : result Q :=
  let digits := filter (fun c => c <> DOT) s in
  let fraction := default [] (after_first DOT s) in
  if forallb (fun c => is_digit c || bool_decide (c = DOT)) s
     && bool_decide (length s <= length digits + 1)%nat
     && negb (bool_decide (digits = []))
  then Ok (inject_Z (decimal digits) / inject_Z (10 ^ len fraction))%Q
  else Raise ValueError.

(** A [for] loop whose body may raise, over the state it updates. *)
Fixpoint for_each {A S} (body : S -> A -> result S) (xs : list A) (st : S)
  : result S :=
  match xs with
  | [] => Ok st
  | x :: xs' => st' ← body st x; for_each body xs' st'
  end.

End py.

Import py.

(** ** The fragment of Python's [re] the scripts use

    Every pattern of the scripts is a sequence of one-character atoms (a
    literal or a class), each taken once or under a greedy [*] or [+], with
    capture groups around runs of atoms.  The matcher is the backtracking
    one: a repeated atom first takes the longest run of characters of its
    class, and gives characters back one at a time while the rest of the
    pattern fails. *)

Module re.

Inductive quant := One | Star | Plus.

Record atom := Atom { cls : ascii -> bool; rep : quant }.

Record pattern := Pattern {
  atoms : list atom;
  (** each group as (index of its first atom, number of its atoms) *)
  groups : list (nat * nat)
}.

(** The number of leading characters of [s] in the class. *)
Fixpoint run (cls : ascii -> bool) (s : str) : nat :=
  match s with
  | c :: s' => if cls c then S (run cls s') else O
  | [] => O
  end.

(** Tries the counts [n], [n - 1], ..., [lo] in this order. *)
Fixpoint backtrack {A} (k : nat -> option A) (lo n : nat) : option (nat * A) :=
  if (n <? lo)%nat then None
  else match k n with
       | Some r => Some (n, r)
       | None => match n with
                 | S n' => backtrack k lo n'
                 | O => None
                 end
       end.

Definition least (q : quant) : nat :=
  match q with Star => 0%nat | One | Plus => 1%nat end.

Definition most (q : quant) (available : nat) : nat :=
  match q with One => Nat.min 1 available | Star | Plus => available end.

(** The match of the atoms at the start of [s], as the number of characters
    each atom takes. *)
Fixpoint match_here (p : list atom) (s : str) : option (list nat) :=
  match p with
  | [] => Some []
  | a :: p' =>
      match backtrack (fun n => match_here p' (drop n s))
                      (least (rep a)) (most (rep a) (run (cls a) s)) with
      | Some (n, ns) => Some (n :: ns)
      | None => None
      end
  end.

(** The text of the group that spans [count] atoms from atom [first]. *)
Definition group_text (s : str) (ns : list nat) (g : nat * nat) : str :=
  take (sum_list (take g.2 (drop g.1 ns))) (drop (sum_list (take g.1 ns)) s).

(** A match at the start of [s]: its length and [m.group(0)], [m.group(1)],
    ... *)
Definition match_at (p : pattern) (s : str) : option (nat * list str) :=
  match match_here (atoms p) s with
  | Some ns =>
      Some (sum_list ns, take (sum_list ns) s :: (group_text s ns <$> groups p))
  | None => None
  end.

(** [re.finditer(p, s)] for a pattern that begins with a one-character atom,
    so that no match is empty: the matches from left to right, each search
    resuming where the previous match ended.  [skip] counts the characters
    of the last match that are still to be passed. *)
Fixpoint finditer_from (p : pattern) (s : str) (skip : nat) : list (list str) :=
  match s with
  | [] => []
  | _ :: s' =>
      match skip with
      | S k => finditer_from p s' k
      | O =>
          match match_at p s with
          | Some (n, m) => m :: finditer_from p s' (n - 1)
          | None => finditer_from p s' 0
          end
      end
  end.

Definition finditer (p : pattern) (s : str) : list (list str) :=
  finditer_from p s 0.

(** [m.group(k)] *)
Definition group (m : list str) (k : nat) : str := default [] (m !! k).

Definition chr (c : ascii) : atom := Atom (fun x => bool_decide (x = c)) One.
Definition notchr (c : ascii) (q : quant) : atom :=
  Atom (fun x => negb (bool_decide (x = c))) q.
Definition w (q : quant) : atom := Atom is_word q.
Definition d (q : quant) : atom := Atom is_digit q.
Definition s (q : quant) : atom := Atom is_space q.

Definition LPAREN : ascii := ascii_of_nat 40.
Definition COMMA : ascii := ascii_of_nat 44.
Definition HYPHEN : ascii := ascii_of_nat 45.

End re.

(** ** validate_tokens.py *)

Module validate_tokens.

Definition TASK_IDS : list str :=
  lit <$> ["FIN-001"; "FIN-002"; "RET-001"; "RET-002"; "HLT-001"; "TEC-001";
           "MKT-001"; "LOG-001"; "HR-001"; "MFG-001"; "RE-001"; "LEG-001"]%string.

(** [extract_prompt], on the text read from the file. *)
Definition extract_prompt (text : str) : result str :=
  let marker := lit "=== PROMPT ===" ++ [LF; LF] in
  let idx := find text marker in
  if idx =? -1 then Raise ValueError
  else Ok (slice text (Some (idx + len marker)) None).

(** The two counting loops of [split_instruction_and_data],
<<
    n = 0
    for a, b in zip(x, y):
        if a == b: n += 1
        else: break
>>
    with the counter threaded through. *)
Fixpoint common_run (x y : str) (n : Z) : Z :=
  match x, y with
  | a :: x', b :: y' =>
      if bool_decide (a = b) then common_run x' y' (n + 1) else n
  | _, _ => n
  end.

Definition prefix_len (tl_prompt json_prompt : str) : Z :=
  common_run tl_prompt json_prompt 0.

(** [suffix_len] as the second loop leaves it, before the overlap guard. *)
Definition scanned_suffix_len (tl_prompt json_prompt : str) : Z :=
  common_run (reverse tl_prompt) (reverse json_prompt) 0.

(** [suffix_len] after the overlap guard. *)
Definition suffix_len (tl_prompt json_prompt : str) : Z :=
  let prefix_len := prefix_len tl_prompt json_prompt in
  let suffix_len := scanned_suffix_len tl_prompt json_prompt in
  if prefix_len + suffix_len >? Z.min (len tl_prompt) (len json_prompt)
  then Z.min (len tl_prompt) (len json_prompt) - prefix_len
  else suffix_len.

Definition instruction_prefix (tl_prompt json_prompt : str) : str :=
  slice tl_prompt None (Some (prefix_len tl_prompt json_prompt)).

Definition instruction_suffix (tl_prompt json_prompt : str) : str :=
  let suffix_len := suffix_len tl_prompt json_prompt in
  if suffix_len >? 0
  then slice tl_prompt (Some (len tl_prompt - suffix_len)) None
  else [].

(** The middle slice of [prompt], which is [tl_prompt] or [json_prompt]. *)
Definition data_of (prompt : str) (prefix_len suffix_len : Z) : str :=
  if suffix_len >? 0
  then slice prompt (Some prefix_len) (Some (len prompt - suffix_len))
  else slice prompt (Some prefix_len) None.

Definition tl_data (tl_prompt json_prompt : str) : str :=
  data_of tl_prompt (prefix_len tl_prompt json_prompt)
          (suffix_len tl_prompt json_prompt).

Definition json_data (tl_prompt json_prompt : str) : str :=
  data_of json_prompt (prefix_len tl_prompt json_prompt)
          (suffix_len tl_prompt json_prompt).

Definition split_instruction_and_data (tl_prompt json_prompt : str)
  : str * str * str :=
  (instruction_prefix tl_prompt json_prompt
     ++ instruction_suffix tl_prompt json_prompt,
   tl_data tl_prompt json_prompt,
   json_data tl_prompt json_prompt).

(** The pattern of [parse_api_tokens], written here with ['] for the double
    quote: [\((\w+-\d+),\s*(\w+),\s*'[^']+',\s*(\d+),\s*(\d+)]. *)
Definition ROW : re.pattern :=
  re.Pattern
    [ re.chr re.LPAREN;
      re.w re.Plus; re.chr re.HYPHEN; re.d re.Plus;
      re.chr re.COMMA; re.s re.Star;
      re.w re.Plus;
      re.chr re.COMMA; re.s re.Star;
      re.chr DQUOTE; re.notchr DQUOTE re.Plus; re.chr DQUOTE;
      re.chr re.COMMA; re.s re.Star;
      re.d re.Plus;
      re.chr re.COMMA; re.s re.Star;
      re.d re.Plus ]
    [ (1, 3); (6, 1); (14, 1); (17, 1) ]%nat.

(** The body of the loop of [parse_api_tokens], for one match. *)
Definition record_row (tokens : gmap str (gmap str Z)) (m : list str)
  : result (gmap str (gmap str Z)) :=
  let task_id := re.group m 1 in
  let provider := re.group m 2 in
  input_tokens ← int (re.group m 3);
  let tokens :=
    if bool_decide (tokens !! task_id = None)
    then <[task_id := ∅]> tokens else tokens in
  inner ← dict_getitem tokens task_id;
  Ok (<[task_id := <[provider := input_tokens]> inner]> tokens).

(** [parse_api_tokens], on the text read from the file. *)
Definition parse_api_tokens (text : str) : result (gmap str (gmap str Z)) :=
  for_each record_row (re.finditer ROW text) ∅.

(** What the tokenizer measures for one task whose two prompt files exist. *)
Record counts := Counts {
  task_id : str;
  tl_tokens : Z;
  json_tokens : Z;
  instruction_tokens : Z;
  tl_data_tokens : Z;
  json_data_tokens : Z
}.

(** An entry of [results]. *)
Record row := Row {
  measured : counts;
  data_savings_pct : Q
}.

(** The state of the loop over the tasks in [main]. *)
Record totals := Totals {
  total_tl_data_tokens : Z;
  total_json_data_tokens : Z;
  total_instruction_tokens : Z;
  results : list row
}.

(** [(1 - a / b) * 100 if b > 0 else 0] *)
Definition savings (a b : Z) : result Q :=
  if b >? 0
  then q ← truediv (inject_Z a) (inject_Z b); Ok ((1 - q) * 100)%Q
  else Ok 0%Q.

(** The body of the loop over the tasks, after the tokenizer ran. *)
Definition task_step (st : totals) (c : counts) : result totals :=
  pct ← savings (tl_data_tokens c) (json_data_tokens c);
  Ok (Totals (total_tl_data_tokens st + tl_data_tokens c)
             (total_json_data_tokens st + json_data_tokens c)
             (total_instruction_tokens st + instruction_tokens c)
             (results st ++ [Row c pct])).

Definition run_tasks (cs : list counts) : result totals :=
  for_each task_step cs (Totals 0 0 0 []).

Definition total_data_savings (st : totals) : result Q :=
  savings (total_tl_data_tokens st) (total_json_data_tokens st).

Definition median_savings (st : totals) : result Q :=
  let savings_values := sorted (data_savings_pct <$> results st) in
  let n := len savings_values in
  if n mod 2 =? 0
  then a ← getitem savings_values (n / 2 - 1);
       b ← getitem savings_values (n / 2);
       Ok ((a + b) / 2)%Q
  else getitem savings_values (n / 2).

(** The two data-only savings figures of the summary, weighted total first. *)
Definition summary (cs : list counts) : result (Q * Q) :=
  st ← run_tasks cs;
  weighted ← total_data_savings st;
  median ← median_savings st;
  Ok (weighted, median).

Inductive verdict := PASS | MARGINAL | FAIL.

(** [sum(api_tokens.get(t, {}).get("openai", 0) for t in TASK_IDS)] *)
Definition api_total (api_tokens : gmap str (gmap str Z)) : Z :=
  foldr Z.add 0
    ((fun t => default 0 (default ∅ (api_tokens !! t) !! lit "openai"))
       <$> TASK_IDS).

(** [abs(total_tl - api_total) / api_total * 100 if api_total > 0 else 0] *)
Definition diff_pct (total_tl api_total : Z) : result Q :=
  if api_total >? 0
  then q ← truediv (inject_Z (Z.abs (total_tl - api_total))) (inject_Z api_total);
       Ok (q * 100)%Q
  else Ok 0%Q.

(** The [Result:] line printed for [diff_pct]. *)
Definition result_line (diff_pct : Q) : verdict :=
  if Qle_bool diff_pct 1 then PASS
  else if Qle_bool diff_pct 5 then MARGINAL
  else FAIL.

(** The validation block that ends [main]: nothing is reported when
    [api_tokens] is empty. *)
Definition validation (api_tokens : gmap str (gmap str Z)) (total_tl : Z)
  : result (option verdict) :=
  if bool_decide (api_tokens = ∅) then Ok None
  else d ← diff_pct total_tl (api_total api_tokens); Ok (Some (result_line d)).

(** [safe_print], as the line it prints. *)
Definition safe_print (text : str) : str :=
  replace_char (replace_char text CR []) LF [].

Section main.

(** The tokenizer, as the number of tokens it gives for a text
    ([len(enc.encode(text))]), and the files of [PROMPTS_DIR] with their
    texts, by file name. *)
Variable n_tokens : str -> Z.
Variable prompts : gmap str str.

(** What the loop over the tasks measures for one task; nothing when one of
    its two files is missing. *)
Definition measure (task_id : str) : result (option counts) :=
  let tl_file := lower task_id ++ lit "-tl.txt" in
  let json_file := lower task_id ++ lit "-json.txt" in
  match prompts !! tl_file, prompts !! json_file with
  | Some tl_text, Some json_text =>
      tl_prompt ← extract_prompt tl_text;
      json_prompt ← extract_prompt json_text;
      let tl_tokens := n_tokens tl_prompt in
      let json_tokens := n_tokens json_prompt in
      let '(instruction_text, tl_data, json_data) :=
        split_instruction_and_data tl_prompt json_prompt in
      Ok (Some (Counts task_id tl_tokens json_tokens (n_tokens instruction_text)
                  (n_tokens tl_data) (n_tokens json_data)))
  | _, _ => Ok None
  end.

(** The body of the loop over the tasks. *)
Definition main_step (st : totals) (task_id : str) : result totals :=
  c ← measure task_id;
  match c with
  | Some c => task_step st c
  | None => Ok st
  end.

(** The loop over the tasks; [main] runs it on [TASK_IDS]. *)
Definition main_loop (task_ids : list str) : result totals :=
  for_each main_step task_ids (Totals 0 0 0 []).

End main.

(** The body of the loop that collects [api_diffs]. *)
Definition api_diff_step (api_tokens : gmap str (gmap str Z))
    (api_diffs : list Q) (r : row) : result (list Q) :=
  let task_id := task_id (measured r) in
  match api_tokens !! task_id with
  | Some inner =>
      if bool_decide (is_Some (inner !! lit "openai"))
      then api_input ← dict_getitem inner (lit "openai");
           if api_input >? 0
           then q ← truediv (inject_Z (tl_tokens (measured r) - api_input))
                            (inject_Z api_input);
                Ok (api_diffs ++ [(q * 100)%Q])
           else Ok api_diffs
      else Ok api_diffs
  | None => Ok api_diffs
  end.

(** [median_api_diff], [None] when there is no per-task difference. *)
Definition median_api_diff (api_tokens : gmap str (gmap str Z))
    (results : list row) : result (option Q) :=
  api_diffs ← for_each (api_diff_step api_tokens) results [];
  let api_diffs := sorted api_diffs in
  if negb (bool_decide (api_diffs = []))
  then let na := len api_diffs in
       if na mod 2 =? 0
       then a ← getitem api_diffs (na / 2 - 1);
            b ← getitem api_diffs (na / 2);
            Ok (Some ((a + b) / 2)%Q)
       else m ← getitem api_diffs (na / 2); Ok (Some m)
  else Ok None.

End validate_tokens.

(** ** count_tokens.py *)

Module count_tokens.

Definition FORMATS : list str := lit <$> ["tl"; "json"; "toon"]%string.

(** [extract_prompt], on the text read from the file. *)
Definition extract_prompt (text : str) : str :=
  let marker := lit "=== PROMPT ===" in
  let idx := find text marker in
  if idx =? -1 then text
  else lstrip (slice text (Some (idx + len marker)) None) [LF].

(** The loop of [parse_filename] over the formats still to try. *)
Fixpoint parse_stem (stem : str) (formats : list str) : str * str :=
  match formats with
  | fmt :: formats' =>
      let suffix := lit "-" ++ fmt in
      if endswith stem suffix
      then (upper (slice stem None (Some (- len suffix))), fmt)
      else parse_stem stem formats'
  | [] => (upper stem, lit "unknown")
  end.

Definition parse_filename (filename : str) : str * str :=
  parse_stem (removesuffix filename (lit ".txt")) FORMATS.

(** [((a - b) / b * 100) if b else 0], the expression [main] writes out for
    each of its percentage columns. *)
Definition pct (a b : Z) : result Q :=
  if negb (b =? 0)
  then q ← truediv (inject_Z (a - b)) (inject_Z b); Ok (q * 100)%Q
  else Ok 0%Q.

(** The three percentages of a task's line in the summary table:
    TL vs JSON, TOON vs JSON and TL vs TOON. *)
Definition task_pcts (results : gmap (str * str) Z) (task_id : str)
  : result (Q * Q * Q) :=
  let json_tokens := default 0 (results !! (task_id, lit "json")) in
  let tl_tokens := default 0 (results !! (task_id, lit "tl")) in
  let toon_tokens := default 0 (results !! (task_id, lit "toon")) in
  tl_pct ← pct tl_tokens json_tokens;
  toon_pct ← pct toon_tokens json_tokens;
  tl_toon_pct ← pct tl_tokens toon_tokens;
  Ok (tl_pct, toon_pct, tl_toon_pct).

Section main.

(** The token count the counting endpoint reports for a prompt. *)
Variable count_tokens : str -> Z.

(** The body of the loop over the prompt files, each given by its name and
    its text: a file of an unknown format is passed over. *)
Definition count_file (results : gmap (str * str) Z) (file : str * str)
  : gmap (str * str) Z :=
  let '(task_id, fmt) := parse_filename file.1 in
  if bool_decide (fmt = lit "unknown") then results
  else <[(task_id, fmt) := count_tokens (extract_prompt file.2)]> results.

Definition count_files (prompt_files : list (str * str))
  : gmap (str * str) Z :=
  foldl count_file ∅ prompt_files.

End main.

(** [results.get((task_id, fmt), 0)] *)
Definition tokens_of (results : gmap (str * str) Z) (task_id fmt : str) : Z :=
  default 0 (results !! (task_id, fmt)).

(** [totals[fmt]] after the loop over the tasks, for a format of
    [FORMATS]. *)
Definition totals (results : gmap (str * str) Z) (task_ids : list str)
    (fmt : str) : Z :=
  foldl (fun acc task_id => acc + tokens_of results task_id fmt) 0 task_ids.

(** The dict [min_per_task]. *)
Definition min_per_task (results : gmap (str * str) Z) (task_ids : list str)
  : result (gmap str Z) :=
  for_each
    (fun d task_id =>
       m ← min_of (tokens_of results task_id <$> FORMATS); Ok (<[task_id := m]> d))
    task_ids ∅.

(** [sum(results.get((t, fmt), 0) - min_per_task[t] for t in task_ids)] *)
Definition data_tokens (results : gmap (str * str) Z) (mins : gmap str Z)
    (task_ids : list str) (fmt : str) : result Z :=
  for_each
    (fun acc t => m ← dict_getitem mins t; Ok (acc + (tokens_of results t fmt - m)))
    task_ids 0.

(** The lines of the data-only estimate, each with its format, its
    percentage, and the data tokens of the format and of JSON. *)
Definition data_only_estimate (results : gmap (str * str) Z)
    (task_ids : list str) : result (list (str * Q * Z * Z)) :=
  if (1 <? len FORMATS) && forallb (fun f => totals results task_ids f >? 0) FORMATS
  then
    mins ← min_per_task results task_ids;
    for_each
      (fun lines fmt =>
         if bool_decide (fmt = lit "json") then Ok lines
         else
           fmt_data ← data_tokens results mins task_ids fmt;
           json_data ← data_tokens results mins task_ids (lit "json");
           if json_data >? 0
           then q ← truediv (inject_Z (fmt_data - json_data)) (inject_Z json_data);
                Ok (lines ++ [(fmt, (q * 100)%Q, fmt_data, json_data)])
           else Ok lines)
      FORMATS []
  else Ok [].

End count_tokens.

(** ** generate_charts.py *)

Module generate_charts.

(** [text[text.find("responses:"):text.find("# Analysis")]] *)
Definition responses_section (text : str) : str :=
  slice text (Some (find text (lit "responses:")))
             (Some (find text (lit "# Analysis"))).

(** [text[text.find("analysis_results:"):text.find("# Comparisons")]] *)
Definition analysis_section (text : str) : str :=
  slice text (Some (find text (lit "analysis_results:")))
             (Some (find text (lit "# Comparisons"))).

Definition TASK_PREFIX_TO_DOMAIN : list (str * str) :=
  [ (lit "FIN", lit "Finance");
    (lit "HEALTH", lit "Healthcare");
    (lit "HR", lit "HR / Labor");
    (lit "LEGAL", lit "Legal");
    (lit "TECH", lit "Technology");
    (lit "RETAIL", lit "Retail");
    (lit "RE", lit "Real Estate") ].

Definition _task_id_to_domain (task_id : str) : str :=
  let prefix := rsplit1_head task_id re.HYPHEN in
  default prefix (items_get TASK_PREFIX_TO_DOMAIN prefix).

(** The pattern of the responses rows, written here with ['] for the double
    quote: [\('([^']+)',\s*'(\w+)',\s*'(\w+)',\s*'[^']*',\s*(\d+)]. *)
Definition RESPONSE_ROW : re.pattern :=
  re.Pattern
    [ re.chr re.LPAREN;
      re.chr DQUOTE; re.notchr DQUOTE re.Plus; re.chr DQUOTE;
      re.chr re.COMMA; re.s re.Star;
      re.chr DQUOTE; re.w re.Plus; re.chr DQUOTE;
      re.chr re.COMMA; re.s re.Star;
      re.chr DQUOTE; re.w re.Plus; re.chr DQUOTE;
      re.chr re.COMMA; re.s re.Star;
      re.chr DQUOTE; re.notchr DQUOTE re.Star; re.chr DQUOTE;
      re.chr re.COMMA; re.s re.Star;
      re.d re.Plus ]
    [ (2, 1); (7, 1); (12, 1); (21, 1) ]%nat.

(** The body of the loop over the responses rows, for one match. *)
Definition record_response (domain_tokens : gmap str (gmap (str * str) Z))
    (m : list str) : result (gmap str (gmap (str * str) Z)) :=
  let task_id := re.group m 1 in
  let provider := re.group m 2 in
  let fmt := re.group m 3 in
  let input_tok := re.group m 4 in
  let domain := _task_id_to_domain task_id in
  let domain_tokens :=
    if bool_decide (domain_tokens !! domain = None)
    then <[domain := ∅]> domain_tokens else domain_tokens in
  let key := (provider, fmt) in
  inner ← dict_getitem domain_tokens domain;
  n ← int input_tok;
  Ok (<[domain := <[key := default 0 (inner !! key) + n]> inner]> domain_tokens).

(** [domain_tokens] of [load_from_results_dir], on the text read from
    [analysis.tl]. *)
Definition domain_tokens (text : str)
  : result (gmap str (gmap (str * str) Z)) :=
  for_each record_response
    (re.finditer RESPONSE_ROW (responses_section text)) ∅.

(** The [input_tokens] entries of the [domain_data] that
    [load_from_results_dir] returns, in the order of
    [TASK_PREFIX_TO_DOMAIN]. *)
Definition load_input_tokens (text : str)
  : result (list (str * gmap (str * str) Z)) :=
  tokens ← domain_tokens text;
  Ok (omap (fun kv => pair kv.2 <$> tokens !! kv.2) TASK_PREFIX_TO_DOMAIN).

Definition RPAREN : ascii := ascii_of_nat 41.

(** The atom [[\d.]+] of a score. *)
Definition score : re.atom :=
  re.Atom (fun c => is_digit c || bool_decide (c = DOT)) re.Plus.

(** The pattern of the analysis rows, written here with ['] for the double
    quote:
    [\('([^']+)',\s*'(\w+)',\s*'(\w+)',\s*([\d.]+),\s*([\d.]+),\s*([\d.]+),\s*([\d.]+)\)]. *)
Definition ANALYSIS_ROW : re.pattern :=
  re.Pattern
    [ re.chr re.LPAREN;
      re.chr DQUOTE; re.notchr DQUOTE re.Plus; re.chr DQUOTE;
      re.chr re.COMMA; re.s re.Star;
      re.chr DQUOTE; re.w re.Plus; re.chr DQUOTE;
      re.chr re.COMMA; re.s re.Star;
      re.chr DQUOTE; re.w re.Plus; re.chr DQUOTE;
      re.chr re.COMMA; re.s re.Star;
      score;
      re.chr re.COMMA; re.s re.Star;
      score;
      re.chr re.COMMA; re.s re.Star;
      score;
      re.chr re.COMMA; re.s re.Star;
      score;
      re.chr RPAREN ]
    [ (2, 1); (7, 1); (12, 1); (16, 1); (19, 1); (22, 1); (25, 1) ]%nat.

(** [sum(xs) / len(xs)] *)
Definition mean (xs : list Q) : result Q :=
  truediv (sum_of xs) (inject_Z (len xs)).

(** The body of the loop over the analysis rows, for one match. *)
Definition record_score (domain_scores : gmap str (gmap (str * str) (list Q)))
    (m : list str) : result (gmap str (gmap (str * str) (list Q))) :=
  let task_id := re.group m 1 in
  let provider := re.group m 2 in
  let fmt := re.group m 3 in
  scores ← mapM (fun i => float (re.group m i)) [4; 5; 6; 7]%nat;
  avg_score ← mean scores;
  let domain := _task_id_to_domain task_id in
  let domain_scores :=
    if bool_decide (domain_scores !! domain = None)
    then <[domain := ∅]> domain_scores else domain_scores in
  let key := (provider, fmt) in
  inner ← dict_getitem domain_scores domain;
  Ok (<[domain := <[key := default [] (inner !! key) ++ [avg_score]]> inner]>
        domain_scores).

(** [domain_scores] of [load_from_results_dir], on the text read from
    [analysis.tl]. *)
Definition domain_scores (text : str)
  : result (gmap str (gmap (str * str) (list Q))) :=
  for_each record_score
    (re.finditer ANALYSIS_ROW (analysis_section text)) ∅.

(** The dict [accuracy] of a domain.  The loop goes over the items of a
    dict and fills another one, so that the order of the items does not
    show in the outcome. *)
Definition accuracy_of (scores : gmap (str * str) (list Q))
  : result (gmap (str * str) Q) :=
  for_each (fun accuracy kv => a ← mean kv.2; Ok (<[kv.1 := a]> accuracy))
           (map_to_list scores) ∅.

(** An entry of [domain_data]. *)
Record domain_entry := DomainEntry {
  accuracy : gmap (str * str) Q;
  input_tokens : gmap (str * str) Z
}.

(** [load_from_results_dir], on the text read from [analysis.tl]: the
    [domain_data] it returns, as the list of its items in insertion order
    (the domains of [TASK_PREFIX_TO_DOMAIN] are distinct, so that no item is
    written twice). *)
Definition load_from_results_dir (text : str)
  : result (list (str * domain_entry)) :=
  domain_tokens ← domain_tokens text;
  domain_scores ← domain_scores text;
  for_each
    (fun domain_data kv =>
       let domain := kv.2 in
       match domain_tokens !! domain with
       | None => Ok domain_data
       | Some tokens =>
           accuracy ← accuracy_of (default ∅ (domain_scores !! domain));
           Ok (domain_data ++ [(domain, DomainEntry accuracy tokens)])
       end)
    TASK_PREFIX_TO_DOMAIN [].

(** The percentage of a bar in [plot_token_savings]: the tokens of
    [(provider, fmt)] against those of [(provider, "json")] in a domain's
    [input_tokens], each read with the default 1. *)
Definition savings_pct (input_tokens : gmap (str * str) Z) (provider fmt : str)
  : result Q :=
  let fmt_tokens := default 1 (input_tokens !! (provider, fmt)) in
  let json_tokens := default 1 (input_tokens !! (provider, lit "json")) in
  q ← int_truediv fmt_tokens json_tokens;
  Ok ((1 - q) * 100)%Q.

Definition savings_groups : list (str * str) :=
  [ (lit "anthropic", lit "tl"); (lit "anthropic", lit "toon");
    (lit "openai", lit "tl"); (lit "openai", lit "toon") ].

(** The bar heights [plot_token_savings] computes: for each group of bars,
    the percentage of each domain. *)
Definition plot_token_savings (domain_data : list (str * gmap (str * str) Z))
  : result (list (list Q)) :=
  mapM (fun g => mapM (fun d => savings_pct d.2 g.1 g.2) domain_data)
       savings_groups.

End generate_charts.

(** ** Notions the statements use *)

Module notions.
Import validate_tokens.

(** The length of the longest common prefix, as a specification of the
    counting loops of the splitter. *)
Fixpoint lcp (x y : str) : nat :=
  match x, y with
  | a :: x', b :: y' => if bool_decide (a = b) then S (lcp x' y') else O
  | _, _ => O
  end.

(** [sub] occurs in [s] at index [n]. *)
Definition occurs_at (sub s : str) (n : nat) : Prop :=
  exists pre post, s = pre ++ sub ++ post /\ length pre = n.

(** The marker of the prompt dumps, without the line ends that follow it. *)
Definition MARKER : str := lit "=== PROMPT ===".

(** The characters of a task ID as the benchmark writes them: upper-case
    ASCII letters, digits and hyphens. *)
Definition is_task_id_char (c : ascii) : bool :=
  is_upper c || is_digit c || bool_decide (c = re.HYPHEN).

(** The input tokens that [load_from_results_dir] holds for a domain, a
    provider and a format ([None] when it holds none). *)
Definition input_tokens_at
    (loaded : result (list (str * gmap (str * str) Z)))
    (domain provider fmt : str) : result (option Z) :=
  match loaded with
  | Ok domain_data =>
      Ok (match items_get domain_data domain with
          | Some tokens => tokens !! (provider, fmt)
          | None => None
          end)
  | Raise e => Raise e
  end.

(** [sum(f(c) for c in cs)] *)
Definition total_of (f : counts -> Z) (cs : list counts) : Z :=
  foldr (fun c acc => f c + acc) 0 cs.

(** The data savings of one task, in percent. *)
Definition per_task_pct (c : counts) : Q :=
  if json_data_tokens c >? 0
  then ((1 - inject_Z (tl_data_tokens c) / inject_Z (json_data_tokens c)) * 100)%Q
  else 0%Q.

(** [m] is a median of [xs]: at least half of the values are at most [m],
    and at least half of them are at least [m]. *)
Definition is_median (m : Q) (xs : list Q) : Prop :=
  (length xs <= 2 * length (filter (fun x => (x <= m)%Q) xs))%nat
  /\ (length xs <= 2 * length (filter (fun x => (m <= x)%Q) xs))%nat.

(** [l] is in ascending order. *)
Definition ascending (l : list Q) : Prop :=
  forall (i j : nat) a b,
    (i <= j)%nat -> l !! i = Some a -> l !! j = Some b -> (a <= b)%Q.

(** [m] is the median of [xs]: the middle value of the values put in
    ascending order, or the mean of the two middle values when their number
    is even. *)
Definition the_median (m : Q) (xs : list Q) : Prop :=
  exists l,
    l ≡ₚ xs /\ ascending l
    /\ ((exists (k : nat) a,
           length l = (2 * k + 1)%nat /\ l !! k = Some a /\ (m == a)%Q)
        \/ (exists (k : nat) a b,
              length l = (2 * k + 2)%nat
              /\ l !! k = Some a /\ l !! S k = Some b
              /\ (m == (a + b) / 2)%Q)).

(** The absolute relative difference, in percent, of a measured total
    against a reported total. *)
Definition relative_difference (measured reported : Z) : Q :=
  (Qabs (inject_Z measured - inject_Z reported) / inject_Z reported * 100)%Q.

(** The tasks differ in size: in their JSON data tokens and in their TL data
    tokens. *)
Definition sizes_vary (cs : list counts) : Prop :=
  exists c1 c2, c1 ∈ cs /\ c2 ∈ cs
                /\ json_data_tokens c1 <> json_data_tokens c2
                /\ tl_data_tokens c1 <> tl_data_tokens c2.

(** What a successful match says of each atom: the atom took [n]
    characters, at least as many as its quantifier asks for, all of its
    class; the next atoms matched what follows. *)
Fixpoint matched (p : list re.atom) (s : str) (ns : list nat) : Prop :=
  match p, ns with
  | [], [] => True
  | a :: p', n :: ns' =>
      (re.least (re.rep a) <= n)%nat
      /\ (n <= length s)%nat
      /\ forallb (re.cls a) (take n s) = true
      /\ matched p' (drop n s) ns'
  | _, _ => False
  end.

(** The rows of the document that match the pattern of [parse_api_tokens],
    in document order, as (task ID, provider, input tokens). *)
Definition rows (text : str) : list (str * str * Z) :=
  (fun m => (re.group m 1, re.group m 2, decimal (re.group m 3)))
    <$> re.finditer ROW text.

(** The input tokens of the rows of one task and one provider. *)
Definition counts_for (task_id provider : str) (rs : list (str * str * Z))
  : list Z :=
  omap (fun r => if bool_decide (r.1.1 = task_id /\ r.1.2 = provider)
                 then Some r.2 else None) rs.

(** [tokens[task_id][provider]], when the mapping holds it. *)
Definition reported (tokens : gmap str (gmap str Z)) (task_id provider : str)
  : option Z :=
  inner ← tokens !! task_id; inner !! provider.

(** The marker line of validate_tokens.py, with the empty line after it,
    occurs in the text. *)
Definition has_marker (text : str) : Prop :=
  exists pre post, text = pre ++ (MARKER ++ [LF; LF]) ++ post.

(** Both prompt files of the task exist. *)
Definition measurable (prompts : gmap str str) (task_id : str) : Prop :=
  is_Some (prompts !! (lower task_id ++ lit "-tl.txt"))
  /\ is_Some (prompts !! (lower task_id ++ lit "-json.txt")).


(** The per-task differences, in percent, between the tokenizer's count of
    the TL prompt and the input tokens the API reported for OpenAI, over the
    tasks with a positive report. *)
Definition api_diffs (api_tokens : gmap str (gmap str Z)) (results : list row)
  : list Q :=
  omap (fun r =>
          match reported api_tokens (task_id (measured r)) (lit "openai") with
          | Some api_input =>
              if api_input >? 0
              then Some (inject_Z (tl_tokens (measured r) - api_input)
                         / inject_Z api_input * 100)%Q
              else None
          | None => None
          end) results.

(** The rows of the responses section that match the pattern of
    [load_from_results_dir], in document order, as (domain, provider,
    format, input tokens). *)
Definition response_rows (text : str) : list (str * str * str * Z) :=
  (fun m => (generate_charts._task_id_to_domain (re.group m 1),
             re.group m 2, re.group m 3, decimal (re.group m 4)))
    <$> re.finditer generate_charts.RESPONSE_ROW
          (generate_charts.responses_section text).

Definition domain_of (r : str * str * str * Z) : str := r.1.1.1.

(** The input tokens of the rows of one domain, provider and format. *)
Definition tokens_for (domain provider fmt : str)
    (rs : list (str * str * str * Z)) : list Z :=
  omap (fun r => if bool_decide (r.1.1.1 = domain /\ r.1.1.2 = provider
                                 /\ r.1.2 = fmt)
                 then Some r.2 else None) rs.

(** The sum of a list of counts, when there is one. *)
Definition sum_if_any (xs : list Z) : option Z :=
  match xs with
  | [] => None
  | _ => Some (foldr Z.add 0 xs)
  end.

(** [domain_tokens[domain][(provider, fmt)]], when the mapping holds it. *)
Definition input_tokens_of (tokens : gmap str (gmap (str * str) Z))
    (domain provider fmt : str) : option Z :=
  inner ← tokens !! domain; inner !! (provider, fmt).

(** A text of digits and dots that [float] reads: it has at most one dot
    and at least one digit. *)
Definition float_literal (s : str) : Prop :=
  (length (filter (fun c => c = DOT) s) <= 1)%nat
  /\ Exists (fun c => is_digit c = true) s.

(** The number a score text denotes (0 for a text that is no literal). *)
Definition score_value (s : str) : Q :=
  match float s with Ok q => q | Raise _ => 0%Q end.

(** [sum(xs) / len(xs)] for a list that is not empty. *)
Definition average (xs : list Q) : Q := (sum_of xs / inject_Z (len xs))%Q.

(** The rows of the analysis section that match the pattern of
    [load_from_results_dir], in document order, as (domain, provider,
    format, the texts of the four scores). *)
Definition score_rows (text : str) : list (str * str * str * list str) :=
  (fun m => (generate_charts._task_id_to_domain (re.group m 1),
             re.group m 2, re.group m 3, re.group m <$> [4; 5; 6; 7]%nat))
    <$> re.finditer generate_charts.ANALYSIS_ROW
          (generate_charts.analysis_section text).

(** A row with a score that [float] does not read. *)
Definition bad_scores (r : str * str * str * list str) : Prop :=
  Exists (fun s => ~ float_literal s) r.2.

(** The averages of the four scores of the rows of one domain, provider and
    format, in document order. *)
Definition averages_for (domain provider fmt : str)
    (rs : list (str * str * str * list str)) : list Q :=
  omap (fun r => if bool_decide (r.1.1.1 = domain /\ r.1.1.2 = provider
                                 /\ r.1.2 = fmt)
                 then Some (average (score_value <$> r.2)) else None) rs.

(** A list, when it is not empty. *)
Definition if_any {A} (xs : list A) : option (list A) :=
  match xs with
  | [] => None
  | _ => Some xs
  end.

(** [domain_scores[domain][(provider, fmt)]], when the mapping holds it. *)
Definition scores_of (scores : gmap str (gmap (str * str) (list Q)))
    (domain provider fmt : str) : option (list Q) :=
  inner ← scores !! domain; inner !! (provider, fmt).

(** Some domain stores a JSON count of 0 for Anthropic or for OpenAI. *)
Definition zero_json (domain_data : list (str * gmap (str * str) Z)) : Prop :=
  exists d provider,
    d ∈ domain_data /\ provider ∈ [lit "anthropic"; lit "openai"]
    /\ d.2 !! (provider, lit "json") = Some 0.

(** Some bar of [plot_token_savings] divides a count by a JSON count, each
    read with the default 1, that is at least [2^1024 - 2^970] times
    smaller in magnitude: the quotient is too large for a float. *)
Definition too_large (domain_data : list (str * gmap (str * str) Z)) : Prop :=
  exists d provider fmt,
    d ∈ domain_data
    /\ (provider, fmt) ∈ generate_charts.savings_groups
    /\ default 1 (d.2 !! (provider, lit "json")) <> 0
    /\ (2 ^ 1024 - 2 ^ 970) * Z.abs (default 1 (d.2 !! (provider, lit "json")))
       <= Z.abs (default 1 (d.2 !! (provider, fmt))).

(** What stops a bar: a stored JSON count of 0, or a quotient that is too
    large for a float. *)
Definition bar_fails (g : str * str) (e : exn)
    (d : str * gmap (str * str) Z) : Prop :=
  match e with
  | ZeroDivisionError => d.2 !! (g.1, lit "json") = Some 0
  | OverflowError =>
      default 1 (d.2 !! (g.1, lit "json")) <> 0
      /\ (2 ^ 1024 - 2 ^ 970) * Z.abs (default 1 (d.2 !! (g.1, lit "json")))
         <= Z.abs (default 1 (d.2 !! (g.1, g.2)))
  | _ => False
  end.

(** The smallest token count of a task over the three formats, and its sum
    over the tasks: what the data-only estimate of count_tokens.py takes to
    be the shared instruction overhead. *)
Definition least_tokens (results : gmap (str * str) Z) (task_id : str) : Z :=
  Z.min (Z.min (count_tokens.tokens_of results task_id (lit "tl"))
               (count_tokens.tokens_of results task_id (lit "json")))
        (count_tokens.tokens_of results task_id (lit "toon")).

Definition overhead (results : gmap (str * str) Z) (task_ids : list str) : Z :=
  foldr (fun t acc => least_tokens results t + acc) 0 task_ids.

(** *** Documents and measurements the examples use *)

(** A double-quoted field of a row. *)
Definition quoted (s : string) : str := DQUOTE :: lit s ++ [DQUOTE].

(** A results document that ends with its responses rows. *)
Definition doc_without_analysis : str :=
  lit "responses:" ++ [LF]
    ++ lit "(" ++ quoted "FIN-001" ++ lit ", " ++ quoted "openai" ++ lit ", "
    ++ quoted "tl" ++ lit ", " ++ quoted "gpt" ++ lit ", 12".

(** A results document whose JSON row of the Finance domain reports 0 input
    tokens. *)
Definition doc_zero_json : str :=
  lit "responses:" ++ [LF]
    ++ lit "(" ++ quoted "FIN-001" ++ lit ", " ++ quoted "anthropic" ++ lit ", "
    ++ quoted "tl" ++ lit ", " ++ quoted "m" ++ lit ", 5, 1)" ++ [LF]
    ++ lit "(" ++ quoted "FIN-001" ++ lit ", " ++ quoted "anthropic" ++ lit ", "
    ++ quoted "json" ++ lit ", " ++ quoted "m" ++ lit ", 0, 1)" ++ [LF]
    ++ lit "# Analysis" ++ [LF].

(** A results document with four rows, three of them of the same task and
    provider. *)
Definition doc_repeated : str :=
  lit "(FIN-001, openai, " ++ quoted "gpt-5" ++ lit ", 100, 20)" ++ [LF]
    ++ lit "(FIN-001, anthropic, " ++ quoted "claude" ++ lit ", 120, 30)" ++ [LF]
    ++ lit "(FIN-001, openai, " ++ quoted "gpt-5" ++ lit ", 777, 20)" ++ [LF]
    ++ lit "(FIN-001, openai, " ++ quoted "gpt-5" ++ lit ", 42, 7)" ++ [LF].

(** Two tasks of different sizes and the same savings, 50 percent ... *)
Definition same_savings : list counts :=
  [ Counts (lit "FIN-001") 10 20 8 1 2; Counts (lit "FIN-002") 20 40 8 2 4 ].

(** ... and two tasks of different sizes and different savings, 50 and 75
    percent. *)
Definition other_savings : list counts :=
  [ Counts (lit "FIN-001") 10 20 8 1 2; Counts (lit "FIN-002") 10 40 8 2 8 ].


(** ... and one whose JSON file of FIN-001 has no empty line after the
    marker. *)
Definition bad_prompts : gmap str str :=
  {[ lit "fin-001-tl.txt"
       := lit "Task ID: FIN-001" ++ [LF] ++ MARKER ++ [LF; LF] ++ lit "Sum: [1,2]";
     lit "fin-001-json.txt"
       := lit "Task ID: FIN-001" ++ [LF] ++ MARKER ++ [LF] ++ lit "Sum: {a:1,b:2}" ]}.

End notions.

Import notions.

(** * Properties *)

(** ** Slices within bounds *)

Section slice_facts.
Context {A : Type}.
Implicit Types (s : list A) (i j : Z).

Lemma adjust_index_in_range s i : 0 <= i <= len s -> adjust_index (len s) i = i.
Proof. unfold adjust_index. intros. destruct (Z.ltb_spec i 0); lia. Qed.

Lemma slice_to s j :
  0 <= j <= len s -> slice s None (Some j) = take (Z.to_nat j) s.
Proof.
  intros. unfold slice. simpl. rewrite adjust_index_in_range by done.
  rewrite drop_0. f_equal. lia.
Qed.

Lemma slice_from s i :
  0 <= i <= len s -> slice s (Some i) None = drop (Z.to_nat i) s.
Proof.
  intros. unfold slice. simpl. rewrite adjust_index_in_range by done.
  apply take_ge. rewrite length_drop. unfold len in *. lia.
Qed.

Lemma slice_between s i j :
  0 <= i <= len s -> 0 <= j <= len s ->
  slice s (Some i) (Some j) = take (Z.to_nat (j - i)) (drop (Z.to_nat i) s).
Proof.
  intros. unfold slice. simpl. by rewrite !adjust_index_in_range.
Qed.

(** A list is its first [p] items, its middle and its last [q] items. *)
Lemma take_mid_drop s (p q : nat) :
  (p + q <= length s)%nat ->
  take p s ++ take (length s - q - p) (drop p s) ++ drop (length s - q) s = s.
Proof.
  intros Hpq. transitivity (take p s ++ drop p s); [|apply take_drop].
  f_equal.
  transitivity (take (length s - q - p) (drop p s)
                  ++ drop (length s - q - p) (drop p s)); [|apply take_drop].
  f_equal. rewrite drop_drop. f_equal. lia.
Qed.

End slice_facts.

(** ** The common-affix splitter *)

Section splitter.
Import validate_tokens.
Implicit Types (x y A B : str).

Lemma common_run_lcp x y n : common_run x y n = n + Z.of_nat (lcp x y).
Proof.
  revert y n. induction x as [|a x IH]; intros [|b y] n; simpl; try lia.
  case_bool_decide; [rewrite IH|]; lia.
Qed.

Lemma lcp_le_l x y : (lcp x y <= length x)%nat.
Proof.
  revert y. induction x as [|a x IH]; intros [|b y]; simpl; try lia.
  case_bool_decide; [specialize (IH y)|]; lia.
Qed.

Lemma lcp_le_r x y : (lcp x y <= length y)%nat.
Proof.
  revert y. induction x as [|a x IH]; intros [|b y]; simpl; try lia.
  case_bool_decide; [specialize (IH y)|]; lia.
Qed.

Lemma lcp_take x y k : (k <= lcp x y)%nat -> take k x = take k y.
Proof.
  revert y k. induction x as [|a x IH]; intros [|b y] [|k]; simpl; try done; try lia.
  case_bool_decide; [|lia]. intros. subst. f_equal. apply IH. lia.
Qed.

Lemma lcp_diag x : lcp x x = length x.
Proof. induction x; simpl; [done|]. rewrite bool_decide_eq_true_2 by done. lia. Qed.

(** The loop stops at the first position where the prompts differ (or at
    the end of the shorter one). *)
Lemma lcp_stops x y a b :
  x !! lcp x y = Some a -> y !! lcp x y = Some b -> a <> b.
Proof.
  revert y. induction x as [|c x IH]; intros [|e y]; simpl; try done.
  case_bool_decide; simpl; [apply IH|congruence].
Qed.

Lemma prefix_len_lcp A B : prefix_len A B = Z.of_nat (lcp A B).
Proof. unfold prefix_len. rewrite common_run_lcp. lia. Qed.

Lemma scanned_suffix_len_lcp A B :
  scanned_suffix_len A B = Z.of_nat (lcp (reverse A) (reverse B)).
Proof. unfold scanned_suffix_len. rewrite common_run_lcp. lia. Qed.

Lemma prefix_len_bounds A B :
  0 <= prefix_len A B <= Z.min (len A) (len B).
Proof.
  rewrite prefix_len_lcp. unfold len.
  pose proof (lcp_le_l A B). pose proof (lcp_le_r A B). lia.
Qed.

Lemma suffix_len_bounds A B :
  0 <= suffix_len A B <= scanned_suffix_len A B
  /\ prefix_len A B + suffix_len A B <= Z.min (len A) (len B).
Proof.
  pose proof (prefix_len_bounds A B) as Hp.
  unfold suffix_len. rewrite scanned_suffix_len_lcp.
  pose proof (lcp_le_l (reverse A) (reverse B)) as Hl.
  pose proof (lcp_le_r (reverse A) (reverse B)) as Hr.
  rewrite !length_reverse in *. unfold len in *.
  destruct (Z.gtb_spec (prefix_len A B + Z.of_nat (lcp (reverse A) (reverse B)))
              (Z.min (Z.of_nat (length A)) (Z.of_nat (length B)))); lia.
Qed.

(** The prompts agree on their first [prefix_len] characters ... *)
Lemma common_prefix A B :
  take (Z.to_nat (prefix_len A B)) A = take (Z.to_nat (prefix_len A B)) B.
Proof. apply lcp_take. rewrite prefix_len_lcp. lia. Qed.

(** ... and on their last [suffix_len] characters. *)
Lemma common_suffix A B :
  drop (length A - Z.to_nat (suffix_len A B)) A
  = drop (length B - Z.to_nat (suffix_len A B)) B.
Proof.
  destruct (suffix_len_bounds A B) as [Hs _].
  rewrite scanned_suffix_len_lcp in Hs.
  apply (inj reverse). rewrite <- !take_reverse. apply lcp_take. lia.
Qed.

(** The three slices of a prompt, when the lengths are within bounds. *)
Lemma slices_within prompt (p q : Z) :
  0 <= p -> 0 <= q -> p + q <= len prompt ->
  slice prompt None (Some p) = take (Z.to_nat p) prompt
  /\ data_of prompt p q
     = take (length prompt - Z.to_nat q - Z.to_nat p) (drop (Z.to_nat p) prompt)
  /\ (if q >? 0 then slice prompt (Some (len prompt - q)) None else [])
     = drop (length prompt - Z.to_nat q) prompt.
Proof.
  intros Hp Hq Hpq. unfold data_of, len in *. split_and!.
  - apply slice_to. unfold len. lia.
  - destruct (Z.gtb_spec q 0).
    + rewrite slice_between by (unfold len; lia). do 2 f_equal. lia.
    + rewrite slice_from by (unfold len; lia). symmetry. apply take_ge.
      rewrite length_drop. lia.
  - destruct (Z.gtb_spec q 0).
    + rewrite slice_from by (unfold len; lia). f_equal. lia.
    + symmetry. apply drop_ge. lia.
Qed.

Lemma split_parts A B :
  let p := Z.to_nat (prefix_len A B) in
  let q := Z.to_nat (suffix_len A B) in
  (p + q <= length A)%nat /\ (p + q <= length B)%nat
  /\ instruction_prefix A B = take p A
  /\ instruction_suffix A B = drop (length A - q) A
  /\ tl_data A B = take (length A - q - p) (drop p A)
  /\ json_data A B = take (length B - q - p) (drop p B).
Proof.
  intros p q. pose proof (prefix_len_bounds A B) as Hp.
  destruct (suffix_len_bounds A B) as [Hs Hps]. unfold len in *.
  destruct (slices_within A (prefix_len A B) (suffix_len A B)) as (Ha1 & Ha2 & Ha3);
    [unfold len; lia..|].
  destruct (slices_within B (prefix_len A B) (suffix_len A B)) as (Hb1 & Hb2 & Hb3);
    [unfold len; lia..|].
  subst p q. split_and!; try done; lia.
Qed.

End splitter.

Section splitter_claims.
Import validate_tokens.
Implicit Types (A B : str).

(** C1: for all prompts [A] and [B], [split_instruction_and_data A B] returns
    [(prefix + suffix, dataA, dataB)], where [prefix] and [suffix] are the
    instruction prefix and suffix the function cuts from [A], such that
    [prefix + dataA + suffix = A] and [prefix + dataB + suffix = B]: the
    split is a lossless partition of both inputs. *)
Theorem split_lossless A B :
  exists prefix suffix dataA dataB,
    split_instruction_and_data A B = (prefix ++ suffix, dataA, dataB)
    /\ prefix = instruction_prefix A B
    /\ suffix = instruction_suffix A B
    /\ prefix ++ dataA ++ suffix = A
    /\ prefix ++ dataB ++ suffix = B.
Proof.
  exists (instruction_prefix A B), (instruction_suffix A B),
    (tl_data A B), (json_data A B).
  destruct (split_parts A B) as (HA & HB & Hp & Hs & Hta & Hjs).
  split_and!; try done.
  - rewrite Hp, Hs, Hta. by apply take_mid_drop.
  - rewrite Hp, Hs, Hjs, common_prefix, common_suffix. by apply take_mid_drop.
Qed.

(** C6: for all prompts [A] and [B] the split is a total function, the
    suffix length after the overlap guard is non-negative, and prefix length
    plus suffix length never exceeds [min(len(A), len(B))]; so the stop of
    each middle slice is not below its start, and the data slices have the
    non-negative lengths [len(A) - prefix_len - suffix_len] and
    [len(B) - prefix_len - suffix_len].  The degenerate inputs [("", "")]
    and [("x", "")] give [("", "", "")] and [("", "x", "")]. *)
Theorem split_slices_in_bounds A B :
  0 <= prefix_len A B
  /\ 0 <= suffix_len A B
  /\ prefix_len A B + suffix_len A B <= Z.min (len A) (len B)
  /\ prefix_len A B <= len A - suffix_len A B
  /\ prefix_len A B <= len B - suffix_len A B
  /\ len (tl_data A B) = len A - prefix_len A B - suffix_len A B
  /\ len (json_data A B) = len B - prefix_len A B - suffix_len A B
  /\ split_instruction_and_data [] [] = ([], [], [])
  /\ split_instruction_and_data (lit "x") [] = ([], lit "x", []).
Proof.
  pose proof (prefix_len_bounds A B) as Hp.
  destruct (suffix_len_bounds A B) as [Hs Hps].
  destruct (split_parts A B) as (HA & HB & _ & _ & Hta & Hjs).
  split_and!; try lia; try reflexivity.
  - rewrite Hta. unfold len. rewrite length_take, length_drop. lia.
  - rewrite Hjs. unfold len. rewrite length_take, length_drop. lia.
Qed.

Lemma suffix_len_diag A : suffix_len A A = 0.
Proof.
  unfold suffix_len. rewrite prefix_len_lcp, scanned_suffix_len_lcp, !lcp_diag.
  rewrite length_reverse. unfold len.
  destruct (Z.gtb_spec (Z.of_nat (length A) + Z.of_nat (length A))
              (Z.min (Z.of_nat (length A)) (Z.of_nat (length A)))); lia.
Qed.

(** C7: for every prompt [A], [split_instruction_and_data A A] yields the
    whole of [A] as shared text and empty data on both sides. *)
Theorem split_same A : split_instruction_and_data A A = (A, [], []).
Proof.
  destruct (split_parts A A) as (_ & _ & Hp & Hs & Hta & _).
  unfold split_instruction_and_data, json_data. fold (tl_data A A).
  rewrite Hp, Hs, Hta, suffix_len_diag, prefix_len_lcp, lcp_diag, Nat2Z.id.
  simpl. rewrite Nat.sub_0_r, take_ge, drop_all by done.
  rewrite Nat.sub_diag, take_0. by rewrite app_nil_r.
Qed.

(** X1: the first loop of the splitter finds the longest common prefix: the
    prompts agree on their first [prefix_len] characters, and where both
    have a character at index [prefix_len] the two characters differ. *)
Theorem prefix_len_longest A B :
  take (Z.to_nat (prefix_len A B)) A = take (Z.to_nat (prefix_len A B)) B
  /\ forall a b,
       A !! Z.to_nat (prefix_len A B) = Some a ->
       B !! Z.to_nat (prefix_len A B) = Some b ->
       a <> b.
Proof.
  split; [apply common_prefix|]. rewrite prefix_len_lcp, Nat2Z.id.
  apply lcp_stops.
Qed.

End splitter_claims.

(** ** Substring search *)

Section find_facts.
Implicit Types (s sub pre post : str).

Lemma startswith_prefix s sub : startswith s sub = true <-> sub `prefix_of` s.
Proof.
  revert s. induction sub as [|p sub IH]; intros [|c s]; simpl.
  - split; [intros; apply prefix_nil|done].
  - split; [intros; apply prefix_nil|done].
  - split; [done|]. intros H. by apply prefix_nil_not in H.
  - rewrite andb_true_iff, bool_decide_eq_true, IH. split.
    + intros [-> H]. by apply prefix_cons.
    + intros H. split; [symmetry; by eapply prefix_cons_inv_1|by eapply prefix_cons_inv_2].
Qed.

Lemma occurs_at_0 sub s : occurs_at sub s 0 <-> sub `prefix_of` s.
Proof.
  split.
  - intros (pre & post & -> & Hn). destruct pre; [|done]. by exists post.
  - intros [post ->]. by exists [], post.
Qed.

Lemma occurs_at_S sub c s n : occurs_at sub (c :: s) (S n) <-> occurs_at sub s n.
Proof.
  split.
  - intros (pre & post & Heq & Hn). destruct pre as [|c' pre]; [done|].
    simpl in *. exists pre, post. split; congruence.
  - intros (pre & post & -> & Hn). exists (c :: pre), post. simpl. by rewrite Hn.
Qed.

Lemma find_from_absent s sub i :
  find_from s sub i = -1 -> 0 <= i -> forall n, ~ occurs_at sub s n.
Proof.
  revert i. induction s as [|c s IH]; intros i; cbn [find_from].
  - destruct sub as [|p sub]; simpl; [intros; lia|]. intros _ _ n Hocc.
    destruct Hocc as (pre & post & Heq & _).
    symmetry in Heq. apply app_eq_nil in Heq as [-> Heq].
    by apply app_eq_nil in Heq as [? _].
  - destruct (startswith (c :: s) sub) eqn:Hs; [intros; lia|]. intros Hf Hi [|n].
    + rewrite occurs_at_0, <- startswith_prefix. congruence.
    + rewrite occurs_at_S. apply (IH (i + 1)); [done|lia].
Qed.

Lemma find_from_present s sub i :
  find_from s sub i <> -1 -> 0 <= i ->
  exists n, find_from s sub i = i + Z.of_nat n
            /\ occurs_at sub s n
            /\ forall m, (m < n)%nat -> ~ occurs_at sub s m.
Proof.
  revert i. induction s as [|c s IH]; intros i; cbn [find_from].
  - destruct (startswith [] sub) eqn:Hs; [|done]. intros _ _. exists 0%nat.
    split_and!; [lia| |lia]. by apply occurs_at_0, startswith_prefix.
  - destruct (startswith (c :: s) sub) eqn:Hs.
    + intros _ _. exists 0%nat. split_and!; [lia| |lia].
      by apply occurs_at_0, startswith_prefix.
    + intros Hf Hi. destruct (IH (i + 1)) as (n & Hn & Hocc & Hmin); [done|lia|].
      exists (S n). split_and!; [lia|by apply occurs_at_S|].
      intros [|m] Hm.
      * rewrite occurs_at_0, <- startswith_prefix. congruence.
      * rewrite occurs_at_S. apply Hmin. lia.
Qed.

(** [find] answers [-1] exactly when [sub] does not occur in [s]. *)
Lemma find_absent s sub :
  find s sub = -1 <-> forall pre post, s <> pre ++ sub ++ post.
Proof.
  split.
  - intros Hf pre post ->. eapply (find_from_absent _ _ 0 Hf); [done|].
    by exists pre, post.
  - intros Habs. destruct (decide (find s sub = -1)) as [|Hne]; [done|].
    destruct (find_from_present s sub 0 Hne) as (n & _ & (pre & post & -> & _) & _);
      [done|]. by destruct (Habs pre post).
Qed.

(** Otherwise [find] answers the index of the first occurrence. *)
Lemma find_first s sub :
  find s sub <> -1 ->
  exists n, find s sub = Z.of_nat n
            /\ occurs_at sub s n
            /\ forall m, (m < n)%nat -> ~ occurs_at sub s m.
Proof.
  intros Hne. destruct (find_from_present s sub 0 Hne) as (n & Hn & ?); [done|].
  exists n. split; [unfold find; lia|done].
Qed.

End find_facts.

(** ** Prompt extraction *)

Section extraction.

(** C2, as amended: for every file text in which the marker
    [=== PROMPT ===] does not occur, [extract_prompt] of count_tokens.py
    returns the whole text unchanged (it is a total function, it cannot
    raise), while [extract_prompt] of validate_tokens.py raises
    [ValueError]. *)
Theorem extract_prompt_without_marker (text : str) :
  (forall pre post, text <> pre ++ MARKER ++ post) ->
  count_tokens.extract_prompt text = text
  /\ validate_tokens.extract_prompt text = Raise ValueError.
Proof.
  intros Habs. split.
  - unfold count_tokens.extract_prompt. fold MARKER.
    apply find_absent in Habs. by rewrite Habs.
  - unfold validate_tokens.extract_prompt. fold MARKER.
    assert (find text (MARKER ++ [LF; LF]) = -1) as ->; [|done].
    apply find_absent. intros pre post ->.
    apply (Habs pre ([LF; LF] ++ post)). by rewrite <- !app_assoc.
Qed.

Lemma extract_prompt_without_marker_witness :
  count_tokens.extract_prompt (lit "Task ID: FIN-001") = lit "Task ID: FIN-001"
  /\ validate_tokens.extract_prompt (lit "Task ID: FIN-001") = Raise ValueError.
Proof.
  apply (extract_prompt_without_marker (lit "Task ID: FIN-001")).
  apply find_absent. vm_compute. reflexivity.
Defined.

(** The claim C2 as stated fails for validate_tokens.py: on a text without
    the marker its [extract_prompt] raises instead of returning the text. *)
Lemma validate_extract_prompt_raises :
  (forall pre post, lit "no marker here" <> pre ++ MARKER ++ post)
  /\ validate_tokens.extract_prompt (lit "no marker here") = Raise ValueError
  /\ validate_tokens.extract_prompt (lit "no marker here") <> Ok (lit "no marker here").
Proof.
  split; [|split; [vm_compute; reflexivity|vm_compute; discriminate]].
  apply find_absent. vm_compute. reflexivity.
Qed.

End extraction.

(** ** File names of the prompt dumps *)

Section filenames.
Import count_tokens.
Implicit Types (s suffix task_id : str).

Lemma startswith_app_long (a r p : str) :
  (length p <= length a)%nat -> startswith (a ++ r) p = startswith a p.
Proof.
  revert a. induction p as [|c p IH]; intros [|e a]; simpl; try done; try lia.
  intros. rewrite IH by lia. done.
Qed.

Lemma endswith_app_long (y l suffix : str) :
  (length suffix <= length l)%nat -> endswith (y ++ l) suffix = endswith l suffix.
Proof.
  intros. unfold endswith. rewrite reverse_app.
  apply startswith_app_long. by rewrite !length_reverse.
Qed.

Lemma endswith_app s suffix : endswith (s ++ suffix) suffix = true.
Proof.
  unfold endswith. rewrite reverse_app. apply startswith_prefix.
  by apply prefix_app_r.
Qed.

(** [s[:-k]] drops the last [k] characters. *)
Lemma slice_drop_last (y l : str) :
  l <> [] -> slice (y ++ l) None (Some (- len l)) = y.
Proof.
  intros Hl. unfold slice, adjust_index, len. simpl.
  assert (0 < length l)%nat by (destruct l; simpl; [done|lia]).
  rewrite length_app.
  destruct (Z.ltb_spec (- Z.of_nat (length l)) 0); [|lia].
  rewrite drop_0. apply take_app_length'. lia.
Qed.

Lemma removesuffix_app s suffix : removesuffix (s ++ suffix) suffix = s.
Proof.
  unfold removesuffix. rewrite endswith_app. simpl.
  case_bool_decide as Hs; simpl.
  - subst. apply app_nil_r.
  - by apply slice_drop_last.
Qed.

Lemma upper_lower_char c :
  is_task_id_char c = true -> upper_char (lower_char c) = c.
Proof.
  destruct c as [[] [] [] [] [] [] [] []]; vm_compute; intros; congruence.
Qed.

Lemma upper_lower task_id :
  forallb is_task_id_char task_id = true -> upper (lower task_id) = task_id.
Proof.
  induction task_id as [|c t IH]; [done|]. intros Hall.
  simpl in Hall. apply andb_true_iff in Hall as [Hc Ht].
  unfold upper, lower in *. rewrite !fmap_cons.
  by rewrite upper_lower_char, IH.
Qed.

Lemma parse_stem_own_suffix (y fmt : str) formats :
  parse_stem (y ++ lit "-" ++ fmt) (fmt :: formats) = (upper y, fmt).
Proof.
  simpl. rewrite endswith_app.
  rewrite slice_drop_last; [done|]. by destruct fmt.
Qed.

Lemma parse_stem_skip (stem fmt : str) formats :
  endswith stem (lit "-" ++ fmt) = false ->
  parse_stem stem (fmt :: formats) = parse_stem stem formats.
Proof. simpl. by intros ->. Qed.

(** A stem that ends with a longer or equally long other tag is passed
    over by the loop. *)
Ltac skip_format :=
  rewrite parse_stem_skip
    by (rewrite endswith_app_long by (vm_compute; lia); reflexivity).

(** C9: for every task ID made of upper-case ASCII letters, digits and
    hyphens, and every format [f] of [FORMATS] ([tl], [json], [toon]),
    [parse_filename (task_id.lower() + "-" + f + ".txt")] returns exactly
    [(task_id, f)]: the lower-case file names that validate_tokens.py builds
    key back to the upper-case task IDs. *)
Theorem parse_filename_round_trip task_id (f : str) :
  forallb is_task_id_char task_id = true ->
  f ∈ FORMATS ->
  parse_filename (lower task_id ++ lit "-" ++ f ++ lit ".txt") = (task_id, f).
Proof.
  intros Hid Hf. unfold parse_filename.
  replace (lower task_id ++ lit "-" ++ f ++ lit ".txt")
    with ((lower task_id ++ lit "-" ++ f) ++ lit ".txt")
    by (by rewrite <- !app_assoc).
  rewrite removesuffix_app. unfold FORMATS in *. cbn [fmap list_fmap] in *.
  rewrite <- (upper_lower task_id Hid) at 2.
  apply elem_of_cons in Hf as [->|Hf];
    [|apply elem_of_cons in Hf as [->|Hf];
      [|apply elem_of_cons in Hf as [->|Hf]; [|by apply elem_of_nil in Hf]]].
  - apply parse_stem_own_suffix.
  - skip_format. apply parse_stem_own_suffix.
  - skip_format. skip_format. apply parse_stem_own_suffix.
Qed.

Lemma parse_filename_round_trip_witness :
  parse_filename (lower (lit "FIN-001") ++ lit "-" ++ lit "json" ++ lit ".txt")
  = (lit "FIN-001", lit "json").
Proof.
  apply (parse_filename_round_trip (lit "FIN-001") (lit "json")).
  - reflexivity.
  - unfold FORMATS. simpl. apply list_elem_of_further, list_elem_of_here.
Defined.

End filenames.

(** ** Sections of the results document *)

Section sections.
Import generate_charts.

(** [s[i:-1]] stops one character before the end. *)
Lemma slice_to_minus_one (text : str) (n : nat) :
  slice text (Some (Z.of_nat n)) (Some (-1))
  = take (length text - 1 - n) (drop n text).
Proof.
  unfold slice, adjust_index, len. simpl.
  destruct (Z.ltb_spec (Z.of_nat n) 0); [lia|].
  destruct (decide (n <= length text)%nat).
  - f_equal; [lia|f_equal; lia].
  - rewrite !drop_ge by lia. by rewrite !take_nil.
Qed.

(** X2: with both markers in the document, the start marker first, the section
    runs from the first occurrence of its start marker up to the first
    occurrence of the start marker of the next section. *)
Lemma responses_section_between (text : str) (i j : nat) :
  find text (lit "responses:") = Z.of_nat i ->
  find text (lit "# Analysis") = Z.of_nat j ->
  (i <= j)%nat ->
  responses_section text = take (j - i) (drop i text)
  /\ occurs_at (lit "responses:") text i
  /\ occurs_at (lit "# Analysis") text j.
Proof.
  intros Hi Hj Hij.
  destruct (find_first text (lit "responses:")) as (i' & Hi' & Hocc_i & _); [lia|].
  destruct (find_first text (lit "# Analysis")) as (j' & Hj' & Hocc_j & _); [lia|].
  assert (i' = i) as -> by lia. assert (j' = j) as -> by lia.
  split; [|done].
  assert (j <= length text)%nat.
  { destruct Hocc_j as (pre & post & -> & <-). rewrite length_app. lia. }
  unfold responses_section. rewrite Hi, Hj.
  rewrite slice_between by (unfold len; lia). f_equal; [lia|f_equal; lia].
Qed.

Lemma responses_section_between_witness :
  responses_section (lit "x responses: (row) # Analysis ...")
  = take (19 - 2) (drop 2 (lit "x responses: (row) # Analysis ..."))
  /\ occurs_at (lit "responses:") (lit "x responses: (row) # Analysis ...") 2
  /\ occurs_at (lit "# Analysis") (lit "x responses: (row) # Analysis ...") 19.
Proof.
  apply (responses_section_between (lit "x responses: (row) # Analysis ...") 2 19);
    [vm_compute; reflexivity|vm_compute; reflexivity|lia].
Defined.

(** Without the next marker in the document, [find] answers [-1] and the
    slice stops one character before the end of the document. *)
Lemma responses_section_without_next (text : str) (i : nat) :
  find text (lit "responses:") = Z.of_nat i ->
  (forall pre post, text <> pre ++ lit "# Analysis" ++ post) ->
  responses_section text = take (length text - 1 - i) (drop i text).
Proof.
  intros Hi Habs. unfold responses_section.
  apply find_absent in Habs. rewrite Hi, Habs. apply slice_to_minus_one.
Qed.

(** C8, at a document without the marker of the next section: the section
    is not the rest of the document, it misses the last character, and the
    input tokens of the last row are read as 1 instead of 12. *)
Theorem responses_section_truncated :
  (forall pre post, doc_without_analysis <> pre ++ lit "# Analysis" ++ post)
  /\ find doc_without_analysis (lit "responses:") = 0
  /\ responses_section doc_without_analysis ++ lit "2" = doc_without_analysis
  /\ input_tokens_at (load_input_tokens doc_without_analysis)
       (lit "Finance") (lit "openai") (lit "tl") = Ok (Some 1).
Proof.
  split_and!.
  - apply find_absent. vm_compute. reflexivity.
  - vm_compute. reflexivity.
  - vm_compute. reflexivity.
  - vm_compute. reflexivity.
Qed.

End sections.

(** ** Percentages and their zero guards *)

Section percentages.

Lemma truediv_nonzero (a b : Z) :
  b <> 0 -> truediv (inject_Z a) (inject_Z b) = Ok (inject_Z a / inject_Z b)%Q.
Proof.
  intros Hb. unfold truediv.
  destruct (Qeq_bool (inject_Z b) 0) eqn:Heq; [|done].
  apply Qeq_bool_iff in Heq. unfold Qeq in Heq. simpl in Heq. lia.
Qed.

(** The percentage columns of count_tokens.py never raise: a zero
    denominator gives 0, any other one [(a - b) / b * 100]. *)
Lemma pct_guarded (a b : Z) :
  exists q, count_tokens.pct a b = Ok q
            /\ (b = 0 -> q = 0%Q)
            /\ (b <> 0 -> q = (inject_Z (a - b) / inject_Z b * 100)%Q).
Proof.
  unfold count_tokens.pct. destruct (Z.eqb_spec b 0) as [->|Hb]; simpl.
  - exists 0%Q. by split_and!.
  - rewrite truediv_nonzero by done. eexists. by split_and!.
Qed.

Lemma task_pcts_never_raises (results : gmap (str * str) Z) (task_id : str) :
  exists r, count_tokens.task_pcts results task_id = Ok r.
Proof.
  unfold count_tokens.task_pcts.
  destruct (pct_guarded (default 0 (results !! (task_id, lit "tl")))
              (default 0 (results !! (task_id, lit "json")))) as (q1 & -> & _).
  destruct (pct_guarded (default 0 (results !! (task_id, lit "toon")))
              (default 0 (results !! (task_id, lit "json")))) as (q2 & -> & _).
  destruct (pct_guarded (default 0 (results !! (task_id, lit "tl")))
              (default 0 (results !! (task_id, lit "toon")))) as (q3 & -> & _).
  by eexists.
Qed.

(** The savings of validate_tokens.py never raise either. *)
Lemma savings_guarded (a b : Z) :
  validate_tokens.savings a b
  = Ok (if b >? 0 then ((1 - inject_Z a / inject_Z b) * 100)%Q else 0%Q).
Proof.
  unfold validate_tokens.savings. destruct (Z.gtb_spec b 0); [|done].
  by rewrite truediv_nonzero by lia.
Qed.

Lemma diff_pct_guarded (total_tl api_total : Z) :
  validate_tokens.diff_pct total_tl api_total
  = Ok (if api_total >? 0
        then (inject_Z (Z.abs (total_tl - api_total)) / inject_Z api_total * 100)%Q
        else 0%Q).
Proof.
  unfold validate_tokens.diff_pct. destruct (Z.gtb_spec api_total 0); [|done].
  by rewrite truediv_nonzero by lia.
Qed.

(** X3: the percentage columns of count_tokens.py are guarded: [pct] never
    raises, a zero denominator gives 0 and any other one
    [(a - b) / b * 100]; so the three percentages of a task's line never
    raise either. *)
Theorem count_tokens_pct_guarded (a b : Z) :
  (exists q, count_tokens.pct a b = Ok q
             /\ (b = 0 -> q = 0%Q)
             /\ (b <> 0 -> q = (inject_Z (a - b) / inject_Z b * 100)%Q))
  /\ count_tokens.pct a 0 = Ok 0%Q
  /\ forall results task_id,
       exists r, count_tokens.task_pcts results task_id = Ok r.
Proof.
  split_and!; [apply pct_guarded|done|apply task_pcts_never_raises].
Qed.

(** X4: the ratios of validate_tokens.py are guarded: the data savings and
    the aggregate difference never raise, and are 0 when the denominator is
    not positive. *)
Theorem validate_tokens_ratios_guarded (a b : Z) :
  validate_tokens.savings a b
  = Ok (if b >? 0 then ((1 - inject_Z a / inject_Z b) * 100)%Q else 0%Q)
  /\ validate_tokens.diff_pct a b
     = Ok (if b >? 0 then (inject_Z (Z.abs (a - b)) / inject_Z b * 100)%Q
           else 0%Q)
  /\ validate_tokens.savings a 0 = Ok 0%Q
  /\ validate_tokens.diff_pct a 0 = Ok 0%Q.
Proof.
  split_and!; [apply savings_guarded|apply diff_pct_guarded|done|done].
Qed.

(** The bars of generate_charts.py are not guarded: a stored JSON count of 0
    raises. *)
Lemma savings_pct_zero_json (input_tokens : gmap (str * str) Z) (provider fmt : str) :
  input_tokens !! (provider, lit "json") = Some 0 ->
  generate_charts.savings_pct input_tokens provider fmt = Raise ZeroDivisionError.
Proof. intros H. unfold generate_charts.savings_pct. by rewrite H. Qed.

(** C3, at a document that [load_from_results_dir] parses into a JSON count
    of 0: [plot_token_savings] raises [ZeroDivisionError] instead of
    yielding 0. *)
Theorem plot_token_savings_zero_division :
  input_tokens_at (generate_charts.load_input_tokens doc_zero_json)
    (lit "Finance") (lit "anthropic") (lit "json") = Ok (Some 0)
  /\ input_tokens_at (generate_charts.load_input_tokens doc_zero_json)
       (lit "Finance") (lit "anthropic") (lit "tl") = Ok (Some 5)
  /\ (domain_data ← generate_charts.load_input_tokens doc_zero_json;
       generate_charts.plot_token_savings domain_data)
     = Raise ZeroDivisionError.
Proof. split_and!; vm_compute; reflexivity. Qed.

End percentages.

(** ** The validation verdict *)

Section verdicts.
Import validate_tokens.

(** The [if]/[elif] chain on a difference [d] in percent. *)
Lemma result_line_thresholds (d : Q) :
  (result_line d = PASS <-> (d <= 1)%Q)
  /\ (result_line d = MARGINAL <-> (1 < d /\ d <= 5)%Q)
  /\ (result_line d = FAIL <-> (5 < d)%Q).
Proof.
  unfold result_line.
  destruct (Qle_bool d 1) eqn:H1; [|destruct (Qle_bool d 5) eqn:H5].
  - apply Qle_bool_iff in H1. split_and!.
    + by split.
    + split; [done|]. intros [Hlt _]. by apply Qlt_not_le in Hlt.
    + split; [done|]. intros Hlt. apply Qlt_not_le in Hlt. destruct Hlt.
      eapply Qle_trans; [exact H1|]. done.
  - apply Qle_bool_iff in H5.
    assert (1 < d)%Q as Hgt.
    { apply Qnot_le_lt. intros Hle. apply Qle_bool_iff in Hle. congruence. }
    split_and!.
    + split; [done|]. intros Hle. by apply Qlt_not_le in Hgt.
    + by split.
    + split; [done|]. intros Hlt. by apply Qlt_not_le in Hlt.
  - assert (5 < d)%Q as Hgt.
    { apply Qnot_le_lt. intros Hle. apply Qle_bool_iff in Hle. congruence. }
    split_and!.
    + split; [done|]. intros Hle. apply Qle_bool_iff in Hle. congruence.
    + split; [done|]. intros [_ Hle]. apply Qle_bool_iff in Hle. congruence.
    + by split.
Qed.

(** The difference the script computes from two totals is their absolute
    relative difference. *)
Lemma diff_pct_relative (total_tl api_total : Z) :
  0 < api_total ->
  exists d, diff_pct total_tl api_total = Ok d
            /\ (d == relative_difference total_tl api_total)%Q.
Proof.
  intros Hpos. rewrite diff_pct_guarded.
  destruct (Z.gtb_spec api_total 0) as [_|?]; [|lia].
  eexists. split; [done|]. unfold relative_difference.
  assert (inject_Z (Z.abs (total_tl - api_total))
          == Qabs (inject_Z total_tl - inject_Z api_total))%Q as ->; [|reflexivity].
  assert (inject_Z total_tl - inject_Z api_total == inject_Z (total_tl - api_total))%Q
    as -> by (unfold Z.sub; by rewrite inject_Z_plus, inject_Z_opp).
  reflexivity.
Qed.

(** C5: for an absolute relative difference [d] in percent, the reported
    verdict is PASS exactly when [d <= 1], MARGINAL exactly when
    [1 < d <= 5] and FAIL exactly when [5 < d]; a difference of exactly 1.0
    reports PASS, 3.0 MARGINAL and 6.0 FAIL, as do totals of 101, 103 and
    106 measured against 100 reported.  For every measured total and every
    reported total that is positive, the verdict of the validation block is
    the one of their absolute relative difference. *)
Theorem verdict_thresholds (d : Q) :
  (result_line d = PASS <-> (d <= 1)%Q)
  /\ (result_line d = MARGINAL <-> (1 < d /\ d <= 5)%Q)
  /\ (result_line d = FAIL <-> (5 < d)%Q)
  /\ result_line 1 = PASS
  /\ result_line 3 = MARGINAL
  /\ result_line 6 = FAIL
  /\ validation {[ lit "FIN-001" := {[ lit "openai" := 100 ]} ]} 101 = Ok (Some PASS)
  /\ validation {[ lit "FIN-001" := {[ lit "openai" := 100 ]} ]} 103 = Ok (Some MARGINAL)
  /\ validation {[ lit "FIN-001" := {[ lit "openai" := 100 ]} ]} 106 = Ok (Some FAIL)
  /\ (forall (api_tokens : gmap str (gmap str Z)) (total_tl : Z),
        api_tokens <> ∅ -> 0 < api_total api_tokens ->
        (validation api_tokens total_tl = Ok (Some PASS)
         <-> (relative_difference total_tl (api_total api_tokens) <= 1)%Q)
        /\ (validation api_tokens total_tl = Ok (Some MARGINAL)
            <-> (1 < relative_difference total_tl (api_total api_tokens)
                 /\ relative_difference total_tl (api_total api_tokens) <= 5)%Q)
        /\ (validation api_tokens total_tl = Ok (Some FAIL)
            <-> (5 < relative_difference total_tl (api_total api_tokens))%Q)).
Proof.
  destruct (result_line_thresholds d) as (Hpass & Hmarginal & Hfail).
  split_and!; [done..| | | | | | |].
  1-6: vm_compute; reflexivity.
  intros api_tokens total_tl Hne Hpos. unfold validation.
  rewrite bool_decide_eq_false_2 by done.
  destruct (diff_pct_relative total_tl (api_total api_tokens) Hpos) as (r & -> & Hr).
  cbn [mbind result_bind]. rewrite <- Hr.
  destruct (result_line_thresholds r) as (Hp & Hm & Hf).
  rewrite <- Hp, <- Hm, <- Hf.
  split_and!; (split; [by intros [= ->]|by intros ->]).
Qed.

Lemma verdict_thresholds_witness :
  validation {[ lit "FIN-001" := {[ lit "openai" := 200 ]} ]} 203
  = Ok (Some MARGINAL).
Proof.
  destruct (verdict_thresholds 0) as (_ & _ & _ & _ & _ & _ & _ & _ & _ & Hvalidation).
  apply (Hvalidation {[ lit "FIN-001" := {[ lit "openai" := 200 ]} ]} 203).
  - apply map_non_empty_singleton.
  - vm_compute. reflexivity.
  - split; vm_compute; [reflexivity|discriminate].
Defined.

End verdicts.

(** ** Weighted total and median of the data savings *)

Section aggregation.
Import validate_tokens.
Implicit Types (cs : list counts) (xs l : list Q) (m : Q).

#[local] Instance Qle_transitive : Transitive Qle := Qle_trans.
#[local] Instance Qle_total : Total Qle.
Proof. intros x y. destruct (Qlt_le_dec x y); [left; by apply Qlt_le_weak|by right]. Qed.

Lemma sorted_strongly xs : StronglySorted Qle (sorted xs).
Proof. apply StronglySorted_merge_sort; apply _. Qed.

Lemma sorted_perm xs : sorted xs ≡ₚ xs.
Proof. apply merge_sort_Permutation. Qed.

Lemma task_step_ok st c :
  task_step st c
  = Ok (Totals (total_tl_data_tokens st + tl_data_tokens c)
               (total_json_data_tokens st + json_data_tokens c)
               (total_instruction_tokens st + instruction_tokens c)
               (results st ++ [Row c (per_task_pct c)])).
Proof. unfold task_step. by rewrite savings_guarded. Qed.

(** The loop adds up the token counts and appends one row per task. *)
Lemma for_each_task_step cs st :
  for_each task_step cs st
  = Ok (Totals (total_tl_data_tokens st + total_of tl_data_tokens cs)
               (total_json_data_tokens st + total_of json_data_tokens cs)
               (total_instruction_tokens st + total_of instruction_tokens cs)
               (results st ++ ((fun c => Row c (per_task_pct c)) <$> cs))).
Proof.
  revert st. induction cs as [|c cs IH]; intros [a b i rs].
  - simpl. by rewrite !Z.add_0_r, app_nil_r.
  - cbn [for_each]. rewrite task_step_ok.
    cbn [mbind result_bind]. rewrite IH. simpl.
    rewrite <- app_assoc. simpl. do 2 f_equal; lia.
Qed.

Lemma run_tasks_totals cs :
  run_tasks cs
  = Ok (Totals (total_of tl_data_tokens cs) (total_of json_data_tokens cs)
               (total_of instruction_tokens cs)
               ((fun c => Row c (per_task_pct c)) <$> cs)).
Proof. unfold run_tasks. by rewrite for_each_task_step. Qed.

Lemma getitem_in_range {A} (s : list A) (i : nat) x :
  s !! i = Some x -> getitem s (Z.of_nat i) = Ok x.
Proof.
  intros H. unfold getitem. cbv zeta.
  assert ((Z.of_nat i <? 0) = false) as Hi by (apply Z.ltb_ge; lia).
  rewrite !Hi. by rewrite Nat2Z.id, H.
Qed.

(** In a sorted list, the items up to an index are below the item at the
    index, and the items from the index on are above it. *)
Lemma sorted_around l (i : nat) a :
  StronglySorted Qle l -> l !! i = Some a ->
  Forall (fun x => (x <= a)%Q) (take (S i) l)
  /\ Forall (fun x => (a <= x)%Q) (drop i l).
Proof.
  intros Hs Hi. rewrite <- (take_drop_middle l i a Hi) in Hs.
  apply StronglySorted_app in Hs as (Hle & _ & Hs2).
  apply StronglySorted_cons in Hs2 as [Hge _]. split.
  - rewrite (take_S_r l i a Hi). apply Forall_app. split.
    + apply Forall_forall. intros x Hx. apply Hle; [done|apply list_elem_of_here].
    + repeat constructor. apply Qle_refl.
  - rewrite (drop_S l a i Hi). constructor; [apply Qle_refl|done].
Qed.

Lemma filter_take_ge (P : Q -> Prop) `{!forall x, Decision (P x)} l (k : nat) :
  Forall P (take k l) -> (k <= length l)%nat -> (k <= length (filter P l))%nat.
Proof.
  intros HP Hk. rewrite <- (take_drop k l) at 1. rewrite filter_app, length_app.
  assert (filter P (take k l) = take k l) as ->.
  { clear Hk. induction (take k l) as [|x t IH]; [done|].
    apply Forall_cons in HP as [Hx Ht]. rewrite filter_cons_True by done.
    by rewrite IH. }
  rewrite length_take. lia.
Qed.

Lemma filter_drop_ge (P : Q -> Prop) `{!forall x, Decision (P x)} l (k : nat) :
  Forall P (drop k l) -> (length l - k <= length (filter P l))%nat.
Proof.
  intros HP. rewrite <- (take_drop k l) at 2. rewrite filter_app, length_app.
  assert (filter P (drop k l) = drop k l) as ->.
  { induction (drop k l) as [|x t IH]; [done|].
    apply Forall_cons in HP as [Hx Ht]. rewrite filter_cons_True by done.
    by rewrite IH. }
  rewrite length_drop. lia.
Qed.

Lemma is_median_perm m l xs : l ≡ₚ xs -> is_median m l -> is_median m xs.
Proof. intros Hp. unfold is_median. by rewrite Hp. Qed.

Lemma Qmid_between (a b : Q) : (a <= b)%Q -> (a <= (a + b) / 2 /\ (a + b) / 2 <= b)%Q.
Proof.
  intros H. split.
  - apply Qle_shift_div_l; [done|]. lra.
  - apply Qle_shift_div_r; [done|]. lra.
Qed.

(** The middle item of a sorted list of odd length is a median. *)
Lemma middle_is_median l (k : nat) a :
  StronglySorted Qle l -> length l = (2 * k + 1)%nat -> l !! k = Some a ->
  is_median a l.
Proof.
  intros Hs Hn Hk. destruct (sorted_around l k a Hs Hk) as [Hle Hge]. split.
  - pose proof (filter_take_ge _ l (S k) Hle). lia.
  - pose proof (filter_drop_ge _ l k Hge). lia.
Qed.

(** So is the mean of the two middle items of one of even length. *)
Lemma middle_mean_is_median l (k : nat) a b :
  StronglySorted Qle l -> length l = (2 * S k)%nat ->
  l !! k = Some a -> l !! S k = Some b ->
  is_median ((a + b) / 2)%Q l.
Proof.
  intros Hs Hn Ha Hb.
  destruct (sorted_around l k a Hs Ha) as [Hle Hab].
  destruct (sorted_around l (S k) b Hs Hb) as [_ Hge].
  assert (a <= b)%Q as Hle_ab.
  { apply (Forall_lookup_1 _ _ 1%nat b) in Hab; [done|].
    rewrite lookup_drop. by rewrite Nat.add_1_r. }
  destruct (Qmid_between a b Hle_ab) as [Hlo Hhi]. split.
  - assert (Forall (fun x => (x <= (a + b) / 2)%Q) (take (S k) l)) as HF.
    { eapply Forall_impl; [exact Hle|]. intros x Hx. simpl in *.
      by apply (Qle_trans _ a). }
    pose proof (filter_take_ge _ l (S k) HF). lia.
  - assert (Forall (fun x => ((a + b) / 2 <= x)%Q) (drop (S k) l)) as HF.
    { eapply Forall_impl; [exact Hge|]. intros x Hx. simpl in *.
      by apply (Qle_trans _ b). }
    pose proof (filter_drop_ge _ l (S k) HF). lia.
Qed.

(** The median the script prints is a median of the per-task percentages,
    as soon as there is one task. *)
Lemma median_savings_is_median (st : totals) :
  results st <> [] ->
  exists m, median_savings st = Ok m
            /\ is_median m (data_savings_pct <$> results st).
Proof.
  intros Hne. unfold median_savings.
  set (xs := data_savings_pct <$> results st).
  assert (xs <> []) as Hxs by (subst xs; by destruct (results st)).
  pose proof (sorted_strongly xs) as Hs. pose proof (sorted_perm xs) as Hp.
  set (l := sorted xs) in *.
  assert (length l = length xs) as Hlen by (by rewrite Hp).
  assert (0 < length l)%nat as Hpos by (rewrite Hlen; destruct xs; simpl; [done|lia]).
  unfold len. set (n := length l) in *.
  pose proof (Z.div_mod (Z.of_nat n) 2 ltac:(lia)) as Hdm.
  pose proof (Z.mod_pos_bound (Z.of_nat n) 2 ltac:(lia)) as Hmod.
  destruct (Z.eqb_spec (Z.of_nat n mod 2) 0) as [Hev|Hodd].
  - rewrite Hev in Hdm. set (q := Z.of_nat n / 2) in *.
    assert (exists k : nat, q = Z.of_nat (S k)) as [k Hk].
    { exists (Z.to_nat (q - 1)). lia. }
    destruct (lookup_lt_is_Some_2 l k) as [a Ha]; [lia|].
    destruct (lookup_lt_is_Some_2 l (S k)) as [b Hb]; [lia|].
    rewrite Hk. replace (Z.of_nat (S k) - 1) with (Z.of_nat k) by lia.
    rewrite (getitem_in_range l k a Ha), (getitem_in_range l (S k) b Hb).
    cbn [mbind result_bind].
    eexists. split; [done|]. apply (is_median_perm _ l); [done|].
    apply (middle_mean_is_median l k); [done|lia|done|done].
  - set (q := Z.of_nat n / 2) in *.
    assert (exists k : nat, q = Z.of_nat k) as [k Hk].
    { exists (Z.to_nat q). lia. }
    destruct (lookup_lt_is_Some_2 l k) as [a Ha]; [lia|].
    rewrite Hk, (getitem_in_range l k a Ha).
    eexists. split; [done|]. apply (is_median_perm _ l); [done|].
    apply (middle_is_median l k); [done|lia|done].
Qed.

Lemma sorted_ascending l : StronglySorted Qle l -> ascending l.
Proof.
  intros Hs i j a b Hij Hi Hj. destruct (sorted_around l i a Hs Hi) as [_ Hge].
  apply (Forall_lookup_1 _ _ (j - i)%nat b) in Hge; [done|].
  rewrite lookup_drop. by replace (i + (j - i))%nat with j by lia.
Qed.

(** The median the script prints is the median of the per-task
    percentages, as soon as there is one task. *)
Lemma median_savings_the_median (st : totals) :
  results st <> [] ->
  exists m, median_savings st = Ok m
            /\ the_median m (data_savings_pct <$> results st).
Proof.
  intros Hne. unfold median_savings, the_median.
  set (xs := data_savings_pct <$> results st).
  assert (xs <> []) as Hxs by (subst xs; by destruct (results st)).
  pose proof (sorted_ascending _ (sorted_strongly xs)) as Hs.
  pose proof (sorted_perm xs) as Hp.
  set (l := sorted xs) in *.
  assert (length l = length xs) as Hlen by (by rewrite Hp).
  assert (0 < length l)%nat as Hpos by (rewrite Hlen; destruct xs; simpl; [done|lia]).
  unfold len. set (n := length l) in *.
  pose proof (Z.div_mod (Z.of_nat n) 2 ltac:(lia)) as Hdm.
  pose proof (Z.mod_pos_bound (Z.of_nat n) 2 ltac:(lia)) as Hmod.
  destruct (Z.eqb_spec (Z.of_nat n mod 2) 0) as [Hev|Hodd].
  - rewrite Hev in Hdm. set (q := Z.of_nat n / 2) in *.
    assert (exists k : nat, q = Z.of_nat (S k)) as [k Hk].
    { exists (Z.to_nat (q - 1)). lia. }
    destruct (lookup_lt_is_Some_2 l k) as [a Ha]; [lia|].
    destruct (lookup_lt_is_Some_2 l (S k)) as [b Hb]; [lia|].
    rewrite Hk. replace (Z.of_nat (S k) - 1) with (Z.of_nat k) by lia.
    rewrite (getitem_in_range l k a Ha), (getitem_in_range l (S k) b Hb).
    cbn [mbind result_bind].
    eexists. split; [done|]. exists l. split_and!; [done..|].
    right. exists k, a, b. split_and!; [lia|done|done|reflexivity].
  - set (q := Z.of_nat n / 2) in *.
    assert (exists k : nat, q = Z.of_nat k) as [k Hk].
    { exists (Z.to_nat q). lia. }
    destruct (lookup_lt_is_Some_2 l k) as [a Ha]; [lia|].
    rewrite Hk, (getitem_in_range l k a Ha).
    eexists. split; [done|]. exists l. split_and!; [done..|].
    left. exists k, a. split_and!; [lia|done|reflexivity].
Qed.

Lemma same_savings_vary : sizes_vary same_savings.
Proof.
  exists (Counts (lit "FIN-001") 10 20 8 1 2), (Counts (lit "FIN-002") 20 40 8 2 4).
  split_and!; [apply list_elem_of_here|apply list_elem_of_further, list_elem_of_here|done|done].
Qed.

Lemma other_savings_vary : sizes_vary other_savings.
Proof.
  exists (Counts (lit "FIN-001") 10 20 8 1 2), (Counts (lit "FIN-002") 10 40 8 2 8).
  split_and!; [apply list_elem_of_here|apply list_elem_of_further, list_elem_of_here|done|done].
Qed.

(** C4, as amended: the weighted total savings is computed from the summed
    TL data tokens and the summed JSON data tokens of all tasks, as
    [(1 - sum(tl_data_tokens) / sum(json_data_tokens)) * 100] (0 when the
    JSON sum is not positive); with at least one task, the median savings
    is the median of the per-task percentages, the middle one in ascending
    order or the mean of the two middle ones; and the two values can differ
    when the sizes of the tasks vary: data tokens (1, 2) and (2, 8) give 70
    percent weighted and 62.5 percent median. *)
Theorem savings_summary :
  (forall cs, cs <> [] ->
     exists weighted median,
       summary cs = Ok (weighted, median)
       /\ weighted
          = (if total_of json_data_tokens cs >? 0
             then ((1 - inject_Z (total_of tl_data_tokens cs)
                        / inject_Z (total_of json_data_tokens cs)) * 100)%Q
             else 0%Q)
       /\ the_median median (per_task_pct <$> cs)
       /\ is_median median (per_task_pct <$> cs))
  /\ (sizes_vary other_savings
      /\ exists weighted median,
           summary other_savings = Ok (weighted, median)
           /\ (weighted == 70)%Q
           /\ (median == 625 # 10)%Q
           /\ ~ (weighted == median)%Q).
Proof.
  split.
  - intros cs Hcs. unfold summary. rewrite run_tasks_totals.
    cbn [mbind result_bind]. unfold total_data_savings. rewrite savings_guarded.
    cbn [mbind result_bind total_tl_data_tokens total_json_data_tokens].
    set (st := Totals (total_of tl_data_tokens cs) (total_of json_data_tokens cs)
                 (total_of instruction_tokens cs)
                 ((fun c => Row c (per_task_pct c)) <$> cs)).
    assert (results st <> []) as Hne by (subst st; simpl; by destruct cs).
    assert (data_savings_pct <$> results st = per_task_pct <$> cs) as Hpcts.
    { subst st. simpl. rewrite <- list_fmap_compose. by apply list_fmap_ext. }
    destruct (median_savings_the_median st Hne) as (m & Hm & Hthe).
    destruct (median_savings_is_median st Hne) as (m' & Hm' & Hmed).
    rewrite Hm in Hm'. injection Hm' as <-.
    rewrite Hm. cbn [mbind result_bind]. rewrite Hpcts in Hthe, Hmed.
    eexists _, m. by split_and!.
  - split; [apply other_savings_vary|]. do 2 eexists.
    split_and!; [vm_compute; reflexivity|vm_compute; reflexivity..|].
    vm_compute. discriminate.
Qed.

Lemma savings_summary_witness :
  exists weighted median,
    summary other_savings = Ok (weighted, median)
    /\ weighted
       = (if total_of json_data_tokens other_savings >? 0
          then ((1 - inject_Z (total_of tl_data_tokens other_savings)
                     / inject_Z (total_of json_data_tokens other_savings)) * 100)%Q
          else 0%Q)
    /\ the_median median (per_task_pct <$> other_savings)
    /\ is_median median (per_task_pct <$> other_savings).
Proof. apply (proj1 savings_summary other_savings). discriminate. Defined.

(** The claim C4 as stated fails: the sizes of these two tasks vary, and the
    weighted total equals the median, 50 percent. *)
Lemma savings_equal_despite_sizes :
  sizes_vary same_savings
  /\ exists weighted median,
       summary same_savings = Ok (weighted, median)
       /\ (weighted == median)%Q
       /\ (weighted == 50)%Q.
Proof.
  split; [apply same_savings_vary|]. do 2 eexists.
  split_and!; [vm_compute; reflexivity|vm_compute; reflexivity..].
Qed.

(** X5: when no task has both of its prompt files, [results] is empty and
    the median computation indexes an empty list: [main] raises
    [IndexError]. *)
Theorem summary_without_tasks : summary [] = Raise IndexError.
Proof. vm_compute. reflexivity. Qed.

End aggregation.

(** ** The backtracking matcher *)

Section matcher.
Implicit Types (p : list re.atom) (s : str) (ns : list nat).

Lemma backtrack_spec {A} (k : nat -> option A) (lo n m : nat) r :
  re.backtrack k lo n = Some (m, r) -> (lo <= m <= n)%nat /\ k m = Some r.
Proof.
  induction n as [|n IH]; simpl.
  - destruct (Nat.ltb_spec 0 lo); [done|]. destruct (k 0%nat) eqn:Hk; [|done].
    intros [= <- <-]. split; [lia|done].
  - destruct (Nat.ltb_spec (S n) lo); [done|]. destruct (k (S n)) eqn:Hk.
    + intros [= <- <-]. split; [lia|done].
    + intros H'. apply IH in H' as [? ?]. split; [lia|done].
Qed.

Lemma run_take (cls : ascii -> bool) s (m : nat) :
  (m <= re.run cls s)%nat ->
  forallb cls (take m s) = true /\ (m <= length s)%nat.
Proof.
  revert m. induction s as [|c s IH]; intros [|m]; simpl.
  - done.
  - lia.
  - intros _. split; [done|lia].
  - destruct (cls c) eqn:Hc; [|lia]. intros Hm.
    destruct (IH m) as [? ?]; [lia|]. split; [done|lia].
Qed.

Lemma most_le_run q (n : nat) : (re.most q n <= n)%nat.
Proof. destruct q; unfold re.most; lia. Qed.

Lemma match_here_matched p s ns : re.match_here p s = Some ns -> matched p s ns.
Proof.
  revert s ns. induction p as [|a p IH]; intros s ns; simpl.
  - by intros [= <-].
  - destruct (re.backtrack _ _ _) as [[n ns']|] eqn:Hb; [|done].
    intros [= <-]. apply backtrack_spec in Hb as [[Hlo Hhi] Hk].
    pose proof (most_le_run (re.rep a) (re.run (re.cls a) s)).
    destruct (run_take (re.cls a) s n) as [? ?]; [lia|].
    split_and!; [done..|]. by apply IH.
Qed.

(** The characters an atom took, by its index in the pattern. *)
Lemma matched_atom p s ns (i : nat) a :
  matched p s ns -> p !! i = Some a ->
  exists n, ns !! i = Some n
            /\ (re.least (re.rep a) <= n)%nat
            /\ length (take n (drop (sum_list (take i ns)) s)) = n
            /\ forallb (re.cls a) (take n (drop (sum_list (take i ns)) s)) = true.
Proof.
  revert s ns i. induction p as [|b p IH]; intros s [|n ns] i; simpl; try done.
  intros (Hlo & Hlen & Hcls & Hrest). destruct i as [|i]; simpl.
  - intros [= ->]. exists n. rewrite drop_0, length_take. split_and!; [done..|lia|done].
  - intros Hi. destruct (IH _ _ _ Hrest Hi) as (m & Hm & ? & ? & ?).
    exists m. rewrite <- drop_drop. done.
Qed.

Lemma group_text_one s ns (i n : nat) :
  ns !! i = Some n ->
  re.group_text s ns (i, 1%nat) = take n (drop (sum_list (take i ns)) s).
Proof.
  intros Hi. unfold re.group_text. simpl.
  rewrite (drop_S ns n i Hi). simpl. by rewrite Nat.add_0_r.
Qed.

Lemma finditer_from_elem (p : re.pattern) s (skip : nat) (m : list str) :
  m ∈ re.finditer_from p s skip ->
  exists s' n, re.match_at p s' = Some (n, m).
Proof.
  revert skip. induction s as [|c s IH]; intros skip; simpl.
  - by intros ?%elem_of_nil.
  - destruct skip as [|skip]; [|by apply IH].
    destruct (re.match_at p (c :: s)) as [[n m']|] eqn:Hm; [|by apply IH].
    intros [->|Hin]%elem_of_cons; [by exists (c :: s), n|by eapply IH].
Qed.

End matcher.

(** ** The API token table *)

Section api_tokens.
Import validate_tokens.
Implicit Types (tokens : gmap str (gmap str Z)) (m : list str).

(** The third group of a match of [ROW] is a non-empty run of digits, so
    that [int] converts it. *)
Lemma row_input_tokens (s : str) (n : nat) m :
  re.match_at ROW s = Some (n, m) ->
  int (re.group m 3) = Ok (decimal (re.group m 3)).
Proof.
  unfold re.match_at. destruct (re.match_here _ _) as [ns|] eqn:Hm; [|done].
  intros [= _ <-]. apply match_here_matched in Hm.
  destruct (matched_atom _ _ _ 14 (re.d re.Plus) Hm eq_refl)
    as (k & Hk & Hlo & Hlen & Hdigits).
  unfold re.group. cbn [lookup list_lookup fmap list_fmap re.groups ROW default].
  unfold id.
  rewrite (group_text_one _ _ _ _ Hk). unfold int.
  simpl in Hlo, Hdigits. rewrite Hdigits.
  case_bool_decide as Hnil; [|done].
  rewrite Hnil in Hlen. simpl in Hlen. lia.
Qed.

Lemma finditer_rows_convert (text : str) :
  Forall (fun m => int (re.group m 3) = Ok (decimal (re.group m 3)))
         (re.finditer ROW text).
Proof.
  apply Forall_forall. intros m Hm.
  apply finditer_from_elem in Hm as (s & n & Hm). by eapply row_input_tokens.
Qed.

(** One pass of the loop stores the row's count under its task and
    provider, and leaves every other entry as it was. *)
Lemma record_row_spec tokens m :
  int (re.group m 3) = Ok (decimal (re.group m 3)) ->
  exists tokens',
    record_row tokens m = Ok tokens'
    /\ forall task_id provider,
         reported tokens' task_id provider
         = if bool_decide (re.group m 1 = task_id /\ re.group m 2 = provider)
           then Some (decimal (re.group m 3))
           else reported tokens task_id provider.
Proof.
  intros Hint. unfold record_row. rewrite Hint. cbn [mbind result_bind].
  set (t := re.group m 1). set (p := re.group m 2). set (v := decimal (re.group m 3)).
  set (tokens1 := if bool_decide (tokens !! t = None) then <[t:=∅]> tokens else tokens).
  assert (exists inner, tokens1 !! t = Some inner
                        /\ inner !! p = reported tokens t p
                        /\ forall p', inner !! p' = reported tokens t p') as (inner & Hin & _ & Hinner).
  { subst tokens1. unfold reported. case_bool_decide as Hnone.
    - exists ∅. rewrite lookup_insert_eq, Hnone. by split_and!.
    - destruct (tokens !! t) as [inner|] eqn:Ht; [|done]. exists inner. by split_and!. }
  unfold dict_getitem. rewrite Hin. cbn [mbind result_bind].
  eexists. split; [done|]. intros task_id provider. unfold reported.
  assert (forall t', t' <> t -> tokens1 !! t' = tokens !! t') as Hother.
  { intros t' Ht'. subst tokens1. case_bool_decide; [|done].
    by rewrite lookup_insert_ne. }
  destruct (decide (t = task_id)) as [<-|Hne].
  - rewrite lookup_insert_eq. simpl.
    destruct (decide (p = provider)) as [<-|Hnp].
    + rewrite lookup_insert_eq. by rewrite bool_decide_eq_true_2.
    + rewrite lookup_insert_ne by done.
      rewrite bool_decide_eq_false_2 by (intros [_ ?]; done).
      apply Hinner.
  - rewrite lookup_insert_ne by done. rewrite Hother by done.
    by rewrite bool_decide_eq_false_2 by (intros [? _]; done).
Qed.

Lemma for_each_snoc {A S} (body : S -> A -> result S) xs x st :
  for_each body (xs ++ [x]) st = st' ← for_each body xs st; body st' x.
Proof.
  revert st. induction xs as [|y xs IH]; intros st; simpl.
  - by destruct (body st x).
  - destruct (body st y); simpl; [apply IH|done].
Qed.

Lemma counts_for_snoc task_id provider rs r :
  counts_for task_id provider (rs ++ [r])
  = counts_for task_id provider rs
    ++ (if bool_decide (r.1.1 = task_id /\ r.1.2 = provider) then [r.2] else []).
Proof.
  unfold counts_for. rewrite omap_app. simpl. by case_bool_decide.
Qed.

(** The loop over any matches that convert: it does not raise, and each
    entry holds the count of the last row of its task and provider. *)
Lemma record_rows_last (ms : list (list str)) :
  Forall (fun m => int (re.group m 3) = Ok (decimal (re.group m 3))) ms ->
  exists tokens,
    for_each record_row ms ∅ = Ok tokens
    /\ forall task_id provider,
         reported tokens task_id provider
         = last (counts_for task_id provider
                   ((fun m => (re.group m 1, re.group m 2, decimal (re.group m 3)))
                      <$> ms)).
Proof.
  induction ms as [|m ms IH] using rev_ind; intros Hall.
  - exists ∅. split; [done|]. intros. unfold reported. by rewrite lookup_empty.
  - apply Forall_app in Hall as [Hms Hm]. apply Forall_cons in Hm as [Hm _].
    destruct (IH Hms) as (tokens & Hrun & Hlast).
    destruct (record_row_spec tokens m Hm) as (tokens' & Hstep & Hnew).
    exists tokens'. rewrite for_each_snoc, Hrun. cbn [mbind result_bind].
    split; [done|]. intros task_id provider.
    rewrite Hnew, Hlast, fmap_app. cbn [fmap list_fmap].
    rewrite counts_for_snoc. cbn [fst snd]. case_bool_decide.
    + by rewrite last_snoc.
    + by rewrite app_nil_r.
Qed.

(** C10: [parse_api_tokens] raises no error on any document, and the
    mapping it returns holds, for each task ID and provider, the input-token
    count of the last row of the document that matches the row pattern with
    this task ID and provider (and nothing when there is no such row): each
    later match overwrites the value of the earlier ones. *)
Theorem parse_api_tokens_last_wins (text : str) :
  exists tokens,
    parse_api_tokens text = Ok tokens
    /\ forall task_id provider,
         reported tokens task_id provider
         = last (counts_for task_id provider (rows text)).
Proof. apply record_rows_last, finditer_rows_convert. Qed.

Lemma parse_api_tokens_repeated :
  rows doc_repeated
  = [ (lit "FIN-001", lit "openai", 100); (lit "FIN-001", lit "anthropic", 120);
      (lit "FIN-001", lit "openai", 777); (lit "FIN-001", lit "openai", 42) ]
  /\ match parse_api_tokens doc_repeated with
     | Ok tokens => reported tokens (lit "FIN-001") (lit "openai") = Some 42
                    /\ reported tokens (lit "FIN-001") (lit "anthropic") = Some 120
     | Raise _ => False
     end.
Proof. split; [vm_compute; reflexivity|]. vm_compute. done. Qed.

End api_tokens.

(** ** More on the common-affix splitter *)

Section splitter_more.
Import validate_tokens.
Implicit Types (A B P S X x y : str).

Lemma lcp_comm x y : lcp x y = lcp y x.
Proof.
  revert y. induction x as [|a x IH]; intros [|b y]; simpl; try done.
  rewrite IH. by rewrite (bool_decide_ext (a = b) (b = a)).
Qed.

Lemma lcp_app P x y : lcp (P ++ x) (P ++ y) = (length P + lcp x y)%nat.
Proof.
  induction P as [|c P IH]; simpl; [done|].
  by rewrite bool_decide_eq_true_2, IH.
Qed.

Lemma lcp_app_l x X : lcp x (x ++ X) = length x.
Proof.
  rewrite <- (app_nil_r x) at 1. rewrite lcp_app. destruct X; simpl; lia.
Qed.

Lemma prefix_len_comm A B : prefix_len B A = prefix_len A B.
Proof. by rewrite !prefix_len_lcp, lcp_comm. Qed.

Lemma suffix_len_comm A B : suffix_len B A = suffix_len A B.
Proof.
  unfold suffix_len. rewrite !prefix_len_lcp, !scanned_suffix_len_lcp.
  by rewrite (lcp_comm (reverse B)), (lcp_comm B), (Z.min_comm (len B)).
Qed.

Lemma split_swapped A B :
  split_instruction_and_data B A
  = ((split_instruction_and_data A B).1.1,
     (split_instruction_and_data A B).2,
     (split_instruction_and_data A B).1.2).
Proof.
  unfold split_instruction_and_data. cbn [fst snd].
  destruct (split_parts A B) as (_ & _ & Hp & Hs & _ & _).
  destruct (split_parts B A) as (_ & _ & Hp' & Hs' & _ & _).
  rewrite prefix_len_comm in Hp'. rewrite suffix_len_comm in Hs'.
  rewrite Hp', Hs', Hp, Hs, <- common_prefix, <- common_suffix.
  unfold tl_data, json_data. by rewrite prefix_len_comm, suffix_len_comm.
Qed.

(** X6: swapping the two prompts swaps the two data parts and leaves the
    shared text as it is. *)
Theorem split_swap A B instruction a b :
  split_instruction_and_data A B = (instruction, a, b) ->
  split_instruction_and_data B A = (instruction, b, a).
Proof. intros H. by rewrite split_swapped, H. Qed.

Lemma split_swap_witness :
  split_instruction_and_data (lit "Data: {x:1} End") (lit "Data: [1,2] End")
  = (lit "Data:  End", lit "{x:1}", lit "[1,2]").
Proof.
  by apply (split_swap (lit "Data: [1,2] End") (lit "Data: {x:1} End")).
Defined.

(** X7: when one prompt is the start of the other, all of it is shared and
    what the longer prompt adds is its data; the overlap guard sets the
    suffix length to 0. *)
Theorem split_extension A X :
  split_instruction_and_data A (A ++ X) = (A, [], X)
  /\ split_instruction_and_data (A ++ X) A = (A, X, []).
Proof.
  assert (split_instruction_and_data A (A ++ X) = (A, [], X)) as Hsplit.
  { assert (prefix_len A (A ++ X) = len A) as Hp
      by (by rewrite prefix_len_lcp, lcp_app_l).
    assert (suffix_len A (A ++ X) = 0) as Hs.
    { pose proof (suffix_len_bounds A (A ++ X)) as [[Hs0 _] Hps].
      rewrite Hp in Hps. unfold len in *. rewrite length_app in Hps. lia. }
    destruct (split_parts A (A ++ X)) as (_ & _ & Hip & His & Hta & Hjs).
    rewrite Hp, Hs in *. unfold len in *. rewrite Nat2Z.id in *.
    unfold split_instruction_and_data. rewrite Hip, His, Hta, Hjs.
    change (Z.to_nat 0) with 0%nat. rewrite !Nat.sub_0_r.
    rewrite take_ge, drop_all, app_nil_r, Nat.sub_diag, take_0 by done.
    rewrite drop_app_length, length_app.
    rewrite take_ge by lia. done. }
  split; [done|]. by rewrite split_swapped, Hsplit.
Qed.

(** X8: the intended use.  When the two prompts are the same instruction
    text around two payloads that differ in their first and in their last
    character, the split gives back exactly the instruction text and the
    two payloads. *)
Theorem split_recovers_payloads P S (DA DB : str) a b c d :
  head DA = Some a -> head DB = Some b -> a <> b ->
  last DA = Some c -> last DB = Some d -> c <> d ->
  split_instruction_and_data (P ++ DA ++ S) (P ++ DB ++ S) = (P ++ S, DA, DB).
Proof.
  intros Ha Hb Hab Hc Hd Hcd.
  apply last_Some in Hc as [DA'' Hc]. apply last_Some in Hd as [DB'' Hd].
  assert (exists DA', DA = a :: DA') as [DA' Ha']
    by (destruct DA; simplify_eq/=; eauto).
  assert (exists DB', DB = b :: DB') as [DB' Hb']
    by (destruct DB; simplify_eq/=; eauto).
  clear Ha Hb. rename Ha' into Ha. rename Hb' into Hb.
  set (A := P ++ DA ++ S). set (B := P ++ DB ++ S).
  assert (prefix_len A B = len P) as Hp.
  { rewrite prefix_len_lcp. subst A B. rewrite lcp_app, Ha, Hb. simpl.
    rewrite bool_decide_eq_false_2 by done. unfold len. lia. }
  assert (scanned_suffix_len A B = len S) as Hsc.
  { rewrite scanned_suffix_len_lcp. subst A B.
    rewrite !reverse_app, <- !app_assoc, lcp_app, Hc, Hd, !reverse_snoc. simpl.
    rewrite bool_decide_eq_false_2 by done. rewrite length_reverse. unfold len. lia. }
  assert (0 < length DA)%nat by (rewrite Ha; simpl; lia).
  assert (0 < length DB)%nat by (rewrite Hb; simpl; lia).
  assert (length A = length P + length DA + length S)%nat as HlenA
    by (subst A; rewrite !length_app; lia).
  assert (length B = length P + length DB + length S)%nat as HlenB
    by (subst B; rewrite !length_app; lia).
  assert (suffix_len A B = len S) as Hs.
  { unfold suffix_len. rewrite Hp, Hsc. unfold len. rewrite HlenA, HlenB.
    destruct (Z.gtb_spec (Z.of_nat (length P) + Z.of_nat (length S))
                (Z.min (Z.of_nat (length P + length DA + length S))
                       (Z.of_nat (length P + length DB + length S)))); lia. }
  destruct (split_parts A B) as (_ & _ & Hip & His & Hta & Hjs).
  rewrite Hp, Hs in *. unfold len in *. rewrite !Nat2Z.id in *.
  unfold split_instruction_and_data. rewrite Hip, His, Hta, Hjs.
  subst A B. rewrite !take_app_length, !drop_app_length.
  rewrite HlenA, HlenB.
  replace (length P + length DA + length S - length S)%nat
    with (length P + length DA)%nat by lia.
  replace (length P + length DB + length S - length S - length P)%nat
    with (length DB) by lia.
  replace (length P + length DA - length P)%nat with (length DA) by lia.
  rewrite !take_app_length.
  rewrite (app_assoc P DA S), drop_app_length'; [done|].
  rewrite length_app. lia.
Qed.

Lemma split_recovers_payloads_witness :
  split_instruction_and_data
    (lit "Data: " ++ lit "[1,2]" ++ lit " End") (lit "Data: " ++ lit "{x:1}" ++ lit " End")
  = (lit "Data: " ++ lit " End", lit "[1,2]", lit "{x:1}").
Proof.
  apply (split_recovers_payloads (lit "Data: ") (lit " End") (lit "[1,2]") (lit "{x:1}")
           "["%char "{"%char "]"%char "}"%char);
    (reflexivity || discriminate).
Defined.

End splitter_more.

(** ** More on prompt extraction *)

Section extraction_more.
Implicit Types (s sub text header body rest : str).

(** [find] answers the index of an occurrence that no occurrence precedes. *)
Lemma find_at s sub (n : nat) :
  occurs_at sub s n -> (forall m, (m < n)%nat -> ~ occurs_at sub s m) ->
  find s sub = Z.of_nat n.
Proof.
  intros Hocc Hmin. destruct (decide (find s sub = -1)) as [Habs|Hne].
  - destruct Hocc as (pre & post & -> & _).
    by destruct (proj1 (find_absent _ _) Habs pre post).
  - destruct (find_first s sub Hne) as (n' & -> & Hocc' & Hmin').
    f_equal. destruct (Nat.lt_trichotomy n' n) as [Hlt|[->|Hgt]]; [|done|].
    + by destruct (Hmin n' Hlt).
    + by destruct (Hmin' n Hgt).
Qed.

Lemma find_no_earlier s sub (n : nat) :
  find s sub = Z.of_nat n -> forall m, (m < n)%nat -> ~ occurs_at sub s m.
Proof.
  intros Hf. destruct (find_first s sub) as (n' & Hn' & _ & Hmin); [lia|].
  assert (n' = n) as -> by lia. done.
Qed.

(** The text after an occurrence, by slicing. *)
Lemma slice_after header sub rest :
  slice (header ++ sub ++ rest) (Some (Z.of_nat (length header) + len sub)) None
  = rest.
Proof.
  rewrite slice_from.
  - unfold len. rewrite <- Nat2Z.inj_add, Nat2Z.id, <- drop_drop.
    by rewrite !drop_app_length.
  - unfold len. rewrite !length_app. lia.
Qed.

(** X9: [extract_prompt] of validate_tokens.py returns [body] exactly when
    the text is a header, the marker line with its empty line, and [body],
    the marker not occurring earlier; it raises [ValueError] exactly when
    the marker with its empty line does not occur. *)
Theorem validate_extract_prompt_spec text :
  (forall body,
     validate_tokens.extract_prompt text = Ok body
     <-> exists header,
           text = header ++ (MARKER ++ [LF; LF]) ++ body
           /\ forall m, (m < length header)%nat
                        -> ~ occurs_at (MARKER ++ [LF; LF]) text m)
  /\ (validate_tokens.extract_prompt text = Raise ValueError
      <-> forall pre post, text <> pre ++ (MARKER ++ [LF; LF]) ++ post).
Proof.
  unfold validate_tokens.extract_prompt. fold MARKER.
  set (marker := MARKER ++ [LF; LF]). split.
  - intros body. split.
    + destruct (Z.eqb_spec (find text marker) (-1)) as [|Hne]; [done|].
      destruct (find_first text marker Hne)
        as (n & Hn & (header & rest & -> & Hlen) & Hmin).
      rewrite Hn, <- Hlen, slice_after. intros [= <-]. exists header.
      split; [done|]. by rewrite Hlen.
    + intros (header & -> & Hmin).
      rewrite (find_at _ marker (length header)); [|by exists header, body|done].
      destruct (Z.eqb_spec (Z.of_nat (length header)) (-1)); [lia|].
      by rewrite slice_after.
  - rewrite <- find_absent.
    destruct (Z.eqb_spec (find text marker) (-1)); split; done.
Qed.

Lemma lstrip_head s chars c : head (lstrip s chars) = Some c -> c ∉ chars.
Proof.
  induction s as [|e s IH]; cbn [lstrip]; [done|].
  case_bool_decide; [done|]. by intros [= <-].
Qed.

Lemma lstrip_suffix s chars : lstrip s chars `suffix_of` s.
Proof.
  induction s as [|e s IH]; cbn [lstrip]; [done|].
  case_bool_decide; [by apply suffix_cons_r|done].
Qed.

Lemma lstrip_newlines (k : nat) body :
  head body <> Some LF -> lstrip (replicate k LF ++ body) [LF] = body.
Proof.
  intros Hb. induction k as [|k IH]; cbn [replicate app lstrip].
  - destruct body as [|c body]; cbn [lstrip]; [done|].
    rewrite bool_decide_eq_false_2; [done|].
    intros ->%list_elem_of_singleton. by destruct Hb.
  - rewrite bool_decide_eq_true_2 by apply list_elem_of_here. done.
Qed.

Lemma count_extract_prompt_at header rest :
  (forall m, (m < length header)%nat
             -> ~ occurs_at MARKER (header ++ MARKER ++ rest) m) ->
  count_tokens.extract_prompt (header ++ MARKER ++ rest) = lstrip rest [LF].
Proof.
  intros Hmin. unfold count_tokens.extract_prompt. fold MARKER.
  rewrite (find_at _ MARKER (length header)); [|by exists header, rest|done].
  destruct (Z.eqb_spec (Z.of_nat (length header)) (-1)); [lia|].
  by rewrite slice_after.
Qed.

(** X10: [extract_prompt] of count_tokens.py, on a text that holds the
    marker: the result is what follows the first occurrence of the marker
    without its leading newlines; it is an end of the text and does not
    begin with a newline. *)
Theorem count_extract_prompt_after_marker header rest :
  (forall m, (m < length header)%nat
             -> ~ occurs_at MARKER (header ++ MARKER ++ rest) m) ->
  count_tokens.extract_prompt (header ++ MARKER ++ rest) = lstrip rest [LF]
  /\ head (count_tokens.extract_prompt (header ++ MARKER ++ rest)) <> Some LF
  /\ count_tokens.extract_prompt (header ++ MARKER ++ rest)
       `suffix_of` header ++ MARKER ++ rest.
Proof.
  intros Hmin. rewrite (count_extract_prompt_at header rest Hmin).
  split_and!; [done| |].
  - intros Hh%lstrip_head. apply Hh, list_elem_of_here.
  - etrans; [apply lstrip_suffix|]. rewrite app_assoc. by apply suffix_app_r.
Qed.

Lemma count_extract_prompt_after_marker_witness :
  count_tokens.extract_prompt (lit "Task ID: FIN-001" ++ MARKER ++ [LF; LF] ++ lit "Analyze")
  = lstrip ([LF; LF] ++ lit "Analyze") [LF]
  /\ head (count_tokens.extract_prompt
             (lit "Task ID: FIN-001" ++ MARKER ++ [LF; LF] ++ lit "Analyze"))
     <> Some LF
  /\ count_tokens.extract_prompt
       (lit "Task ID: FIN-001" ++ MARKER ++ [LF; LF] ++ lit "Analyze")
       `suffix_of` lit "Task ID: FIN-001" ++ MARKER ++ [LF; LF] ++ lit "Analyze".
Proof.
  apply (count_extract_prompt_after_marker
           (lit "Task ID: FIN-001") ([LF; LF] ++ lit "Analyze")).
  apply find_no_earlier. vm_compute. reflexivity.
Defined.

(** X11: round trip of the prompt dumps through count_tokens.py: a header,
    the marker, any number of newlines and a body that begins with no
    newline give back the body, provided the marker does not occur
    earlier. *)
Theorem count_extract_prompt_round_trip header (k : nat) body :
  (forall m, (m < length header)%nat
             -> ~ occurs_at MARKER (header ++ MARKER ++ replicate k LF ++ body) m) ->
  head body <> Some LF ->
  count_tokens.extract_prompt (header ++ MARKER ++ replicate k LF ++ body) = body.
Proof.
  intros Hmin Hb.
  rewrite (count_extract_prompt_at header (replicate k LF ++ body) Hmin).
  by apply lstrip_newlines.
Qed.

Lemma count_extract_prompt_round_trip_witness :
  count_tokens.extract_prompt
    (lit "Task ID: FIN-001" ++ MARKER ++ replicate 2 LF ++ lit "Analyze")
  = lit "Analyze".
Proof.
  apply (count_extract_prompt_round_trip (lit "Task ID: FIN-001") 2 (lit "Analyze")).
  - apply find_no_earlier. vm_compute. reflexivity.
  - discriminate.
Defined.

(** X12: the two extractors agree up to leading newlines: when the one of
    validate_tokens.py returns [body] and the marker first occurs where it
    first occurs with its empty line, the one of count_tokens.py returns
    [body] without its leading newlines. *)
Theorem extract_prompt_agree text body :
  validate_tokens.extract_prompt text = Ok body ->
  find text MARKER = find text (MARKER ++ [LF; LF]) ->
  count_tokens.extract_prompt text = lstrip body [LF].
Proof.
  intros Hv Hsame. unfold validate_tokens.extract_prompt in Hv. fold MARKER in Hv.
  unfold count_tokens.extract_prompt. fold MARKER. rewrite Hsame.
  destruct (Z.eqb_spec (find text (MARKER ++ [LF; LF])) (-1)) as [|Hne]; [done|].
  destruct (find_first _ _ Hne) as (n & Hn & (header & rest & -> & Hlen) & _).
  rewrite Hn, <- Hlen in *. rewrite slice_after in Hv. injection Hv as <-.
  rewrite <- (app_assoc MARKER [LF; LF] rest), slice_after.
  cbn [app lstrip]. by rewrite !bool_decide_eq_true_2 by apply list_elem_of_here.
Qed.

Lemma extract_prompt_agree_witness :
  count_tokens.extract_prompt
    (lit "Task ID: FIN-001" ++ MARKER ++ [LF; LF; LF] ++ lit "Analyze")
  = lstrip ([LF] ++ lit "Analyze") [LF].
Proof.
  apply (extract_prompt_agree
           (lit "Task ID: FIN-001" ++ MARKER ++ [LF; LF; LF] ++ lit "Analyze")
           ([LF] ++ lit "Analyze")); vm_compute; reflexivity.
Defined.

End extraction_more.

(** ** More on the file names *)

Section filenames_more.
Import count_tokens.
Implicit Types (s suffix stem : str).

Lemma endswith_suffix s suffix : endswith s suffix = true <-> suffix `suffix_of` s.
Proof.
  unfold endswith. rewrite startswith_prefix, prefix_suffix_reverse.
  by rewrite !reverse_involutive.
Qed.

Lemma is_lower_upper_char c : is_lower (upper_char c) = false.
Proof. destruct c as [[] [] [] [] [] [] [] []]; vm_compute; reflexivity. Qed.

Lemma upper_no_lower s : Forall (fun c => is_lower c = false) (upper s).
Proof.
  unfold upper. apply Forall_fmap, Forall_forall. intros c _.
  apply is_lower_upper_char.
Qed.

Lemma parse_stem_classifies stem formats :
  (exists f base, f ∈ formats /\ stem = base ++ lit "-" ++ f
                  /\ parse_stem stem formats = (upper base, f))
  \/ ((forall f, f ∈ formats -> endswith stem (lit "-" ++ f) = false)
      /\ parse_stem stem formats = (upper stem, lit "unknown")).
Proof.
  induction formats as [|fmt formats IH]; cbn [parse_stem].
  - right. split; [|done]. by intros f ?%elem_of_nil.
  - destruct (endswith stem (lit "-" ++ fmt)) eqn:Hend.
    + left. apply endswith_suffix in Hend as [base ->]. exists fmt, base.
      split_and!; [apply list_elem_of_here|done|].
      by rewrite slice_drop_last.
    + destruct IH as [(f & base & Hf & -> & Hp)|[Hnone Hp]].
      * left. exists f, base. split_and!; [by apply list_elem_of_further|done..].
      * right. split; [|done]. intros f [->|Hf]%elem_of_cons; [done|by apply Hnone].
Qed.

(** X13: [parse_filename] either finds a format of [FORMATS] at the end of
    the stem, after a hyphen, and returns the upper-cased text before that
    hyphen with the format; or the stem ends with none of the formats and it
    returns the upper-cased stem with the format [unknown].  The task ID it
    returns holds no lower-case ASCII letter. *)
Theorem parse_filename_classifies (filename : str) :
  ((exists f base,
      f ∈ FORMATS
      /\ removesuffix filename (lit ".txt") = base ++ lit "-" ++ f
      /\ parse_filename filename = (upper base, f))
   \/ ((forall f, f ∈ FORMATS
                  -> endswith (removesuffix filename (lit ".txt")) (lit "-" ++ f)
                     = false)
       /\ parse_filename filename
          = (upper (removesuffix filename (lit ".txt")), lit "unknown")))
  /\ Forall (fun c => is_lower c = false) (parse_filename filename).1.
Proof.
  split; [apply parse_stem_classifies|].
  unfold parse_filename.
  destruct (parse_stem_classifies (removesuffix filename (lit ".txt")) FORMATS)
    as [(f & base & _ & _ & ->)|[_ ->]]; apply upper_no_lower.
Qed.

End filenames_more.

(** ** More on the API token table *)

Section api_tokens_more.
Import validate_tokens.
Implicit Types (tokens : gmap str (gmap str Z)) (m : list str).

Lemma record_row_keys tokens m :
  int (re.group m 3) = Ok (decimal (re.group m 3)) ->
  exists tokens',
    record_row tokens m = Ok tokens'
    /\ (forall t, tokens' !! t = None <-> tokens !! t = None /\ t <> re.group m 1)
    /\ (forall t, tokens' !! t = Some ∅ -> tokens !! t = Some ∅).
Proof.
  intros Hint. unfold record_row. rewrite Hint. cbn [mbind result_bind].
  set (t0 := re.group m 1). set (p := re.group m 2). set (v := decimal (re.group m 3)).
  set (tokens1 := if bool_decide (tokens !! t0 = None) then <[t0:=∅]> tokens else tokens).
  assert (is_Some (tokens1 !! t0)) as [inner Hin].
  { subst tokens1. case_bool_decide as Hnone.
    - rewrite lookup_insert_eq. by eexists.
    - by apply not_eq_None_Some. }
  assert (forall t, t <> t0 -> tokens1 !! t = tokens !! t) as Hother.
  { intros t Ht. subst tokens1. case_bool_decide; [|done].
    by rewrite lookup_insert_ne. }
  unfold dict_getitem. rewrite Hin. cbn [mbind result_bind].
  eexists. split; [done|]. split; intros t.
  - destruct (decide (t = t0)) as [->|Hne].
    + rewrite lookup_insert_eq. split; [done|]. by intros [_ ?].
    + rewrite lookup_insert_ne, Hother by done. split; [done|]. by intros [? _].
  - destruct (decide (t = t0)) as [->|Hne].
    + rewrite lookup_insert_eq. intros [= Hempty].
      apply (f_equal (fun d : gmap str Z => d !! p)) in Hempty.
      by rewrite lookup_insert_eq, lookup_empty in Hempty.
    + by rewrite lookup_insert_ne, Hother by done.
Qed.

Lemma record_rows_keys (ms : list (list str)) :
  Forall (fun m => int (re.group m 3) = Ok (decimal (re.group m 3))) ms ->
  exists tokens,
    for_each record_row ms ∅ = Ok tokens
    /\ (forall t, tokens !! t = None <-> t ∉ (fun m => re.group m 1) <$> ms)
    /\ (forall t, tokens !! t <> Some ∅).
Proof.
  induction ms as [|m ms IH] using rev_ind; intros Hall.
  - exists ∅. split; [done|]. split; intros t.
    + rewrite lookup_empty. split; [|done]. intros _ ?%elem_of_nil. done.
    + by rewrite lookup_empty.
  - apply Forall_app in Hall as [Hms Hm]. apply Forall_cons in Hm as [Hm _].
    destruct (IH Hms) as (tokens & Hrun & Hkeys & Hne).
    destruct (record_row_keys tokens m Hm) as (tokens' & Hstep & Hkeys' & Hne').
    exists tokens'. rewrite for_each_snoc, Hrun. cbn [mbind result_bind].
    split; [done|]. split; intros t.
    + rewrite Hkeys', Hkeys, fmap_app, not_elem_of_app. cbn [fmap list_fmap].
      rewrite not_elem_of_cons. split; [intros [? ?]|intros [? [? _]]]; split_and!;
        try done. apply not_elem_of_nil.
    + intros Ht. by apply (Hne t), Hne'.
Qed.

(** X14: the keys of the mapping [parse_api_tokens] returns are exactly the
    task IDs of the rows that match the pattern, and no task is mapped to an
    empty dict; so the mapping is empty exactly when no row matches. *)
Theorem parse_api_tokens_keys (text : str) :
  exists tokens,
    parse_api_tokens text = Ok tokens
    /\ (forall task_id,
          is_Some (tokens !! task_id)
          <-> exists provider n, (task_id, provider, n) ∈ rows text)
    /\ (forall task_id, tokens !! task_id <> Some ∅)
    /\ (tokens = ∅ <-> rows text = []).
Proof.
  destruct (record_rows_keys (re.finditer ROW text))
    as (tokens & Hrun & Hkeys & Hne); [apply finditer_rows_convert|].
  exists tokens. split; [done|].
  assert (forall task_id,
            is_Some (tokens !! task_id)
            <-> exists provider n, (task_id, provider, n) ∈ rows text) as Hiff.
  { intros task_id. rewrite <- not_eq_None_Some, Hkeys. unfold rows. split.
    - intros Hin. apply dec_stable in Hin.
      apply list_elem_of_fmap in Hin as (m & -> & Hm).
      exists (re.group m 2), (decimal (re.group m 3)).
      apply list_elem_of_fmap. by exists m.
    - intros (provider & n & Hin) Hnot. apply Hnot.
      apply list_elem_of_fmap in Hin as (m & [= -> _ _] & Hm).
      apply list_elem_of_fmap. by exists m. }
  split_and!; [done|done|]. split.
  - intros ->. destruct (rows text) as [|[[t p] n] rs] eqn:Hrows; [done|].
    destruct (proj2 (Hiff t)) as [x Hx].
    { exists p, n. rewrite ?Hrows. apply list_elem_of_here. }
    by rewrite lookup_empty in Hx.
  - intros Hrows. apply map_eq. intros t. rewrite lookup_empty.
    apply eq_None_not_Some. rewrite Hiff, Hrows.
    intros (? & ? & ?%elem_of_nil). done.
Qed.

End api_tokens_more.

(** ** The loop of validate_tokens.py over the tasks *)

Section validate_main.
Import validate_tokens.
Variable n_tokens : str -> Z.
Variable prompts : gmap str str.
Implicit Types (st : totals) (task_id t : str) (task_ids : list str).

Lemma replace_char_empty (s : str) (old : ascii) :
  replace_char s old [] = filter (fun c => c <> old) s.
Proof.
  unfold str in *.
  induction s as [|c s IH]; [done|]. cbn [replace_char]. rewrite IH.
  case_bool_decide.
  - by rewrite filter_cons_False by (intros ?; done).
  - by rewrite filter_cons_True.
Qed.

(** X15: [safe_print] prints the text without its carriage returns and line
    feeds, every other character kept in its place: what it prints holds no
    line break. *)
Theorem safe_print_no_line_break (text : str) :
  safe_print text = filter (fun c => c <> CR /\ c <> LF) text
  /\ (CR ∉ safe_print text)
  /\ (LF ∉ safe_print text).
Proof.
  assert (safe_print text = filter (fun c => c <> CR /\ c <> LF) text) as ->.
  { unfold safe_print. rewrite !replace_char_empty. unfold str in *.
    induction text as [|c text IH]; [done|].
    destruct (decide (c = CR)) as [->|Hcr].
    - rewrite (filter_cons_False _ CR) by (intros ?; done).
      by rewrite (filter_cons_False _ CR) by (intros [? _]; done).
    - rewrite (filter_cons_True (fun c => c <> CR)) by done.
      destruct (decide (c = LF)) as [->|Hlf].
      + rewrite (filter_cons_False _ LF) by (intros ?; done).
        by rewrite (filter_cons_False _ LF) by (intros [_ ?]; done).
      + rewrite !filter_cons_True by done. by rewrite IH. }
  split_and!; [done|..]; intros [[? ?] _]%list_elem_of_filter; done.
Qed.

Lemma extract_prompt_cases (text : str) :
  (has_marker text /\ exists body, extract_prompt text = Ok body)
  \/ (~ has_marker text /\ extract_prompt text = Raise ValueError).
Proof.
  unfold extract_prompt. fold MARKER.
  destruct (Z.eqb_spec (find text (MARKER ++ [LF; LF])) (-1)) as [Habs|Hne].
  - right. split; [|done]. intros (pre & post & ->).
    by destruct (proj1 (find_absent _ _) Habs pre post).
  - left. split; [|by eexists].
    destruct (find_first _ _ Hne) as (n & _ & (pre & post & -> & _) & _).
    by exists pre, post.
Qed.

Lemma measure_cases task_id :
  (~ measurable prompts task_id /\ measure n_tokens prompts task_id = Ok None)
  \/ (exists a b,
        prompts !! (lower task_id ++ lit "-tl.txt") = Some a
        /\ prompts !! (lower task_id ++ lit "-json.txt") = Some b
        /\ ((has_marker a /\ has_marker b
             /\ exists c, measure n_tokens prompts task_id = Ok (Some c)
                          /\ validate_tokens.task_id c = task_id)
            \/ (~ (has_marker a /\ has_marker b)
                /\ measure n_tokens prompts task_id = Raise ValueError))).
Proof.
  unfold measure, measurable.
  destruct (prompts !! (lower task_id ++ lit "-tl.txt")) as [a|] eqn:Ha;
    [|left; split; [by intros [[? ?] _]|done]].
  destruct (prompts !! (lower task_id ++ lit "-json.txt")) as [b|] eqn:Hb;
    [|left; split; [by intros [_ [? ?]]|done]].
  right. exists a, b. split_and!; [done..|].
  destruct (extract_prompt_cases a) as [[Hma [pa ->]]|[Hma ->]];
    [|right; split; [by intros [? _]|done]].
  destruct (extract_prompt_cases b) as [[Hmb [pb ->]]|[Hmb ->]];
    [|right; split; [by intros [_ ?]|done]].
  left. split_and!; [done..|]. cbn [mbind result_bind].
  destruct (split_instruction_and_data pa pb) as [[? ?] ?]. by eexists.
Qed.

Lemma main_step_cases st task_id :
  (~ measurable prompts task_id /\ main_step n_tokens prompts st task_id = Ok st)
  \/ (measurable prompts task_id
      /\ ((exists c, validate_tokens.task_id c = task_id
                     /\ measure n_tokens prompts task_id = Ok (Some c)
                     /\ main_step n_tokens prompts st task_id = task_step st c)
          \/ main_step n_tokens prompts st task_id = Raise ValueError)).
Proof.
  unfold main_step.
  destruct (measure_cases task_id)
    as [[Hno ->]|(a & b & Ha & Hb & [(_ & _ & c & -> & Hc)|[_ ->]])].
  - by left.
  - right. split; [by split; eexists|]. left. by exists c.
  - right. split; [by split; eexists|]. by right.
Qed.






Lemma no_marker_find (text : str) :
  find text (MARKER ++ [LF; LF]) = -1 -> ~ has_marker text.
Proof.
  intros Habs (pre & post & ->).
  by destruct (proj1 (find_absent _ _) Habs pre post).
Qed.

(** X17: when a task of the list has both files and one of them lacks the
    marker, the loop raises [ValueError]: the run aborts, whatever the
    other tasks hold. *)
Theorem main_loop_aborts task_ids t a b :
  t ∈ task_ids ->
  prompts !! (lower t ++ lit "-tl.txt") = Some a ->
  prompts !! (lower t ++ lit "-json.txt") = Some b ->
  ~ (has_marker a /\ has_marker b) ->
  main_loop n_tokens prompts task_ids = Raise ValueError.
Proof.
  intros Hin Ha Hb Hbad. unfold main_loop. generalize (Totals 0 0 0 []).
  induction task_ids as [|x task_ids IH]; intros st; [by apply elem_of_nil in Hin|].
  cbn [for_each].
  destruct (main_step_cases st x) as [[Hno Hs]|[Hyes [(c & Hc & Hm & Hs)|Hs]]];
    rewrite Hs; [| |done].
  - cbn [mbind result_bind]. apply elem_of_cons in Hin as [->|Hin]; [|by apply IH].
    destruct Hno. by split; eexists.
  - rewrite task_step_ok. cbn [mbind result_bind].
    apply elem_of_cons in Hin as [->|Hin]; [|by apply IH].
    destruct (measure_cases x)
      as [[Hno _]|(a' & b' & Ha' & Hb' & [(Hma & Hmb & _)|[_ Hr]])].
    + by destruct Hno.
    + destruct Hbad. by simplify_eq.
    + by rewrite Hr in Hm.
Qed.

End validate_main.


Lemma main_loop_aborts_witness :
  validate_tokens.main_loop len bad_prompts [lit "FIN-001"; lit "FIN-002"]
  = Raise ValueError.
Proof.
  eapply (main_loop_aborts len bad_prompts [lit "FIN-001"; lit "FIN-002"]
            (lit "FIN-001")).
  - apply list_elem_of_here.
  - vm_compute. reflexivity.
  - vm_compute. reflexivity.
  - intros [_ Hb]. revert Hb. apply no_marker_find. vm_compute. reflexivity.
Defined.

(** ** The loop of count_tokens.py over the prompt files, and its data-only
    estimate *)

Section count_main.
Import count_tokens.
Variable count_tokens : str -> Z.
Implicit Types (results : gmap (str * str) Z) (files : list (str * str)).
Implicit Types (task_ids : list str) (key : str * str).

Lemma unknown_no_format : lit "unknown" ∉ FORMATS.
Proof.
  intros H. vm_compute in H.
  repeat (apply elem_of_cons in H as [H|H]; [done|]). by apply elem_of_nil in H.
Qed.

Lemma count_file_cases results (file : str * str) :
  ((parse_filename file.1).2 ∈ FORMATS
   /\ count_file count_tokens results file
      = <[parse_filename file.1 := count_tokens (extract_prompt file.2)]> results)
  \/ ((parse_filename file.1).2 = lit "unknown"
      /\ count_file count_tokens results file = results).
Proof.
  unfold count_file, parse_filename.
  destruct (parse_stem_classifies (removesuffix file.1 (lit ".txt")) FORMATS)
    as [(f & base & Hf & _ & Hp)|[_ Hp]]; rewrite Hp; cbn [fst snd].
  - left. split; [done|]. rewrite bool_decide_eq_false_2; [done|].
    intros ->. by apply unknown_no_format.
  - right. by rewrite bool_decide_eq_true_2.
Qed.

Lemma count_files_snoc files file :
  count_files count_tokens (files ++ [file])
  = count_file count_tokens (count_files count_tokens files) file.
Proof. unfold count_files. by rewrite foldl_app. Qed.

Lemma snoc_split {A} (l before after : list A) (x y : A) :
  l ++ [x] = before ++ y :: after ->
  (after = [] /\ l = before /\ x = y)
  \/ (exists after', after = after' ++ [x] /\ l = before ++ y :: after').
Proof.
  destruct after as [|a after' _] using rev_ind; intros Heq.
  - left. apply app_inj_tail in Heq as [-> ->]. done.
  - right. rewrite app_comm_cons, app_assoc in Heq.
    apply app_inj_tail in Heq as [-> ->]. by exists after'.
Qed.

(** X18: what the loop over the prompt files records.  The results hold
    [n] for a task and a format exactly when the format is one of
    [FORMATS] and [n] is the count of the prompt of the last file whose
    name parses to that task and format; files of an unknown format leave
    no entry. *)
Theorem count_files_entries files key (n : Z) :
  count_files count_tokens files !! key = Some n
  <-> key.2 ∈ FORMATS
      /\ exists before name text after,
           files = before ++ (name, text) :: after
           /\ parse_filename name = key
           /\ n = count_tokens (extract_prompt text)
           /\ Forall (fun file => parse_filename file.1 <> key) after.
Proof.
  revert n. induction files as [|file files IH] using rev_ind; intros n.
  - split; [done|]. intros (_ & before & name & text & after & Heq & _).
    by destruct before.
  - rewrite count_files_snoc.
    destruct (count_file_cases (count_files count_tokens files) file)
      as [[Hfmt ->]|[Hfmt ->]].
    + destruct (decide (parse_filename file.1 = key)) as [Hkey|Hkey].
      * rewrite Hkey, lookup_insert_eq. split.
        -- intros [= <-]. split; [by rewrite <- Hkey|].
           exists files, file.1, file.2, []. by destruct file.
        -- intros (_ & before & name & text & after & Heq & Hp & -> & Hafter).
           apply snoc_split in Heq as [(-> & -> & ->)|(after' & -> & _)]; [done|].
           apply Forall_app in Hafter as [_ Hafter].
           apply Forall_inv in Hafter. by destruct Hafter.
      * rewrite lookup_insert_ne by done. rewrite IH. split.
        -- intros (Hk & before & name & text & after & -> & Hp & -> & Hafter).
           split; [done|]. exists before, name, text, (after ++ [file]).
           split_and!; [by rewrite <- app_assoc|done..|].
           apply Forall_app. split; [done|]. by apply Forall_singleton.
        -- intros (Hk & before & name & text & after & Heq & Hp & -> & Hafter).
           split; [done|].
           apply snoc_split in Heq as [(-> & -> & ->)|(after' & -> & ->)]; [done|].
           apply Forall_app in Hafter as [Hafter _]. by exists before, name, text, after'.
    + assert (key.2 ∈ FORMATS -> parse_filename file.1 <> key) as Hkey.
      { intros Hk <-. rewrite Hfmt in Hk. by apply unknown_no_format. }
      rewrite IH. split.
      * intros (Hk & before & name & text & after & -> & Hp & -> & Hafter).
        split; [done|]. exists before, name, text, (after ++ [file]).
        split_and!; [by rewrite <- app_assoc|done..|].
        apply Forall_app. split; [done|]. apply Forall_singleton. by apply Hkey.
      * intros (Hk & before & name & text & after & Heq & Hp & -> & Hafter).
        split; [done|].
        apply snoc_split in Heq as [(-> & -> & ->)|(after' & -> & ->)].
        { by destruct (Hkey Hk). }
        apply Forall_app in Hafter as [Hafter _]. by exists before, name, text, after'.
Qed.

End count_main.

Section data_only.
Import count_tokens.
Implicit Types (results : gmap (str * str) Z) (task_ids : list str).

Lemma min_of_formats results t :
  min_of (tokens_of results t <$> FORMATS) = Ok (least_tokens results t).
Proof. done. Qed.

Lemma min_per_task_from results task_ids (d0 : gmap str Z) :
  exists d,
    for_each
      (fun d task_id =>
         m ← min_of (tokens_of results task_id <$> FORMATS); Ok (<[task_id := m]> d))
      task_ids d0 = Ok d
    /\ forall t, t ∈ task_ids \/ d0 !! t = Some (least_tokens results t)
                 -> d !! t = Some (least_tokens results t).
Proof.
  revert d0. induction task_ids as [|x task_ids IH]; intros d0; cbn [for_each].
  - exists d0. split; [done|]. intros t [?%elem_of_nil|?]; done.
  - rewrite min_of_formats. cbn [mbind result_bind].
    destruct (IH (<[x := least_tokens results x]> d0)) as (d & Hd & Hin).
    exists d. split; [done|]. intros t Ht. apply Hin.
    destruct (decide (t = x)) as [->|Hne]; [right; by rewrite lookup_insert_eq|].
    rewrite lookup_insert_ne by done.
    destruct Ht as [[->|?]%elem_of_cons|?]; [done|by left|by right].
Qed.

Lemma totals_from results task_ids fmt (acc : Z) :
  foldl (fun acc task_id => acc + tokens_of results task_id fmt) acc task_ids
  = acc + totals results task_ids fmt.
Proof.
  unfold totals. revert acc. induction task_ids as [|t task_ids IH]; intros acc; simpl; [lia|].
  rewrite IH, (IH (0 + tokens_of results t fmt)). lia.
Qed.

Lemma data_tokens_from results (mins : gmap str Z) task_ids fmt (acc : Z) :
  (forall t, t ∈ task_ids -> mins !! t = Some (least_tokens results t)) ->
  for_each
    (fun acc t => m ← dict_getitem mins t; Ok (acc + (tokens_of results t fmt - m)))
    task_ids acc
  = Ok (acc + totals results task_ids fmt - overhead results task_ids).
Proof.
  revert acc. induction task_ids as [|t task_ids IH]; intros acc Hmins; cbn [for_each].
  - unfold totals. simpl. f_equal. lia.
  - assert (dict_getitem mins t = Ok (least_tokens results t)) as Hget.
    { unfold dict_getitem. by rewrite (Hmins t) by apply list_elem_of_here. }
    rewrite Hget. cbn [mbind result_bind]. rewrite IH by (intros; by apply Hmins, list_elem_of_further).
    f_equal. unfold totals, overhead. cbn [foldl foldr].
    rewrite (totals_from _ _ _ (0 + tokens_of results t fmt)). unfold totals. lia.
Qed.

(** X19: the data-only estimate of count_tokens.py never raises.  Each line
    it prints is for TL or TOON, and compares the total of the format and
    the total of JSON after the same overhead, the sum over the tasks of
    the smallest of the three counts, was taken from both: the JSON data
    tokens of a line are positive, and the numerator of its percentage is
    the difference of the two totals, whatever the overhead. *)
Theorem data_only_estimate_lines results task_ids :
  exists lines,
    data_only_estimate results task_ids = Ok lines
    /\ Forall
         (fun line : str * Q * Z * Z =>
            let '(fmt, pct, fmt_data, json_data) := line in
            (fmt = lit "tl" \/ fmt = lit "toon")
            /\ fmt_data
               = totals results task_ids fmt - overhead results task_ids
            /\ json_data
               = totals results task_ids (lit "json") - overhead results task_ids
            /\ 0 < json_data
            /\ pct = (inject_Z (totals results task_ids fmt
                                - totals results task_ids (lit "json"))
                      / inject_Z json_data * 100)%Q)
         lines.
Proof.
  unfold data_only_estimate.
  destruct ((1 <? len FORMATS) && _); [|by exists []].
  unfold min_per_task.
  destruct (min_per_task_from results task_ids ∅) as (mins & -> & Hmins).
  cbn [mbind result_bind].
  assert (forall fmt, data_tokens results mins task_ids fmt
                      = Ok (totals results task_ids fmt - overhead results task_ids))
    as Hdata.
  { intros fmt. unfold data_tokens. rewrite data_tokens_from; [f_equal; lia|].
    intros t Ht. apply Hmins. by left. }
  set (json_data := totals results task_ids (lit "json") - overhead results task_ids).
  assert (forall lines fmt,
            fmt <> lit "json" ->
            (if bool_decide (fmt = lit "json") then Ok lines
             else
               fmt_data ← data_tokens results mins task_ids fmt;
               json_data ← data_tokens results mins task_ids (lit "json");
               if json_data >? 0
               then q ← truediv (inject_Z (fmt_data - json_data)) (inject_Z json_data);
                    Ok (lines ++ [(fmt, (q * 100)%Q, fmt_data, json_data)])
               else Ok lines)
            = Ok (if json_data >? 0
                  then lines ++ [(fmt,
                                  (inject_Z (totals results task_ids fmt
                                             - totals results task_ids (lit "json"))
                                   / inject_Z json_data * 100)%Q,
                                  totals results task_ids fmt - overhead results task_ids,
                                  json_data)]
                  else lines)) as Hstep.
  { intros lines fmt Hfmt. rewrite bool_decide_eq_false_2 by done.
    rewrite !Hdata. cbn [mbind result_bind]. fold json_data.
    destruct (Z.gtb_spec json_data 0) as [Hpos|Hneg]; [|done].
    rewrite truediv_nonzero by lia. cbn [mbind result_bind].
    replace (totals results task_ids fmt - overhead results task_ids - json_data)
      with (totals results task_ids fmt - totals results task_ids (lit "json"))
      by (unfold json_data; lia).
    done. }
  change FORMATS with [lit "tl"; lit "json"; lit "toon"].
  cbn [for_each]. rewrite (Hstep [] (lit "tl")) by (by intros [=]).
  cbn [mbind result_bind].
  rewrite (bool_decide_eq_true_2 (lit "json" = lit "json")) by done.
  cbn [mbind result_bind].
  rewrite Hstep by (by intros [=]).
  eexists. split; [done|].
  destruct (Z.gtb_spec json_data 0) as [Hpos|Hneg]; [|by constructor].
  cbn [app].
  apply Forall_cons. split; [split_and!; [by left|done|done|lia|done]|].
  apply Forall_cons. split; [split_and!; [by right|done|done|lia|done]|].
  constructor.
Qed.

End data_only.

(** ** More on the summary of validate_tokens.py *)

Section aggregation_more.
Import validate_tokens.
Implicit Types (cs : list counts) (xs l : list Q) (m lo hi : Q).

#[local] Instance Qle_trans_more : Transitive Qle := Qle_trans.
#[local] Instance Qle_total_more : Total Qle.
Proof. intros x y. destruct (Qlt_le_dec x y); [left; by apply Qlt_le_weak|by right]. Qed.

(** What the median expression of the script reads from a sorted list that
    is not empty: the middle item, or the two middle items. *)
Lemma middle_items l :
  StronglySorted Qle l -> l <> [] ->
  (len l mod 2 = 0
   /\ exists a b, getitem l (len l / 2 - 1) = Ok a /\ getitem l (len l / 2) = Ok b
                  /\ a ∈ l /\ b ∈ l /\ is_median ((a + b) / 2)%Q l)
  \/ (len l mod 2 <> 0
      /\ exists a, getitem l (len l / 2) = Ok a /\ a ∈ l /\ is_median a l).
Proof.
  intros Hs Hne.
  assert (0 < length l)%nat as Hpos by (destruct l; simpl; [done|lia]).
  unfold len. set (n := length l) in *.
  pose proof (Z.div_mod (Z.of_nat n) 2 ltac:(lia)) as Hdm.
  pose proof (Z.mod_pos_bound (Z.of_nat n) 2 ltac:(lia)) as Hmod.
  destruct (decide (Z.of_nat n mod 2 = 0)) as [Hev|Hodd].
  - left. split; [done|]. rewrite Hev in Hdm. set (q := Z.of_nat n / 2) in *.
    assert (exists k : nat, q = Z.of_nat (S k)) as [k Hk].
    { exists (Z.to_nat (q - 1)). lia. }
    destruct (lookup_lt_is_Some_2 l k) as [a Ha]; [lia|].
    destruct (lookup_lt_is_Some_2 l (S k)) as [b Hb]; [lia|].
    rewrite Hk. replace (Z.of_nat (S k) - 1) with (Z.of_nat k) by lia.
    exists a, b. split_and!.
    + by apply getitem_in_range.
    + by apply getitem_in_range.
    + by eapply list_elem_of_lookup_2.
    + by eapply list_elem_of_lookup_2.
    + apply (middle_mean_is_median l k); [done|lia|done|done].
  - right. split; [done|]. set (q := Z.of_nat n / 2) in *.
    assert (exists k : nat, q = Z.of_nat k) as [k Hk].
    { exists (Z.to_nat q). lia. }
    destruct (lookup_lt_is_Some_2 l k) as [a Ha]; [lia|].
    rewrite Hk. exists a. split_and!.
    + by apply getitem_in_range.
    + by eapply list_elem_of_lookup_2.
    + apply (middle_is_median l k); [done|lia|done].
Qed.

Lemma api_diff_step_spec (api_tokens : gmap str (gmap str Z)) (diffs : list Q) (r : row) :
  api_diff_step api_tokens diffs r = Ok (diffs ++ api_diffs api_tokens [r]).
Proof.
  unfold api_diff_step, api_diffs, reported. cbn [omap list_omap].
  destruct (api_tokens !! task_id (measured r)) as [inner|]; cbn [mbind option_bind];
    [|by rewrite app_nil_r].
  unfold dict_getitem.
  destruct (inner !! lit "openai") as [api_input|].
  - rewrite bool_decide_eq_true_2 by done. cbn [mbind result_bind].
    destruct (Z.gtb_spec api_input 0); [|by rewrite app_nil_r].
    by rewrite truediv_nonzero by lia.
  - rewrite bool_decide_eq_false_2 by (by intros [? ?]). by rewrite app_nil_r.
Qed.

Lemma api_diff_steps (api_tokens : gmap str (gmap str Z)) (rs : list row) (diffs : list Q) :
  for_each (api_diff_step api_tokens) rs diffs = Ok (diffs ++ api_diffs api_tokens rs).
Proof.
  revert diffs. induction rs as [|r rs IH]; intros diffs; cbn [for_each].
  - by rewrite app_nil_r.
  - rewrite api_diff_step_spec. cbn [mbind result_bind]. rewrite IH, <- app_assoc.
    f_equal. unfold api_diffs. by rewrite <- omap_app.
Qed.

(** X20: the median of the per-task API differences never raises, unlike
    the median of the savings: without a task that has a positive OpenAI
    report it is [None], and otherwise it is a median of the differences of
    those tasks. *)
Theorem median_api_diff_guarded (api_tokens : gmap str (gmap str Z)) (rs : list row) :
  exists r,
    median_api_diff api_tokens rs = Ok r
    /\ match r with
       | None => api_diffs api_tokens rs = []
       | Some m => api_diffs api_tokens rs <> []
                   /\ is_median m (api_diffs api_tokens rs)
       end.
Proof.
  unfold median_api_diff. rewrite api_diff_steps. cbn [mbind result_bind app].
  set (xs := api_diffs api_tokens rs).
  pose proof (sorted_strongly xs) as Hs. pose proof (sorted_perm xs) as Hp.
  case_bool_decide as Hnil; cbn [negb].
  - exists None. split; [done|]. rewrite Hnil in Hp. symmetry in Hp.
    by apply Permutation_nil_r in Hp.
  - assert (xs <> []) as Hxs.
    { intros Hx. apply Hnil. by rewrite Hx. }
    destruct (middle_items (sorted xs) Hs Hnil)
      as [[Hev (a & b & -> & -> & _ & _ & Hm)]|[Hodd (a & -> & _ & Hm)]].
    + rewrite Hev. cbn [mbind result_bind Z.eqb].
      eexists. split; [done|]. split; [done|]. by apply (is_median_perm _ (sorted xs)).
    + destruct (Z.eqb_spec (len (sorted xs) mod 2) 0); [done|].
      cbn [mbind result_bind].
      eexists. split; [done|]. split; [done|]. by apply (is_median_perm _ (sorted xs)).
Qed.

End aggregation_more.

Section weighted_mean.
Import validate_tokens.
Implicit Types (cs : list counts) (xs l : list Q) (t j u v lo hi : Q).

Lemma ratio_le t j u : (0 < j)%Q -> (t / j <= u <-> t <= u * j)%Q.
Proof.
  intros Hj. split; intros H.
  - apply (Qle_trans _ (t / j * j)); [|apply Qmult_le_compat_r; lra].
    rewrite Qmult_comm, Qmult_div_r by lra. apply Qle_refl.
  - apply Qle_shift_div_r; lra.
Qed.

Lemma ratio_ge t j u : (0 < j)%Q -> (u <= t / j <-> u * j <= t)%Q.
Proof.
  intros Hj. split; intros H.
  - apply (Qle_trans _ (t / j * j)); [apply Qmult_le_compat_r; lra|].
    rewrite Qmult_comm, Qmult_div_r by lra. apply Qle_refl.
  - apply Qle_shift_div_l; lra.
Qed.

(** A percentage of savings lies between two bounds exactly when the TL
    tokens lie between the matching shares of the JSON tokens. *)
Lemma savings_between t j lo hi :
  (0 < j)%Q ->
  (lo <= (1 - t / j) * 100 <= hi
   <-> (1 - hi * (1 # 100)) * j <= t <= (1 - lo * (1 # 100)) * j)%Q.
Proof.
  intros Hj.
  pose proof (ratio_le t j (1 - lo * (1 # 100)) Hj) as Hle.
  pose proof (ratio_ge t j (1 - hi * (1 # 100)) Hj) as Hge.
  remember (t / j)%Q as x eqn:Hx. clear Hx.
  split; intros [H1 H2]; split.
  - apply Hge. lra.
  - apply Hle. lra.
  - apply Hge in H1. lra.
  - apply Hle in H2. lra.
Qed.

Lemma inject_Z_pos (z : Z) : 0 < z -> (0 < inject_Z z)%Q.
Proof. intros H. unfold Qlt. simpl. lia. Qed.

Lemma total_of_cons (f : counts -> Z) c cs :
  total_of f (c :: cs) = f c + total_of f cs.
Proof. done. Qed.

Lemma total_json_pos cs :
  cs <> [] -> Forall (fun c => 0 < json_data_tokens c) cs ->
  0 < total_of json_data_tokens cs.
Proof.
  intros Hne Hpos. destruct cs as [|c cs]; [done|].
  apply Forall_cons in Hpos as [Hc Hpos]. rewrite total_of_cons.
  assert (0 <= total_of json_data_tokens cs); [|lia].
  clear Hne Hc. induction Hpos as [|c' cs' Hc' _ IH]; [done|].
  rewrite total_of_cons. cbv beta in Hc'. lia.
Qed.

Lemma total_between cs u v :
  Forall (fun c => (u * inject_Z (json_data_tokens c) <= inject_Z (tl_data_tokens c)
                    <= v * inject_Z (json_data_tokens c))%Q) cs ->
  (u * inject_Z (total_of json_data_tokens cs)
   <= inject_Z (total_of tl_data_tokens cs)
   <= v * inject_Z (total_of json_data_tokens cs))%Q.
Proof.
  induction 1 as [|c cs [Hc1 Hc2] _ [IH1 IH2]].
  - unfold total_of. cbn [foldr]. change (inject_Z 0) with 0%Q. lra.
  - rewrite !total_of_cons, !inject_Z_plus. cbv beta in Hc1, Hc2.
    rewrite !Qmult_plus_distr_r. lra.
Qed.

(** X21: when every task has JSON data tokens, the two savings figures of
    the summary, the weighted total and the median, both lie between the
    smallest and the largest per-task savings. *)
Theorem summary_between_extremes cs lo hi :
  cs <> [] ->
  Forall (fun c => 0 < json_data_tokens c) cs ->
  Forall (fun c => (lo <= per_task_pct c <= hi)%Q) cs ->
  exists weighted median,
    summary cs = Ok (weighted, median)
    /\ (lo <= weighted <= hi)%Q /\ (lo <= median <= hi)%Q.
Proof.
  intros Hne Hpos Hin. unfold summary. rewrite run_tasks_totals.
  cbn [mbind result_bind]. unfold total_data_savings, median_savings.
  cbn [total_tl_data_tokens total_json_data_tokens results].
  rewrite savings_guarded. cbn [mbind result_bind].
  pose proof (total_json_pos cs Hne Hpos) as HJ.
  destruct (Z.gtb_spec (total_of json_data_tokens cs) 0) as [_|?]; [|lia].
  rewrite <- list_fmap_compose.
  set (xs := (data_savings_pct ∘ (fun c => Row c (per_task_pct c))) <$> cs).
  assert (Forall (fun x => (lo <= x <= hi)%Q) xs) as Hxs.
  { subst xs. apply Forall_fmap. eapply Forall_impl; [exact Hin|]. by intros c Hc. }
  assert (Forall (fun x => (lo <= x <= hi)%Q) (sorted xs)) as Hsorted
    by (by rewrite sorted_perm).
  assert (sorted xs <> []) as Hnil.
  { intros Hx. pose proof (sorted_perm xs) as Hp. rewrite Hx in Hp.
    symmetry in Hp. apply Permutation_nil_r in Hp. subst xs. by destruct cs. }
  assert (lo <= (1 - inject_Z (total_of tl_data_tokens cs)
                     / inject_Z (total_of json_data_tokens cs)) * 100 <= hi)%Q
    as Hweighted.
  { apply savings_between; [by apply inject_Z_pos|]. apply total_between.
    apply Forall_forall. intros c Hc.
    pose proof (proj1 (Forall_forall _ _) Hpos c Hc) as Hj.
    pose proof (proj1 (Forall_forall _ _) Hin c Hc) as Hp. cbv beta in Hj, Hp.
    unfold per_task_pct in Hp.
    destruct (Z.gtb_spec (json_data_tokens c) 0) as [_|?]; [|lia].
    apply savings_between; [by apply inject_Z_pos|done]. }
  destruct (middle_items (sorted xs) (sorted_strongly xs) Hnil)
    as [[Hev (a & b & -> & -> & Ha & Hb & _)]|[Hodd (a & -> & Ha & _)]].
  - rewrite Hev. cbn [mbind result_bind Z.eqb].
    eexists _, _. split; [done|]. split; [done|].
    pose proof (proj1 (Forall_forall _ _) Hsorted a Ha) as Ha'.
    pose proof (proj1 (Forall_forall _ _) Hsorted b Hb) as Hb'. cbv beta in Ha', Hb'.
    split; [apply Qle_shift_div_l|apply Qle_shift_div_r]; lra.
  - destruct (Z.eqb_spec (len (sorted xs) mod 2) 0); [done|].
    eexists _, _. split; [done|]. split; [done|].
    by apply (proj1 (Forall_forall _ _) Hsorted a Ha).
Qed.

Lemma summary_between_extremes_witness :
  exists weighted median,
    summary other_savings = Ok (weighted, median)
    /\ (50 <= weighted <= 75)%Q /\ (50 <= median <= 75)%Q.
Proof.
  apply (summary_between_extremes other_savings 50 75).
  - done.
  - repeat constructor.
  - repeat constructor; by vm_compute.
Defined.

End weighted_mean.

(** ** The input tokens that generate_charts.py loads *)

Section input_tokens.
Import generate_charts.
Implicit Types (tokens : gmap str (gmap (str * str) Z)) (m : list str).
Implicit Types (rs : list (str * str * str * Z)).

(** The fourth group of a match of [RESPONSE_ROW] is a non-empty run of
    digits, so that [int] converts it. *)
Lemma response_input_tokens (s : str) (n : nat) m :
  re.match_at RESPONSE_ROW s = Some (n, m) ->
  int (re.group m 4) = Ok (decimal (re.group m 4)).
Proof.
  unfold re.match_at. destruct (re.match_here _ _) as [ns|] eqn:Hm; [|done].
  intros [= _ <-]. apply match_here_matched in Hm.
  destruct (matched_atom _ _ _ 21 (re.d re.Plus) Hm eq_refl)
    as (k & Hk & Hlo & Hlen & Hdigits).
  unfold re.group.
  cbn [lookup list_lookup fmap list_fmap re.groups RESPONSE_ROW default].
  unfold id.
  rewrite (group_text_one _ _ _ _ Hk). unfold int.
  simpl in Hlo, Hdigits. rewrite Hdigits.
  case_bool_decide as Hnil; [|done].
  rewrite Hnil in Hlen. simpl in Hlen. lia.
Qed.

Lemma finditer_responses_convert (text : str) :
  Forall (fun m => int (re.group m 4) = Ok (decimal (re.group m 4)))
         (re.finditer RESPONSE_ROW text).
Proof.
  apply Forall_forall. intros m Hm.
  apply finditer_from_elem in Hm as (s & n & Hm). by eapply response_input_tokens.
Qed.

(** One pass of the loop adds the row's count to the entry of its domain,
    provider and format, which starts from 0, and leaves every other entry
    as it was. *)
Lemma record_response_spec tokens m :
  int (re.group m 4) = Ok (decimal (re.group m 4)) ->
  exists tokens',
    record_response tokens m = Ok tokens'
    /\ (forall d, tokens' !! d = None
                  <-> tokens !! d = None /\ _task_id_to_domain (re.group m 1) <> d)
    /\ forall d p f,
         input_tokens_of tokens' d p f
         = if bool_decide (_task_id_to_domain (re.group m 1) = d
                           /\ re.group m 2 = p /\ re.group m 3 = f)
           then Some (default 0 (input_tokens_of tokens d p f)
                      + decimal (re.group m 4))
           else input_tokens_of tokens d p f.
Proof.
  intros Hint. unfold record_response. rewrite Hint.
  set (t := _task_id_to_domain (re.group m 1)).
  set (p := re.group m 2). set (f := re.group m 3). set (v := decimal (re.group m 4)).
  set (tokens1 := if bool_decide (tokens !! t = None) then <[t:=∅]> tokens else tokens).
  assert (exists inner, tokens1 !! t = Some inner
                        /\ forall k, inner !! k = tokens !! t ≫= (.!! k))
    as (inner & Hin & Hinner).
  { subst tokens1. case_bool_decide as Hnone.
    - exists ∅. rewrite lookup_insert_eq, Hnone. by split.
    - destruct (tokens !! t) as [inner|] eqn:Ht; [|done]. by exists inner. }
  assert (forall t', t' <> t -> tokens1 !! t' = tokens !! t') as Hother.
  { intros t' Ht'. subst tokens1. case_bool_decide; [|done].
    by rewrite lookup_insert_ne. }
  unfold dict_getitem. rewrite Hin. cbn [mbind result_bind].
  eexists. split; [done|]. split.
  - intros d. destruct (decide (t = d)) as [<-|Hne].
    + rewrite lookup_insert_eq. split; [done|]. by intros [_ ?].
    + rewrite lookup_insert_ne by done. rewrite Hother by done.
      split; [by intros ?|by intros [? _]].
  - intros d p' f'. unfold input_tokens_of.
    destruct (decide (t = d)) as [<-|Hne].
    + rewrite lookup_insert_eq. cbn [mbind option_bind].
      destruct (decide ((p, f) = (p', f'))) as [[= <- <-]|Hnk].
      * rewrite lookup_insert_eq, bool_decide_eq_true_2 by done.
        by rewrite Hinner.
      * rewrite lookup_insert_ne by done.
        rewrite bool_decide_eq_false_2 by (intros (_ & <- & <-); done).
        apply Hinner.
    + rewrite lookup_insert_ne by done. rewrite Hother by done.
      by rewrite bool_decide_eq_false_2 by (intros [? _]; done).
Qed.

Lemma tokens_for_snoc d p f rs r :
  tokens_for d p f (rs ++ [r])
  = tokens_for d p f rs
    ++ (if bool_decide (r.1.1.1 = d /\ r.1.1.2 = p /\ r.1.2 = f) then [r.2] else []).
Proof.
  unfold tokens_for. rewrite omap_app. simpl. by case_bool_decide.
Qed.

Lemma sum_if_any_snoc (xs : list Z) (n : Z) :
  sum_if_any (xs ++ [n]) = Some (default 0 (sum_if_any xs) + n).
Proof.
  assert (foldr Z.add 0 (xs ++ [n]) = foldr Z.add 0 xs + n) as Hsum.
  { induction xs as [|x xs IH]; simpl; lia. }
  destruct xs as [|x xs]; [simpl; f_equal; lia|].
  unfold sum_if_any. cbn [app default]. rewrite app_comm_cons, Hsum. done.
Qed.

(** The loop over any matches that convert: it does not raise, it holds a
    domain exactly when a row has it, and each entry holds the sum of the
    counts of the rows of its domain, provider and format. *)
Lemma record_responses_sum (ms : list (list str)) :
  Forall (fun m => int (re.group m 4) = Ok (decimal (re.group m 4))) ms ->
  let rs := (fun m => (_task_id_to_domain (re.group m 1),
                       re.group m 2, re.group m 3, decimal (re.group m 4)))
              <$> ms in
  exists tokens,
    for_each record_response ms ∅ = Ok tokens
    /\ (forall d, tokens !! d = None <-> d ∉ domain_of <$> rs)
    /\ forall d p f,
         input_tokens_of tokens d p f = sum_if_any (tokens_for d p f rs).
Proof.
  induction ms as [|m ms IH] using rev_ind; intros Hall; cbv zeta.
  - exists ∅. split; [done|]. split.
    + intros d. rewrite lookup_empty. split; [|done]. intros _ ?%elem_of_nil. done.
    + intros. unfold input_tokens_of. by rewrite lookup_empty.
  - apply Forall_app in Hall as [Hms Hm]. apply Forall_cons in Hm as [Hm _].
    destruct (IH Hms) as (tokens & Hrun & Hdom & Hsum).
    destruct (record_response_spec tokens m Hm) as (tokens' & Hstep & Hdom' & Hnew).
    exists tokens'. rewrite for_each_snoc, Hrun. cbn [mbind result_bind].
    split; [done|]. rewrite !fmap_app. cbn [fmap list_fmap]. split.
    + intros d. rewrite Hdom', Hdom, not_elem_of_app.
      rewrite list_elem_of_singleton. unfold domain_of at 3. cbn [fst].
      split; intros [? Hx]; (split; [done|congruence]).
    + intros d p f. rewrite Hnew, Hsum, tokens_for_snoc. cbn [fst snd].
      case_bool_decide.
      * by rewrite sum_if_any_snoc.
      * by rewrite app_nil_r.
Qed.

(** X22: the input tokens [load_from_results_dir] accumulates from any
    document.  The loop raises no error; it holds a domain exactly when a
    matching row of the responses section has it; and for each domain,
    provider and format it holds the sum of the input tokens of all the
    matching rows, not the last one. *)
Theorem domain_tokens_sums (text : str) :
  exists tokens,
    domain_tokens text = Ok tokens
    /\ (forall d, tokens !! d = None <-> d ∉ domain_of <$> response_rows text)
    /\ forall d p f,
         input_tokens_of tokens d p f
         = sum_if_any (tokens_for d p f (response_rows text)).
Proof. apply record_responses_sum, finditer_responses_convert. Qed.

End input_tokens.

Section savings_bars.
Import generate_charts.
Implicit Types (domain_data : list (str * gmap (str * str) Z)).

(** A loop that collects results raises what the first failing pass
    raises, and gives one result per item when no pass fails. *)
Lemma mapM_cases {A B} (f : A -> result B) (bad : exn -> A -> Prop) (l : list A) :
  (forall x, x ∈ l -> (exists e, bad e x /\ f x = Raise e)
                      \/ ((forall e, ~ bad e x) /\ exists y, f x = Ok y)) ->
  (exists ys, mapM f l = Ok ys
              /\ Forall2 (fun x y => f x = Ok y) l ys
              /\ Forall (fun x => forall e, ~ bad e x) l)
  \/ (exists e, mapM f l = Raise e /\ Exists (bad e) l).
Proof.
  induction l as [|x l IH]; intros Hf.
  - left. exists []. by split_and!.
  - cbn [mapM].
    destruct (Hf x) as [(e & Hbad & ->)|[Hgood [y Hy]]]; [apply list_elem_of_here|..];
      [|rewrite Hy]; cbn [mbind result_bind].
    + right. exists e. split; [done|]. by apply Exists_cons_hd.
    + destruct IH as [(ys & -> & Hall2 & Hall)|(e & -> & Hex)].
      * intros x' Hx'. by apply Hf, list_elem_of_further.
      * left. exists (y :: ys). cbn [mbind result_bind mret result_ret].
        split_and!; [done|by constructor|by constructor].
      * right. exists e. split; [done|]. by apply Exists_cons_tl.
Qed.

Lemma int_truediv_cases (a b : Z) :
  (b = 0 /\ int_truediv a b = Raise ZeroDivisionError)
  \/ (b <> 0 /\ (2 ^ 1024 - 2 ^ 970) * Z.abs b <= Z.abs a
      /\ int_truediv a b = Raise OverflowError)
  \/ (b <> 0 /\ Z.abs a < (2 ^ 1024 - 2 ^ 970) * Z.abs b
      /\ int_truediv a b = Ok (inject_Z a / inject_Z b)%Q).
Proof.
  unfold int_truediv. fold FLOAT_OVERFLOW.
  destruct (Z.eqb_spec b 0) as [->|Hb]; [by left|right].
  destruct (Z.leb_spec (FLOAT_OVERFLOW * Z.abs b) (Z.abs a)); [by left|by right].
Qed.

Lemma savings_pct_cases (g : str * str) (d : str * gmap (str * str) Z) :
  (exists e, bar_fails g e d /\ savings_pct d.2 g.1 g.2 = Raise e)
  \/ ((forall e, ~ bar_fails g e d) /\ exists q, savings_pct d.2 g.1 g.2 = Ok q).
Proof.
  unfold savings_pct. cbv zeta.
  destruct (int_truediv_cases (default 1 (d.2 !! (g.1, g.2)))
              (default 1 (d.2 !! (g.1, lit "json"))))
    as [[Hz ->]|[(Hnz & Hbig & ->)|(Hnz & Hsmall & ->)]]; cbn [mbind result_bind].
  - left. exists ZeroDivisionError. split; [|done]. cbn [bar_fails].
    revert Hz. destruct (d.2 !! (g.1, lit "json")) as [n|]; cbn [default];
      [unfold id; by intros ->|done].
  - left. exists OverflowError. by split.
  - right. split; [|by eexists]. intros [] Hbad; cbn [bar_fails] in Hbad; try done.
    + rewrite Hbad in Hnz. by apply Hnz.
    + destruct Hbad as [_ Hbig]. lia.
Qed.

(** X23: the bars of [plot_token_savings] on any domain data.  The
    function computes four groups of bars, one bar per domain, exactly when
    no domain stores a JSON count of 0 for Anthropic or for OpenAI (a count
    that is missing is read as 1) and no quotient of a count by its JSON
    count is too large for a float.  It raises [ZeroDivisionError] only
    when there is such a count of 0, [OverflowError] only when there is
    such a quotient, and nothing else. *)
Theorem plot_token_savings_outcomes domain_data :
  (~ zero_json domain_data /\ ~ too_large domain_data
   /\ exists bars,
        plot_token_savings domain_data = Ok bars
        /\ length bars = 4%nat
        /\ Forall (fun group => length group = length domain_data) bars)
  \/ (zero_json domain_data
      /\ plot_token_savings domain_data = Raise ZeroDivisionError)
  \/ (too_large domain_data
      /\ plot_token_savings domain_data = Raise OverflowError).
Proof.
  unfold plot_token_savings.
  set (inner := fun g : str * str =>
                  mapM (fun d : str * gmap (str * str) Z => savings_pct d.2 g.1 g.2)
                       domain_data).
  set (bad := fun (e : exn) (g : str * str) => Exists (bar_fails g e) domain_data).
  assert (forall g,
            (exists e, bad e g /\ inner g = Raise e)
            \/ ((forall e, ~ bad e g)
                /\ exists ys, inner g = Ok ys /\ length ys = length domain_data))
    as Hinner.
  { intros g. subst inner bad. cbv beta.
    destruct (mapM_cases (fun d : str * gmap (str * str) Z => savings_pct d.2 g.1 g.2)
                (bar_fails g) domain_data) as [(ys & -> & Hall2 & Hall)|(e & -> & Hex)].
    - intros d _. apply savings_pct_cases.
    - right. split; [|exists ys; split; [done|]; symmetry; by eapply Forall2_length].
      intros e Hex. apply Exists_exists in Hex as (d & Hd & Hbad).
      by apply (proj1 (Forall_forall _ _) Hall d Hd e).
    - left. by exists e. }
  assert (forall g, g ∈ savings_groups ->
                    g.1 ∈ [lit "anthropic"; lit "openai"]) as Hproviders.
  { intros g Hg. unfold savings_groups in Hg.
    repeat (apply elem_of_cons in Hg as [->|Hg];
            [cbn [fst]; (apply list_elem_of_here
                         || apply list_elem_of_further, list_elem_of_here)|]).
    by apply elem_of_nil in Hg. }
  destruct (mapM_cases inner bad savings_groups)
    as [(bars & Hbars & Hall2 & Hall)|(e & Hraise & Hex)].
  - intros g _. destruct (Hinner g) as [?|[? (ys & ? & _)]]; [by left|right].
    split; [done|by exists ys].
  - left. split_and!.
    + intros (d & provider & Hd & Hp & Hz).
      apply (proj1 (Forall_forall _ _) Hall (provider, lit "tl")) with ZeroDivisionError.
      * apply elem_of_cons in Hp as [->|Hp]; [apply list_elem_of_here|].
        apply list_elem_of_singleton in Hp as ->.
        do 2 apply list_elem_of_further. apply list_elem_of_here.
      * subst bad. cbv beta. apply Exists_exists. by exists d.
    + intros (d & provider & fmt & Hd & Hg & Hnz & Hbig).
      apply (proj1 (Forall_forall _ _) Hall (provider, fmt) Hg) with OverflowError.
      subst bad. cbv beta. apply Exists_exists. exists d. by split.
    + exists bars. split; [done|].
      pose proof (Forall2_length _ _ _ Hall2) as Hlen. split; [by rewrite <- Hlen|].
      apply Forall_forall. intros ys Hys.
      apply list_elem_of_lookup in Hys as [i Hi].
      destruct (Forall2_lookup_r _ _ _ _ _ Hall2 Hi) as (g & _ & Hg).
      destruct (Hinner g) as [(e & _ & He)|[_ (ys' & Hys' & Hlen')]]; congruence.
  - right. apply Exists_exists in Hex as (g & Hg & Hbad). subst bad. cbv beta in Hbad.
    apply Exists_exists in Hbad as (d & Hd & Hfails).
    destruct e; cbn [bar_fails] in Hfails; try done.
    + left. split; [|done]. exists d, g.1. split_and!; [done|by apply Hproviders|done].
    + right. split; [|done]. destruct Hfails as [Hnz Hbig].
      exists d, g.1, g.2. split_and!; [done|by destruct g|done|done].
Qed.

End savings_bars.

Section domains.
Import generate_charts.
Implicit Types (s a b prefix n : str) (sep : ascii).

Lemma after_first_absent sep s : sep ∉ s -> after_first sep s = None.
Proof.
  induction s as [|c s IH]; [done|]. intros Hs. cbn [after_first].
  apply not_elem_of_cons in Hs as [Hc Hs].
  rewrite bool_decide_eq_false_2 by done. by apply IH.
Qed.

Lemma after_first_app sep a b : sep ∉ a -> after_first sep (a ++ sep :: b) = Some b.
Proof.
  induction a as [|c a IH]; intros Ha; cbn [after_first app].
  - by rewrite bool_decide_eq_true_2.
  - apply not_elem_of_cons in Ha as [Hc Ha].
    rewrite bool_decide_eq_false_2 by done. by apply IH.
Qed.

Lemma rsplit1_head_last sep a b :
  sep ∉ b -> rsplit1_head (a ++ sep :: b) sep = a.
Proof.
  intros Hb. unfold rsplit1_head. rewrite reverse_app, reverse_cons, <- app_assoc.
  cbn [app]. rewrite after_first_app by (by rewrite elem_of_reverse).
  by rewrite reverse_involutive.
Qed.

Lemma rsplit1_head_absent sep s : sep ∉ s -> rsplit1_head s sep = s.
Proof.
  intros Hs. unfold rsplit1_head.
  by rewrite after_first_absent by (by rewrite elem_of_reverse).
Qed.

(** X24: the domain of a task ID is looked up by the text before its last
    hyphen, whatever follows that hyphen; a task ID without a hyphen is
    looked up as a whole; and a text that the table does not hold is its
    own domain. *)
Theorem task_id_to_domain_last_hyphen prefix n :
  re.HYPHEN ∉ n ->
  _task_id_to_domain (prefix ++ re.HYPHEN :: n)
  = default prefix (items_get TASK_PREFIX_TO_DOMAIN prefix)
  /\ _task_id_to_domain n = default n (items_get TASK_PREFIX_TO_DOMAIN n).
Proof.
  intros Hn. unfold _task_id_to_domain.
  by rewrite rsplit1_head_last, rsplit1_head_absent.
Qed.

Lemma task_id_to_domain_last_hyphen_witness :
  _task_id_to_domain (lit "RE" ++ re.HYPHEN :: lit "001")
  = default (lit "RE") (items_get TASK_PREFIX_TO_DOMAIN (lit "RE"))
  /\ _task_id_to_domain (lit "001")
     = default (lit "001") (items_get TASK_PREFIX_TO_DOMAIN (lit "001")).
Proof.
  apply (task_id_to_domain_last_hyphen (lit "RE") (lit "001")).
  intros H. vm_compute in H.
  repeat (apply elem_of_cons in H as [H|H]; [done|]). by apply elem_of_nil in H.
Defined.

End domains.

(** ** The accuracy scores that generate_charts.py loads *)

Section scores.
Import generate_charts.
Implicit Types (scores : gmap str (gmap (str * str) (list Q))) (m : list str).
Implicit Types (rs : list (str * str * str * list str)) (s : str).

Lemma length_filter_dots s :
  length s
  = (length (filter (fun c => c = DOT) s) + length (filter (fun c => c <> DOT) s))%nat.
Proof.
  unfold str in *. induction s as [|c s IH]; [done|].
  destruct (decide (c = DOT)) as [Hc|Hc].
  - rewrite (filter_cons_True (fun c => c = DOT)) by done.
    rewrite (filter_cons_False (fun c => c <> DOT)) by (by intros ?).
    simpl. lia.
  - rewrite (filter_cons_False (fun c => c = DOT)) by done.
    rewrite (filter_cons_True (fun c => c <> DOT)) by done.
    simpl. lia.
Qed.

Lemma digits_some s :
  forallb (fun c => is_digit c || bool_decide (c = DOT)) s = true ->
  filter (fun c => c <> DOT) s <> [] <-> Exists (fun c => is_digit c = true) s.
Proof.
  unfold str in *. intros Hcls. rewrite forallb_forall in Hcls. split.
  - intros Hne. destruct (filter (fun c => c <> DOT) s) as [|c l] eqn:Hf; [done|].
    assert (c ∈ filter (fun c => c <> DOT) s) as Hc by (rewrite Hf; apply list_elem_of_here).
    apply list_elem_of_filter in Hc as [Hdot Hin].
    apply Exists_exists. exists c. split; [done|].
    apply list_elem_of_In, Hcls in Hin. apply orb_true_iff in Hin as [?|Hd]; [done|].
    by apply bool_decide_eq_true in Hd.
  - intros (c & Hin & Hd)%Exists_exists Hnil.
    assert (c ∈ filter (fun c => c <> DOT) s) as Hc.
    { apply list_elem_of_filter. split; [|done]. by intros ->. }
    rewrite Hnil in Hc. by apply elem_of_nil in Hc.
Qed.

(** On a text of digits and dots, [float] raises [ValueError] exactly when
    the text is no literal. *)
Lemma float_cases s :
  forallb (fun c => is_digit c || bool_decide (c = DOT)) s = true ->
  (float_literal s /\ float s = Ok (score_value s))
  \/ (~ float_literal s /\ float s = Raise ValueError).
Proof.
  intros Hcls. pose proof (digits_some s Hcls) as Hdigits.
  pose proof (length_filter_dots s) as Hlen.
  unfold score_value, float_literal, float. rewrite Hcls. cbn [andb].
  case_bool_decide as Hdots; cbn [andb]; [|right; split; [|done]; intros [? _]; lia].
  case_bool_decide as Hnil; cbn [negb].
  - right. split; [|done]. intros [_ Hex]. by apply Hdigits in Hex.
  - left. split; [|done]. split; [lia|]. by apply Hdigits.
Qed.

(** The four score groups of a match of [ANALYSIS_ROW] are texts of digits
    and dots. *)
Lemma analysis_scores_class (s : str) (n : nat) m :
  re.match_at ANALYSIS_ROW s = Some (n, m) ->
  Forall (fun i => forallb (fun c => is_digit c || bool_decide (c = DOT))
                           (re.group m i) = true) [4; 5; 6; 7]%nat.
Proof.
  unfold re.match_at. destruct (re.match_here _ _) as [ns|] eqn:Hm; [|done].
  intros [= _ <-]. apply match_here_matched in Hm.
  destruct (matched_atom _ _ _ 16 score Hm eq_refl) as (k4 & Hk4 & _ & _ & H4).
  destruct (matched_atom _ _ _ 19 score Hm eq_refl) as (k5 & Hk5 & _ & _ & H5).
  destruct (matched_atom _ _ _ 22 score Hm eq_refl) as (k6 & Hk6 & _ & _ & H6).
  destruct (matched_atom _ _ _ 25 score Hm eq_refl) as (k7 & Hk7 & _ & _ & H7).
  unfold re.group.
  cbn [lookup list_lookup fmap list_fmap re.groups ANALYSIS_ROW default].
  unfold id.
  rewrite (group_text_one _ _ _ _ Hk4), (group_text_one _ _ _ _ Hk5),
    (group_text_one _ _ _ _ Hk6), (group_text_one _ _ _ _ Hk7).
  repeat constructor; done.
Qed.

Lemma finditer_scores_class (text : str) :
  Forall (fun m =>
            Forall (fun i => forallb (fun c => is_digit c || bool_decide (c = DOT))
                                     (re.group m i) = true) [4; 5; 6; 7]%nat)
         (re.finditer ANALYSIS_ROW text).
Proof.
  apply Forall_forall. intros m Hm.
  apply finditer_from_elem in Hm as (s & n & Hm). by eapply analysis_scores_class.
Qed.

(** The conversion of the scores of a row: it raises [ValueError] when one
    of them is no literal, and gives their values otherwise. *)
Lemma mapM_scores m (l : list nat) :
  Forall (fun i => forallb (fun c => is_digit c || bool_decide (c = DOT))
                           (re.group m i) = true) l ->
  (Exists (fun s => ~ float_literal s) (re.group m <$> l)
   /\ mapM (fun i => float (re.group m i)) l = Raise ValueError)
  \/ (Forall float_literal (re.group m <$> l)
      /\ mapM (fun i => float (re.group m i)) l
         = Ok (score_value <$> (re.group m <$> l))).
Proof.
  induction 1 as [|i l Hi _ IH]; [right; by split|].
  cbn [mapM fmap list_fmap].
  destruct (float_cases _ Hi) as [[Hlit ->]|[Hbad ->]]; cbn [mbind result_bind].
  - destruct IH as [[Hex ->]|[Hall ->]]; cbn [mbind result_bind].
    + left. split; [by apply Exists_cons_tl|done].
    + right. split; [by constructor|done].
  - left. split; [by apply Exists_cons_hd|done].
Qed.

Lemma truediv_by_count (a : Q) (n : Z) :
  n <> 0 -> truediv a (inject_Z n) = Ok (a / inject_Z n)%Q.
Proof.
  intros Hn. unfold truediv.
  destruct (Qeq_bool (inject_Z n) 0) eqn:Heq; [|done].
  apply Qeq_bool_iff in Heq. unfold Qeq in Heq. simpl in Heq. lia.
Qed.

Lemma mean_average (xs : list Q) : xs <> [] -> mean xs = Ok (average xs).
Proof.
  intros Hne. unfold mean, average. apply truediv_by_count.
  unfold len. destruct xs; [done|]. simpl. lia.
Qed.

(** One pass of the loop over the analysis rows. *)
Lemma record_score_cases m :
  Forall (fun i => forallb (fun c => is_digit c || bool_decide (c = DOT))
                           (re.group m i) = true) [4; 5; 6; 7]%nat ->
  let r := (_task_id_to_domain (re.group m 1), re.group m 2, re.group m 3,
            re.group m <$> [4; 5; 6; 7]%nat) in
  (bad_scores r /\ forall scores, record_score scores m = Raise ValueError)
  \/ (~ bad_scores r
      /\ forall scores,
           exists scores',
             record_score scores m = Ok scores'
             /\ forall d p f,
                  scores_of scores' d p f
                  = if bool_decide (r.1.1.1 = d /\ r.1.1.2 = p /\ r.1.2 = f)
                    then Some (default [] (scores_of scores d p f)
                               ++ [average (score_value <$> r.2)])
                    else scores_of scores d p f).
Proof.
  intros Hcls. cbv zeta. unfold bad_scores. cbn [fst snd].
  destruct (mapM_scores m _ Hcls) as [[Hex Hraise]|[Hall Hok]].
  - left. split; [done|]. intros scores. unfold record_score. by rewrite Hraise.
  - right. split.
    { intros Hex. apply Exists_exists in Hex as (s & Hs & Hbad).
      by apply Hbad, (proj1 (Forall_forall _ _) Hall). }
    intros scores. unfold record_score. rewrite Hok. cbn [mbind result_bind].
    rewrite mean_average by done. cbn [mbind result_bind].
    set (t := _task_id_to_domain (re.group m 1)).
    set (p := re.group m 2). set (f := re.group m 3).
    set (v := average _).
    set (scores1 := if bool_decide (scores !! t = None)
                    then <[t:=∅]> scores else scores).
    assert (exists inner, scores1 !! t = Some inner
                          /\ forall k, inner !! k = scores !! t ≫= (.!! k))
      as (inner & Hin & Hinner).
    { subst scores1. case_bool_decide as Hnone.
      - exists ∅. rewrite lookup_insert_eq, Hnone. by split.
      - destruct (scores !! t) as [inner|] eqn:Ht; [|done]. by exists inner. }
    assert (forall t', t' <> t -> scores1 !! t' = scores !! t') as Hother.
    { intros t' Ht'. subst scores1. case_bool_decide; [|done].
      by rewrite lookup_insert_ne. }
    unfold dict_getitem. rewrite Hin. cbn [mbind result_bind].
    eexists. split; [done|].
    intros d p' f'. unfold scores_of.
    destruct (decide (t = d)) as [<-|Hne].
    + rewrite lookup_insert_eq. cbn [mbind option_bind].
      destruct (decide ((p, f) = (p', f'))) as [[= <- <-]|Hnk].
      * rewrite lookup_insert_eq, bool_decide_eq_true_2 by done.
        by rewrite Hinner.
      * rewrite lookup_insert_ne by done.
        rewrite bool_decide_eq_false_2 by (intros (_ & <- & <-); done).
        apply Hinner.
    + rewrite lookup_insert_ne by done. rewrite Hother by done.
      by rewrite bool_decide_eq_false_2 by (intros [? _]; done).
Qed.

Lemma averages_for_snoc d p f rs r :
  averages_for d p f (rs ++ [r])
  = averages_for d p f rs
    ++ (if bool_decide (r.1.1.1 = d /\ r.1.1.2 = p /\ r.1.2 = f)
        then [average (score_value <$> r.2)] else []).
Proof.
  unfold averages_for. rewrite omap_app. simpl. by case_bool_decide.
Qed.

Lemma if_any_snoc {A} (xs : list A) (x : A) :
  if_any (xs ++ [x]) = Some (default [] (if_any xs) ++ [x]).
Proof. by destruct xs. Qed.

(** The loop over any matches whose score groups are texts of digits and
    dots: it raises [ValueError] when a row has a score that is no literal,
    and otherwise holds, for each domain, provider and format, the averages
    of the rows in document order. *)
Lemma record_scores_outcomes (ms : list (list str)) :
  Forall (fun m =>
            Forall (fun i => forallb (fun c => is_digit c || bool_decide (c = DOT))
                                     (re.group m i) = true) [4; 5; 6; 7]%nat) ms ->
  let rs := (fun m => (_task_id_to_domain (re.group m 1), re.group m 2,
                       re.group m 3, re.group m <$> [4; 5; 6; 7]%nat)) <$> ms in
  (Exists bad_scores rs /\ for_each record_score ms ∅ = Raise ValueError)
  \/ (Forall (fun r => ~ bad_scores r) rs
      /\ exists scores,
           for_each record_score ms ∅ = Ok scores
           /\ forall d p f,
                scores_of scores d p f = if_any (averages_for d p f rs)).
Proof.
  induction ms as [|m ms IH] using rev_ind; intros Hall; cbv zeta.
  - right. split; [by constructor|]. exists ∅. split; [done|].
    intros. unfold scores_of. by rewrite lookup_empty.
  - apply Forall_app in Hall as [Hms Hm]. apply Forall_cons in Hm as [Hm _].
    rewrite fmap_app, for_each_snoc. cbn [fmap list_fmap].
    destruct (IH Hms) as [[Hex ->]|(Hgood & scores & -> & Hsum)].
    + left. split; [|done]. apply Exists_app. by left.
    + cbn [mbind result_bind].
      destruct (record_score_cases m Hm) as [[Hbad Hraise]|[Hok Hstep]].
      * left. split; [|by apply Hraise]. apply Exists_app. right.
        by apply Exists_cons_hd.
      * right. split.
        { apply Forall_app. split; [done|]. by repeat constructor. }
        destruct (Hstep scores) as (scores' & -> & Hnew).
        exists scores'. split; [done|]. intros d p f.
        rewrite Hnew, Hsum, averages_for_snoc. cbn [fst snd].
        case_bool_decide.
        -- by rewrite if_any_snoc.
        -- by rewrite app_nil_r.
Qed.

(** X25: the loop of [load_from_results_dir] over the analysis rows.  The
    pattern of a score admits any text of digits and dots, and the loop
    raises [ValueError] exactly when a matching row has a score with more
    than one dot or without a digit; it raises nothing else.  Otherwise it
    holds, for each domain, provider and format, the averages of the four
    scores of the matching rows, one per row, in document order. *)
Theorem domain_scores_outcomes (text : str) :
  (Exists bad_scores (score_rows text)
   /\ domain_scores text = Raise ValueError)
  \/ (Forall (fun r => ~ bad_scores r) (score_rows text)
      /\ exists scores,
           domain_scores text = Ok scores
           /\ forall d p f,
                scores_of scores d p f
                = if_any (averages_for d p f (score_rows text))).
Proof. apply record_scores_outcomes, finditer_scores_class. Qed.

End scores.

(** ** What [load_from_results_dir] returns *)

Section domain_data.
Import generate_charts.
Implicit Types (tokens : gmap str (gmap (str * str) Z)).
Implicit Types (scores : gmap str (gmap (str * str) (list Q))).
Implicit Types (domain_data : list (str * domain_entry)).

Lemma accuracy_loop (l : list (str * str * list Q)) (acc0 : gmap (str * str) Q) :
  NoDup l.*1 -> Forall (fun kv => kv.2 <> []) l ->
  exists acc,
    for_each (fun accuracy kv => a ← mean kv.2; Ok (<[kv.1 := a]> accuracy)) l acc0
    = Ok acc
    /\ forall k, acc !! k
                 = match (list_to_map l : gmap (str * str) (list Q)) !! k with
                   | Some xs => Some (average xs)
                   | None => acc0 !! k
                   end.
Proof.
  revert acc0. induction l as [|[k0 xs] l IH]; intros acc0 Hnd Hne.
  - exists acc0. split; [done|]. intros k. cbn [list_to_map foldr].
    by rewrite lookup_empty.
  - cbn [fmap list_fmap fst] in Hnd. apply NoDup_cons in Hnd as [Hk0 Hnd].
    apply Forall_cons in Hne as [Hxs Hne]. cbn [snd] in Hxs.
    cbn [for_each fst snd]. rewrite mean_average by done. cbn [mbind result_bind].
    destruct (IH (<[k0 := average xs]> acc0) Hnd Hne) as (acc & -> & Hacc).
    exists acc. split; [done|]. intros k. rewrite Hacc. cbn [list_to_map foldr fst snd].
    destruct (decide (k0 = k)) as [<-|Hk].
    + rewrite (not_elem_of_list_to_map_1 _ _ Hk0), !lookup_insert_eq. done.
    + rewrite !(lookup_insert_ne _ k0) by done. done.
Qed.

(** The accuracy of a domain never raises when no list of scores is empty,
    and holds the average of each list. *)
Lemma accuracy_of_means (sc : gmap (str * str) (list Q)) :
  (forall k xs, sc !! k = Some xs -> xs <> []) ->
  exists acc, accuracy_of sc = Ok acc /\ forall k, acc !! k = average <$> sc !! k.
Proof.
  intros Hne. unfold accuracy_of.
  destruct (accuracy_loop (map_to_list sc) ∅) as (acc & -> & Hacc).
  - apply NoDup_fst_map_to_list.
  - apply Forall_forall. intros [k xs] Hin. apply elem_of_map_to_list in Hin.
    by apply (Hne k).
  - exists acc. split; [done|]. intros k. rewrite Hacc, list_to_map_to_list.
    destruct (sc !! k); [done|]. by rewrite lookup_empty.
Qed.

(** The loop over the domains of the table. *)
Lemma table_loop tokens scores (table : list (str * str)) domain_data :
  (forall d inner k xs, scores !! d = Some inner -> inner !! k = Some xs -> xs <> []) ->
  exists added,
    for_each
      (fun domain_data kv =>
         match tokens !! kv.2 with
         | None => Ok domain_data
         | Some input_tokens =>
             accuracy ← accuracy_of (default ∅ (scores !! kv.2));
             Ok (domain_data ++ [(kv.2, DomainEntry accuracy input_tokens)])
         end)
      table domain_data
    = Ok (domain_data ++ added)
    /\ added.*1 = filter (fun d => tokens !! d <> None) table.*2
    /\ forall d entry,
         (d, entry) ∈ added ->
         tokens !! d = Some (input_tokens entry)
         /\ forall k, accuracy entry !! k
                      = average <$> (scores !! d ≫= (.!! k)).
Proof.
  intros Hne. revert domain_data.
  match goal with |- context [for_each ?b] => set (body := b) end.
  induction table as [|[key d] table IH]; intros domain_data.
  - exists []. rewrite app_nil_r. split_and!; [done..|]. by intros d entry ?%elem_of_nil.
  - cbn [for_each fmap list_fmap snd].
    assert (forall dd,
              body dd (key, d)
              = match tokens !! d with
                | None => Ok dd
                | Some input_tokens =>
                    accuracy ← accuracy_of (default ∅ (scores !! d));
                    Ok (dd ++ [(d, DomainEntry accuracy input_tokens)])
                end) as -> by done.
    destruct (tokens !! d) as [inner|] eqn:Hd.
    + destruct (accuracy_of_means (default ∅ (scores !! d))) as (acc & -> & Hacc).
      { intros k xs. destruct (scores !! d) as [sc|] eqn:Hsc; cbn [default].
        - by apply (Hne d sc).
        - by rewrite lookup_empty. }
      cbn [mbind result_bind].
      destruct (IH (domain_data ++ [(d, DomainEntry acc inner)]))
        as (added & -> & Hfst & Hin).
      exists ((d, DomainEntry acc inner) :: added). rewrite <- app_assoc.
      split_and!; [done| |].
      * rewrite filter_cons_True by (by rewrite Hd). cbn [fmap list_fmap fst].
        by f_equal.
      * intros d' entry [[= -> ->]|Hin']%elem_of_cons; [|by apply Hin].
        cbn [input_tokens accuracy]. split; [done|]. intros k. rewrite Hacc.
        destruct (scores !! d); [done|]. cbn [default mbind option_bind].
        by rewrite lookup_empty.
    + cbn [mbind result_bind].
      destruct (IH domain_data) as (added & -> & Hfst & Hin).
      exists added. split_and!; [done| |done].
      by rewrite filter_cons_False by (by rewrite Hd; intros ?).
Qed.

(** X26: what [load_from_results_dir] returns for any document.  It raises
    [ValueError] exactly when a matching analysis row has a score that is
    no literal, and raises nothing else; no list of scores is empty when
    its mean is taken.  Otherwise it returns the domains of
    [TASK_PREFIX_TO_DOMAIN] that a matching row of the responses section
    has, in the order of the table, and so drops the rows of every other
    domain; for each domain it returns, the input tokens of a provider and
    a format are the sum over the matching responses rows, and the accuracy
    is the mean of the per-row averages of the matching analysis rows. *)
Theorem load_from_results_dir_outcomes (text : str) :
  (Exists bad_scores (score_rows text)
   /\ load_from_results_dir text = Raise ValueError)
  \/ (Forall (fun r => ~ bad_scores r) (score_rows text)
      /\ exists domain_data,
           load_from_results_dir text = Ok domain_data
           /\ domain_data.*1
              = filter (fun d => d ∈ domain_of <$> response_rows text)
                       TASK_PREFIX_TO_DOMAIN.*2
           /\ forall d entry,
                (d, entry) ∈ domain_data ->
                forall p f,
                  input_tokens entry !! (p, f)
                  = sum_if_any (tokens_for d p f (response_rows text))
                  /\ accuracy entry !! (p, f)
                     = average <$> if_any (averages_for d p f (score_rows text))).
Proof.
  unfold load_from_results_dir, domain_tokens, domain_scores.
  destruct (record_responses_sum (re.finditer RESPONSE_ROW (responses_section text))
              (finditer_responses_convert _)) as (tokens & -> & Hdom & Hsum).
  cbn [mbind result_bind].
  destruct (record_scores_outcomes (re.finditer ANALYSIS_ROW (analysis_section text))
              (finditer_scores_class _))
    as [[Hbad ->]|(Hgood & scores & -> & Havg)]; [by left|right].
  split; [done|]. cbn [mbind result_bind].
  destruct (table_loop tokens scores TASK_PREFIX_TO_DOMAIN []) as (data & -> & Hfst & Hin).
  { intros d inner [p f] xs Hd Hk.
    pose proof (Havg d p f) as Hxs. unfold scores_of in Hxs.
    rewrite Hd in Hxs. cbn [mbind option_bind] in Hxs. rewrite Hk in Hxs.
    intros ->. by destruct (averages_for _ _ _ _). }
  exists data. split; [done|]. split.
  - rewrite Hfst. apply list_filter_iff. intros d. rewrite Hdom.
    split; [|by intros ? ?]. intros Hnn. by apply dec_stable.
  - intros d entry Hd p f. apply Hin in Hd as [Htok Hacc]. split.
    + rewrite <- Hsum. unfold input_tokens_of. by rewrite Htok.
    + rewrite Hacc. by rewrite <- Havg.
Qed.

End domain_data.

(** ** The validation block without OpenAI reports *)

Section validation_more.
Import validate_tokens.
Implicit Types (api_tokens : gmap str (gmap str Z)).

Lemma api_total_without_openai api_tokens (task_ids : list str) :
  (forall t, t ∈ task_ids -> reported api_tokens t (lit "openai") = None) ->
  foldr Z.add 0
    ((fun t => default 0 (default ∅ (api_tokens !! t) !! lit "openai")) <$> task_ids)
  = 0.
Proof.
  induction task_ids as [|t task_ids IH]; intros Hnone; [done|].
  cbn [fmap list_fmap foldr]. rewrite IH by (intros; by apply Hnone, list_elem_of_further).
  pose proof (Hnone t (list_elem_of_here _ _)) as Ht. unfold reported in Ht.
  destruct (api_tokens !! t) as [inner|]; cbn [default mbind option_bind] in *.
  - unfold id. by rewrite Ht.
  - by rewrite lookup_empty.
Qed.

(** X27: when the analysis file reports tokens but none for OpenAI on a task
    of [TASK_IDS], the reported total is 0, the aggregate difference is
    taken to be 0 percent, and the validation block prints PASS whatever
    the tokenizer counted. *)
Theorem validation_passes_without_openai api_tokens (total_tl : Z) :
  api_tokens <> ∅ ->
  (forall t, t ∈ TASK_IDS -> reported api_tokens t (lit "openai") = None) ->
  api_total api_tokens = 0
  /\ validation api_tokens total_tl = Ok (Some PASS).
Proof.
  intros Hne Hnone.
  assert (api_total api_tokens = 0) as Htotal
    by (by apply api_total_without_openai).
  split; [done|]. unfold validation.
  rewrite bool_decide_eq_false_2 by done. by rewrite Htotal.
Qed.

Lemma validation_passes_without_openai_witness :
  api_total {[ lit "FIN-001" := {[ lit "anthropic" := 100 ]} ]} = 0
  /\ validation {[ lit "FIN-001" := {[ lit "anthropic" := 100 ]} ]} 999
     = Ok (Some PASS).
Proof.
  apply (validation_passes_without_openai
           {[ lit "FIN-001" := {[ lit "anthropic" := 100 ]} ]} 999).
  - apply map_non_empty_singleton.
  - intros t Ht. unfold TASK_IDS in Ht.
    repeat (apply elem_of_cons in Ht as [->|Ht]; [vm_compute; reflexivity|]).
    by apply elem_of_nil in Ht.
Defined.

End validation_more.
